(** * ccx: account lifecycle and credential consistency

    A shallow embedding of the domain package (accounts, credentials,
    switch history) and of the three use cases (add, switch, remove) of
    ccx, together with the in-memory stores of the usecases_test package
    that the use cases are exercised against. *)

From Stdlib Require Import ZArith List Bool Lia.
From Stdlib.Strings Require Import String Ascii Byte.
From stdpp Require Import base option gmap strings list pretty.

Local Open Scope Z_scope.

(** ** Go errors *)

(** [errors.New(msg)], [fmt.Errorf("prefix: %w", cause)] and the two
    sentinels a context reports. *)
Inductive error : Type :=
| Canceled
| DeadlineExceeded
| New (msg : string)
| Wrap (prefix : string) (cause : error).

(** [err.Error()]. *)
Fixpoint Error (e : error) : string :=
  match e with
  | Canceled => "context canceled"
  | DeadlineExceeded => "context deadline exceeded"
  | New msg => msg
  | Wrap prefix cause => prefix +:+ Error cause
  end.

Definition error_eqb_head (e target : error) : bool :=
  match e, target with
  | Canceled, Canceled => true
  | DeadlineExceeded, DeadlineExceeded => true
  | New a, New b => String.eqb a b
  | _, _ => false
  end.

(** [errors.Is(e, target)] for a sentinel target: walks the %w chain. *)
Fixpoint errors_Is (e target : error) : bool :=
  error_eqb_head e target ||
  match e with
  | Wrap _ cause => errors_Is cause target
  | _ => false
  end.

(** A Go [(T, error)] return. *)
Inductive result (A : Type) : Type :=
| Ok (a : A)
| Err (e : error).
Arguments Ok {A} a.
Arguments Err {A} e.

Definition is_Ok {A} (r : result A) : bool :=
  match r with Ok _ => true | Err _ => false end.

Definition is_Err {A} (r : result A) : bool := negb (is_Ok r).

(** ** Regular expressions (package regexp, the fragment the domain uses)

    Matching by derivatives; the two patterns of the domain are anchored at
    both ends, so [MatchString] is a full match. *)
Inductive regex : Type :=
| Void
| Eps
| Cls (p : ascii -> bool)
| Cat (r s : regex)
| Alt (r s : regex)
| Star (r : regex).

Definition Plus (r : regex) : regex := Cat r (Star r).

Fixpoint nullable (r : regex) : bool :=
  match r with
  | Void => false
  | Eps => true
  | Cls _ => false
  | Cat r s => nullable r && nullable s
  | Alt r s => nullable r || nullable s
  | Star _ => true
  end.

Fixpoint deriv (c : ascii) (r : regex) : regex :=
  match r with
  | Void => Void
  | Eps => Void
  | Cls p => if p c then Eps else Void
  | Cat r s =>
      if nullable r then Alt (Cat (deriv c r) s) (deriv c s)
      else Cat (deriv c r) s
  | Alt r s => Alt (deriv c r) (deriv c s)
  | Star r => Cat (deriv c r) (Star r)
  end.

Fixpoint MatchString (r : regex) (s : string) : bool :=
  match s with
  | EmptyString => nullable r
  | String c s' => MatchString (deriv c r) s'
  end.

Definition between (lo hi c : ascii) : bool :=
  (N_of_ascii lo <=? N_of_ascii c)%N && (N_of_ascii c <=? N_of_ascii hi)%N.

Definition is_lower (c : ascii) : bool := between "a" "z" c.
Definition is_upper (c : ascii) : bool := between "A" "Z" c.
Definition is_digit (c : ascii) : bool := between "0" "9" c.
Definition is_alpha (c : ascii) : bool := is_lower c || is_upper c.
Definition is_alnum (c : ascii) : bool := is_alpha c || is_digit c.

Definition one_of (cs : string) (c : ascii) : bool :=
  existsb (Ascii.eqb c) (list_ascii_of_string cs).

Definition Chr (c : ascii) : regex := Cls (Ascii.eqb c).

(** [^[a-zA-Z0-9._%+-]+@[a-zA-Z0-9.-]+\.[a-zA-Z]{2,}$] *)
Definition emailRegex : regex :=
  Cat (Plus (Cls (fun c => is_alnum c || one_of "._%+-" c)))
  (Cat (Chr "@")
  (Cat (Plus (Cls (fun c => is_alnum c || one_of ".-" c)))
  (Cat (Chr ".")
  (Cat (Cls is_alpha) (Cat (Cls is_alpha) (Star (Cls is_alpha))))))).

(** [^[a-zA-Z0-9_-]+$] *)
Definition aliasRegex : regex :=
  Plus (Cls (fun c => is_alnum c || one_of "_-" c)).

(** [strings.Contains(s, sub)] *)
Fixpoint strings_Contains (s sub : string) : bool :=
  String.prefix sub s ||
  match s with
  | EmptyString => false
  | String _ s' => strings_Contains s' sub
  end.

(** ** The sources of time and randomness

    [time.Now], [crypto/rand.Read] and [io.ReadFull(rand.Reader, _)] are
    inputs of the model.  A random source that works is a stream of bytes,
    so a read of [n] bytes has length [n] by construction. *)
Definition Time : Type := Z.

Record Env : Type := {
  time_Now : Time;
  today : string;                       (* time.Now().Format("20060102") *)
  rand_id : option (nat -> byte);       (* rand.Read in GenerateAccountID *)
  rand_nonce : option (nat -> byte)     (* rand.Reader in encrypt *)
}.

Definition read_bytes (src : option (nat -> byte)) (n : nat) : result (list byte) :=
  match src with
  | Some f => Ok (map f (seq 0 n))
  | None => Err (New "entropy source failed")
  end.

(** ** Accounts (domain/account.go) *)

Abbreviation AccountID := string (only parsing).
Abbreviation Email := string (only parsing).

Record Account : Type := {
  Account_ID : AccountID;
  Account_Email : Email;
  Account_Alias : string;
  Account_UUID : string;
  Account_CreatedAt : Time;
  Account_LastUsed : Time
}.

Definition ValidateEmail (email : string) : option error :=
  if String.eqb email "" then Some (New "email cannot be empty")
  else if negb (MatchString emailRegex email) then Some (New "invalid email format")
  else None.

Definition validateAlias (alias : string) : option error :=
  if strings_Contains alias " " then Some (New "alias cannot contain spaces")
  else if negb (MatchString aliasRegex alias) then
    Some (New "alias can only contain letters, numbers, hyphens, and underscores")
  else None.

Definition hex_digit (n : N) : ascii :=
  if (n <? 10)%N then ascii_of_N (N_of_ascii "0" + n)
  else ascii_of_N (N_of_ascii "a" + (n - 10)).

(** [hex.EncodeToString] *)
Fixpoint hex_EncodeToString (bs : list byte) : string :=
  match bs with
  | [] => ""
  | b :: bs' =>
      let n := Byte.to_N b in
      String (hex_digit (n / 16)) (String (hex_digit (n mod 16)) (hex_EncodeToString bs'))
  end.

Definition GenerateAccountID (env : Env) : AccountID :=
  match read_bytes (rand_id env) 4 with
  | Err _ => today env
  | Ok bytes => hex_EncodeToString bytes
  end.

Definition NewAccount (env : Env) (email alias uuid : string) : result Account :=
  match ValidateEmail email with
  | Some err => Err err
  | None =>
      if String.eqb uuid "" then Err (New "uuid cannot be empty")
      else
        match (if negb (String.eqb alias "") then validateAlias alias else None) with
        | Some err => Err err
        | None =>
            let now := time_Now env in
            Ok {| Account_ID := GenerateAccountID env;
                  Account_Email := email;
                  Account_Alias := alias;
                  Account_UUID := uuid;
                  Account_CreatedAt := now;
                  Account_LastUsed := now |}
        end
  end.

(** [UpdateAlias] and [MarkUsed] mutate the account they are called on:
    here they return it. *)
Definition Account_UpdateAlias (newAlias : string) (a : Account) : option error * Account :=
  match (if negb (String.eqb newAlias "") then validateAlias newAlias else None) with
  | Some err => (Some err, a)
  | None =>
      (None, {| Account_ID := Account_ID a;
                Account_Email := Account_Email a;
                Account_Alias := newAlias;
                Account_UUID := Account_UUID a;
                Account_CreatedAt := Account_CreatedAt a;
                Account_LastUsed := Account_LastUsed a |})
  end.

Definition Account_MarkUsed (env : Env) (a : Account) : Account :=
  {| Account_ID := Account_ID a;
     Account_Email := Account_Email a;
     Account_Alias := Account_Alias a;
     Account_UUID := Account_UUID a;
     Account_CreatedAt := Account_CreatedAt a;
     Account_LastUsed := time_Now env |}.

(** ** Credentials (domain/credentials.go)

    The cryptographic primitives come from Go's standard library
    (crypto/sha256, crypto/aes, crypto/cipher) and are an interface here. *)
Class CryptoLib : Type := {
  Block : Type;
  AEAD : Type;
  sha256_Sum256 : list byte -> list byte;
  aes_NewCipher : list byte -> result Block;
  cipher_NewGCM : Block -> result AEAD;
  NonceSize : AEAD -> nat;
  (* gcm.Seal(dst, nonce, plaintext, additionalData) *)
  Seal : AEAD -> list byte -> list byte -> list byte -> list byte -> list byte;
  (* gcm.Open(dst, nonce, ciphertext, additionalData) *)
  Open : AEAD -> list byte -> list byte -> list byte -> list byte -> result (list byte)
}.

(** What the library documents: SHA-256 digests are valid AES-256 keys,
    [Seal] appends to [dst], and [Open] inverts [Seal] under the same key,
    nonce and additional data. *)
Class CryptoLaws (C : CryptoLib) : Prop := {
  digest_is_key : forall data, exists block gcm,
      aes_NewCipher (sha256_Sum256 data) = Ok block /\ cipher_NewGCM block = Ok gcm;
  Seal_appends : forall gcm dst nonce plaintext ad,
      Seal gcm dst nonce plaintext ad = dst ++ Seal gcm [] nonce plaintext ad;
  Open_Seal : forall gcm nonce plaintext ad,
      length nonce = NonceSize gcm ->
      Open gcm [] nonce (Seal gcm [] nonce plaintext ad) ad = Ok plaintext
}.

Record Credentials : Type := {
  Credentials_AccountID : AccountID;
  encryptedData : list byte;
  encryptionKey : list byte
}.

Section Credentials.
Context {C : CryptoLib}.

Definition deriveKey (accountID : AccountID) : list byte :=
  sha256_Sum256 (list_byte_of_string ("ccx-encryption-" +:+ accountID)).

Definition encrypt (env : Env) (plaintext key : list byte) : result (list byte) :=
  match aes_NewCipher key with
  | Err err => Err err
  | Ok block =>
      match cipher_NewGCM block with
      | Err err => Err err
      | Ok gcm =>
          match read_bytes (rand_nonce env) (NonceSize gcm) with
          | Err err => Err err
          | Ok nonce => Ok (Seal gcm nonce nonce plaintext [])
          end
      end
  end.

Definition decrypt (ciphertext key : list byte) : result (list byte) :=
  match aes_NewCipher key with
  | Err err => Err err
  | Ok block =>
      match cipher_NewGCM block with
      | Err err => Err err
      | Ok gcm =>
          let nonceSize := NonceSize gcm in
          if (length ciphertext <? nonceSize)%nat then Err (New "ciphertext too short")
          else
            let nonce := firstn nonceSize ciphertext in
            let ciphertext := skipn nonceSize ciphertext in
            Open gcm [] nonce ciphertext []
      end
  end.

Definition NewCredentials (env : Env) (accountID : AccountID) (data : list byte)
  : result Credentials :=
  if String.eqb accountID "" then Err (New "account ID cannot be empty")
  else if (length data =? 0)%nat then Err (New "credentials data cannot be empty")
  else
    let key := deriveKey accountID in
    match encrypt env data key with
    | Err err => Err err
    | Ok encrypted =>
        Ok {| Credentials_AccountID := accountID;
              encryptedData := encrypted;
              encryptionKey := key |}
    end.

Definition Credentials_Decrypt (c : Credentials) : result (list byte) :=
  decrypt (encryptedData c) (encryptionKey c).

Definition Credentials_UpdateData (env : Env) (newData : list byte) (c : Credentials)
  : option error * Credentials :=
  if (length newData =? 0)%nat then (Some (New "credentials data cannot be empty"), c)
  else
    match encrypt env newData (encryptionKey c) with
    | Err err => (Some err, c)
    | Ok encrypted =>
        (None, {| Credentials_AccountID := Credentials_AccountID c;
                  encryptedData := encrypted;
                  encryptionKey := encryptionKey c |})
    end.
End Credentials.

(** ** Switch history (domain/history.go) *)

Record SwitchEntry : Type := {
  SwitchEntry_From : Email;
  SwitchEntry_To : Email;
  SwitchEntry_Timestamp : Time
}.

Record History : Type := {
  entries : list SwitchEntry;
  History_MaxEntries : Z
}.

Definition NewSwitchEntry (env : Env) (from to : Email) : result SwitchEntry :=
  if String.eqb from "" then Err (New "from email cannot be empty")
  else if String.eqb to "" then Err (New "to email cannot be empty")
  else if String.eqb from to then Err (New "cannot switch to the same account")
  else Ok {| SwitchEntry_From := from;
             SwitchEntry_To := to;
             SwitchEntry_Timestamp := time_Now env |}.

Definition NewHistory (maxEntries : Z) : History :=
  let maxEntries := if maxEntries <=? 0 then 10 else maxEntries in
  {| entries := []; History_MaxEntries := maxEntries |}.

(** [entry] is a pointer in the source: [None] is the nil entry. *)
Definition History_AddEntry (entry : option SwitchEntry) (h : History) : History :=
  match entry with
  | None => h
  | Some e =>
      let es := e :: entries h in
      let es :=
        if Z.of_nat (length es) >? History_MaxEntries h
        then firstn (Z.to_nat (History_MaxEntries h)) es
        else es in
      {| entries := es; History_MaxEntries := History_MaxEntries h |}
  end.

Definition History_Entries (h : History) : list SwitchEntry := entries h.

Definition History_Clear (h : History) : History :=
  {| entries := []; History_MaxEntries := History_MaxEntries h |}.

Definition History_GetLastSwitch (h : History) : option SwitchEntry :=
  match entries h with
  | [] => None
  | e :: _ => Some e
  end.

Definition History_FindSwitchesFrom (email : Email) (h : History) : list SwitchEntry :=
  filter (fun e => SwitchEntry_From e = email) (entries h).

Definition History_FindSwitchesTo (email : Email) (h : History) : list SwitchEntry :=
  filter (fun e => SwitchEntry_To e = email) (entries h).

(** ** The stores (usecases_test: the in-memory test doubles)

    The use cases reach their stores through the four ports; the stores
    modelled here are the in-memory ones of the usecases_test package, with
    their injected failures.  The credential and account stores are the
    extended ones, whose [Delete] can be made to fail as well; with
    [deleteErr = None] they are the plain ones.  None of them looks at the
    context it is given.  A Go map is iterated in no particular order; the
    model takes the order of [map_to_list]. *)

Module mockAccountRepository.
Record t : Type := {
  accounts : gmap string Account;
  saveErr : option error;
  findErr : option error;
  deleteErr : option error
}.

Definition with_accounts (m : t) (a : gmap string Account) : t :=
  {| accounts := a; saveErr := saveErr m; findErr := findErr m; deleteErr := deleteErr m |}.

Definition values (m : t) : list Account := (map_to_list (accounts m)).*2.

Definition Save (account : Account) (m : t) : result unit * t :=
  match saveErr m with
  | Some err => (Err err, m)
  | None => (Ok tt, with_accounts m (<[Account_ID account := account]> (accounts m)))
  end.

Definition FindByID (id : AccountID) (m : t) : result Account :=
  match findErr m with
  | Some err => Err err
  | None =>
      match accounts m !! id with
      | Some account => Ok account
      | None => Err (New "account not found")
      end
  end.

Definition FindByEmail (email : Email) (m : t) : result Account :=
  match findErr m with
  | Some err => Err err
  | None =>
      match find (fun account => String.eqb (Account_Email account) email) (values m) with
      | Some account => Ok account
      | None => Err (New "account not found")
      end
  end.

Definition FindByAlias (alias : string) (m : t) : result Account :=
  match findErr m with
  | Some err => Err err
  | None =>
      match find (fun account => String.eqb (Account_Alias account) alias) (values m) with
      | Some account => Ok account
      | None => Err (New "account not found")
      end
  end.

Definition List (m : t) : result (list Account) :=
  match findErr m with
  | Some err => Err err
  | None => Ok (values m)
  end.

Definition Delete (id : AccountID) (m : t) : result unit * t :=
  match deleteErr m with
  | Some err => (Err err, m)
  | None => (Ok tt, with_accounts m (delete id (accounts m)))
  end.
End mockAccountRepository.

Module mockCredentialStore.
Record t : Type := {
  credentials : gmap string Credentials;
  storeErr : option error;
  retrieveErr : option error;
  deleteErr : option error
}.

Definition with_credentials (m : t) (c : gmap string Credentials) : t :=
  {| credentials := c; storeErr := storeErr m; retrieveErr := retrieveErr m;
     deleteErr := deleteErr m |}.

Definition Store (creds : Credentials) (m : t) : result unit * t :=
  match storeErr m with
  | Some err => (Err err, m)
  | None =>
      (Ok tt, with_credentials m (<[Credentials_AccountID creds := creds]> (credentials m)))
  end.

Definition Retrieve (accountID : AccountID) (m : t) : result Credentials :=
  match retrieveErr m with
  | Some err => Err err
  | None =>
      match credentials m !! accountID with
      | Some creds => Ok creds
      | None => Err (New "credentials not found")
      end
  end.

Definition Delete (accountID : AccountID) (m : t) : result unit * t :=
  match deleteErr m with
  | Some err => (Err err, m)
  | None => (Ok tt, with_credentials m (delete accountID (credentials m)))
  end.
End mockCredentialStore.

Module mockConfigManager.
Record t : Type := {
  currentAccount : option Account;
  getErr : option error;
  setErr : option error
}.

Definition GetCurrentAccount (m : t) : result (option Account) :=
  match getErr m with
  | Some err => Err err
  | None => Ok (currentAccount m)
  end.

Definition SetCurrentAccount (account : option Account) (m : t) : result unit * t :=
  match setErr m with
  | Some err => (Err err, m)
  | None => (Ok tt, {| currentAccount := account; getErr := getErr m; setErr := setErr m |})
  end.
End mockConfigManager.

Module mockHistoryRepository.
Record t : Type := {
  history : History;
  saveErr : option error;
  loadErr : option error;
  saveCalls : Z
}.

Definition SaveHistory (h : History) (m : t) : result unit * t :=
  let saveCalls := saveCalls m + 1 in
  match saveErr m with
  | Some err =>
      (Err err, {| history := history m; saveErr := saveErr m; loadErr := loadErr m;
                   saveCalls := saveCalls |})
  | None =>
      (Ok tt, {| history := h; saveErr := saveErr m; loadErr := loadErr m;
                 saveCalls := saveCalls |})
  end.

Definition LoadHistory (m : t) : result History :=
  match loadErr m with
  | Some err => Err err
  | None => Ok (history m)
  end.

(** [LoadHistory] hands out the pointer the store holds: a method that
    mutates the loaded ledger mutates the stored one. *)
Definition update_loaded (f : History -> History) (m : t) : result unit * t :=
  (Ok tt, {| history := f (history m); saveErr := saveErr m; loadErr := loadErr m;
             saveCalls := saveCalls m |}).
End mockHistoryRepository.

(** ** The state the use cases run in *)

Record World : Type := {
  accountRepo : mockAccountRepository.t;
  credentialStore : mockCredentialStore.t;
  configManager : mockConfigManager.t;
  historyRepo : mockHistoryRepository.t
}.

(** The world with another credential store. *)
Definition with_credentialStore (w : World) (s : mockCredentialStore.t) : World :=
  {| accountRepo := accountRepo w;
     credentialStore := s;
     configManager := configManager w;
     historyRepo := historyRepo w |}.

(** A Go method of a service: it may write to the stores and then return
    an error, so the state is returned on both outcomes. *)
Definition M (A : Type) : Type := World -> result A * World.

Definition ret {A} (a : A) : M A := fun w => (Ok a, w).
Definition fail {A} (e : error) : M A := fun w => (Err e, w).

Definition bind {A B} (m : M A) (k : A -> M B) : M B :=
  fun w =>
    match m w with
    | (Ok a, w') => k a w'
    | (Err e, w') => (Err e, w')
    end.

(** [if err != nil { return fmt.Errorf(prefix + "%w", err) }] *)
Definition wrapping {A} (prefix : string) (m : M A) : M A :=
  fun w =>
    match m w with
    | (Ok a, w') => (Ok a, w')
    | (Err e, w') => (Err (Wrap prefix e), w')
    end.

(** The outcome of a call as a value: [x, err := f()] without a return. *)
Definition attempt {A} (m : M A) : M (result A) :=
  fun w => let '(r, w') := m w in (Ok r, w').

Declare Scope go_scope.
Delimit Scope go_scope with go.
Notation "'let*' x ':=' m 'in' k" := (bind m (fun x => k))
  (at level 10, x pattern, m at level 100, k at level 200) : go_scope.
Notation "'do' m 'then' k" := (bind m (fun _ => k))
  (at level 10, m at level 100, k at level 200) : go_scope.
Local Open Scope go_scope.

Definition accounts_do {A} (f : mockAccountRepository.t -> result A * mockAccountRepository.t)
  : M A :=
  fun w =>
    let '(r, s) := f (accountRepo w) in
    (r, {| accountRepo := s; credentialStore := credentialStore w;
           configManager := configManager w; historyRepo := historyRepo w |}).

Definition credentials_do {A} (f : mockCredentialStore.t -> result A * mockCredentialStore.t)
  : M A :=
  fun w =>
    let '(r, s) := f (credentialStore w) in
    (r, {| accountRepo := accountRepo w; credentialStore := s;
           configManager := configManager w; historyRepo := historyRepo w |}).

Definition config_do {A} (f : mockConfigManager.t -> result A * mockConfigManager.t) : M A :=
  fun w =>
    let '(r, s) := f (configManager w) in
    (r, {| accountRepo := accountRepo w; credentialStore := credentialStore w;
           configManager := s; historyRepo := historyRepo w |}).

Definition history_do {A} (f : mockHistoryRepository.t -> result A * mockHistoryRepository.t)
  : M A :=
  fun w =>
    let '(r, s) := f (historyRepo w) in
    (r, {| accountRepo := accountRepo w; credentialStore := credentialStore w;
           configManager := configManager w; historyRepo := s |}).

(** A call that only reads. *)
Definition reading {S A} (proj : World -> S) (f : S -> result A) : M A :=
  fun w => (f (proj w), w).

(** [context.Context]: what [ctx.Err()] reports. *)
Record Context : Type := { Context_Err : option error }.

Definition context_Background : Context := {| Context_Err := None |}.
Definition context_cancelled : Context := {| Context_Err := Some Canceled |}.

(** ** Use cases (package usecases) *)

Record AccountInfo : Type := {
  AccountInfo_ID : string;
  AccountInfo_Email : string;
  AccountInfo_Alias : string;
  AccountInfo_UUID : string;
  AccountInfo_CreatedAt : Time
}.

Definition accountToInfo (account : Account) : AccountInfo :=
  {| AccountInfo_ID := Account_ID account;
     AccountInfo_Email := Account_Email account;
     AccountInfo_Alias := Account_Alias account;
     AccountInfo_UUID := Account_UUID account;
     AccountInfo_CreatedAt := Account_CreatedAt account |}.

(** [strings.ReplaceAll(s, old, new)] for a one-byte [old]. *)
Fixpoint strings_ReplaceAll (s : string) (old : ascii) (new : string) : string :=
  match s with
  | EmptyString => EmptyString
  | String c s' =>
      if Ascii.eqb c old then new +:+ strings_ReplaceAll s' old new
      else String c (strings_ReplaceAll s' old new)
  end.

(** [strings.Split(s, sep)] for a one-byte [sep]: never empty. *)
Fixpoint strings_Split (s : string) (sep : ascii) : list string :=
  match s with
  | EmptyString => [EmptyString]
  | String c s' =>
      if Ascii.eqb c sep then EmptyString :: strings_Split s' sep
      else
        match strings_Split s' sep with
        | [] => [String c EmptyString]
        | p :: ps => String c p :: ps
        end
  end.

Definition quote : string := String "034"%char EmptyString.

(** [fmt.Sprintf] of the placeholder payload, a JSON object with the keys
    account_id and session_key. *)
Definition placeholderCredentials (uuid : string) : string :=
  "{" +:+ quote +:+ "account_id" +:+ quote +:+ ": " +:+ quote +:+ uuid +:+ quote +:+
  ", " +:+ quote +:+ "session_key" +:+ quote +:+ ": " +:+ quote +:+ "placeholder" +:+
  quote +:+ "}".

Record AddAccountInput : Type := {
  AddAccountInput_Email : string;
  AddAccountInput_Alias : string;
  AddAccountInput_Credentials : list byte
}.

(** [fmt.Errorf("account with email %s already exists", email)] *)
Definition errAlreadyExists (email : string) : error :=
  New ("account with email " +:+ email +:+ " already exists").

Section AddAccountService.
Context {C : CryptoLib}.

Definition AddAccountService_determineAccountDetails (ctx : Context) (input : AddAccountInput)
  : M (string * string * list byte) :=
  if negb (String.eqb (AddAccountInput_Email input) "") then
    if (length (AddAccountInput_Credentials input) =? 0)%nat then
      fail (New "credentials must be provided when email is specified explicitly")
    else
      let uuid := "explicit-" +:+ strings_ReplaceAll (AddAccountInput_Email input) "@" "-" in
      ret (AddAccountInput_Email input, uuid, AddAccountInput_Credentials input)
  else
    let* currentAccount := wrapping "failed to get current Claude account: "
      (reading configManager mockConfigManager.GetCurrentAccount) in
    match currentAccount with
    | None =>
        fail (New "no current Claude account found - please configure Claude or provide explicit email")
    | Some currentAccount =>
        let email := Account_Email currentAccount in
        let uuid := Account_UUID currentAccount in
        let credentialData :=
          if (0 <? length (AddAccountInput_Credentials input))%nat
          then AddAccountInput_Credentials input
          else list_byte_of_string (placeholderCredentials uuid) in
        ret (email, uuid, credentialData)
    end.

Definition AddAccountService_checkAccountExists (ctx : Context) (email : string) : M unit :=
  let* found := attempt (reading accountRepo (mockAccountRepository.FindByEmail email)) in
  match found with
  | Ok _ => fail (errAlreadyExists email)
  | Err _ => ret tt
  end.

Definition AddAccountService_generateAlias (inputAlias email : string) : string :=
  if negb (String.eqb inputAlias "") then inputAlias
  else
    match strings_Split email "@" with
    | part :: _ => part
    | [] => ""
    end.

Definition AddAccountService_createAndSaveAccount (env : Env) (ctx : Context)
    (email alias uuid : string) (credentialData : list byte) : M unit :=
  match NewAccount env email alias uuid with
  | Err err => fail (Wrap "failed to create account: " err)
  | Ok account =>
      match NewCredentials env (Account_ID account) credentialData with
      | Err err => fail (Wrap "failed to create credentials: " err)
      | Ok credentials =>
          do wrapping "failed to store credentials: "
            (credentials_do (mockCredentialStore.Store credentials)) then
          let* saved := attempt (accounts_do (mockAccountRepository.Save account)) in
          match saved with
          | Err err =>
              (* Clean up credentials on account save failure *)
              do attempt (credentials_do (mockCredentialStore.Delete (Account_ID account))) then
              fail (Wrap "failed to save account: " err)
          | Ok _ => ret tt
          end
      end
  end.

Definition AddAccountService_Execute (env : Env) (ctx : Context) (input : AddAccountInput)
  : M unit :=
  let* (email, uuid, credentialData) :=
    AddAccountService_determineAccountDetails ctx input in
  do AddAccountService_checkAccountExists ctx email then
  let alias := AddAccountService_generateAlias (AddAccountInput_Alias input) email in
  AddAccountService_createAndSaveAccount env ctx email alias uuid credentialData.
End AddAccountService.

Record SwitchAccountInput : Type := {
  SwitchAccountInput_AccountID : string;
  SwitchAccountInput_Email : string;
  SwitchAccountInput_Alias : string;
  SwitchAccountInput_Index : Z;
  SwitchAccountInput_Previous : bool
}.

Record SwitchAccountResult : Type := {
  SwitchAccountResult_From : option AccountInfo;
  SwitchAccountResult_To : AccountInfo
}.

Definition nonempty (s : string) : bool := negb (String.eqb s "").

(** [fmt.Errorf("invalid index %d: must be positive", index)] *)
Definition errInvalidIndex (index : Z) : error :=
  New ("invalid index " +:+ pretty index +:+ ": must be positive").

(** [fmt.Errorf("index %d out of range (have %d accounts)", index, len)] *)
Definition errIndexOutOfRange (index len : Z) : error :=
  New ("index " +:+ pretty index +:+ " out of range (have " +:+ pretty len +:+ " accounts)").

Section SwitchAccountService.

Definition SwitchAccountService_getPreviousAccount (ctx : Context) : M Account :=
  let* history := wrapping "failed to load history: "
    (reading historyRepo mockHistoryRepository.LoadHistory) in
  match History_GetLastSwitch history with
  | None => fail (New "no previous account in history")
  | Some lastSwitch =>
      reading accountRepo (mockAccountRepository.FindByEmail (SwitchEntry_From lastSwitch))
  end.

Definition SwitchAccountService_findByIndex (ctx : Context) (index : Z) : M Account :=
  if index <=? 0 then fail (errInvalidIndex index)
  else
    let* accounts := wrapping "failed to list accounts: "
      (reading accountRepo mockAccountRepository.List) in
    if index >? Z.of_nat (length accounts) then
      fail (errIndexOutOfRange index (Z.of_nat (length accounts)))
    else
      match nth_error accounts (Z.to_nat (index - 1)) with
      | Some account => ret account
      | None => fail (New "index out of range")   (* not reached: index <= len *)
      end.

Definition SwitchAccountService_determineTargetAccount (ctx : Context)
    (input : SwitchAccountInput) : M Account :=
  let byID := nonempty (SwitchAccountInput_AccountID input) in
  let byEmail := nonempty (SwitchAccountInput_Email input) in
  let byAlias := nonempty (SwitchAccountInput_Alias input) in
  let byIndex := SwitchAccountInput_Index input >? 0 in
  if SwitchAccountInput_Previous input then
    if byID || byEmail || byAlias || byIndex then
      fail (New "previous flag cannot be combined with other input methods")
    else SwitchAccountService_getPreviousAccount ctx
  else
    let inputCount :=
      (if byID then 1 else 0) + (if byEmail then 1 else 0) +
      (if byAlias then 1 else 0) + (if byIndex then 1 else 0) in
    if inputCount =? 0 then fail (New "no account identifier provided")
    else if inputCount >? 1 then
      fail (New "multiple account identifiers provided; use only one")
    else if byID then
      reading accountRepo (mockAccountRepository.FindByID (SwitchAccountInput_AccountID input))
    else if byEmail then
      reading accountRepo (mockAccountRepository.FindByEmail (SwitchAccountInput_Email input))
    else if byAlias then
      reading accountRepo (mockAccountRepository.FindByAlias (SwitchAccountInput_Alias input))
    else if byIndex then
      SwitchAccountService_findByIndex ctx (SwitchAccountInput_Index input)
    else fail (New "internal error: invalid input state").

Definition SwitchAccountService_saveToHistory (env : Env) (ctx : Context) (from to : Email)
  : M unit :=
  let* loaded := attempt (reading historyRepo mockHistoryRepository.LoadHistory) in
  match NewSwitchEntry env from to with
  | Err err => fail (Wrap "failed to create switch entry: " err)
  | Ok entry =>
      match loaded with
      | Err _ =>
          (* a ledger of its own: nothing else points to it *)
          let history := History_AddEntry (Some entry) (NewHistory 50) in
          history_do (mockHistoryRepository.SaveHistory history)
      | Ok _ =>
          (* the ledger the store holds, mutated in place and handed back *)
          do history_do (mockHistoryRepository.update_loaded (History_AddEntry (Some entry))) then
          let* history := reading historyRepo (fun m => Ok (mockHistoryRepository.history m)) in
          history_do (mockHistoryRepository.SaveHistory history)
      end
  end.

Definition SwitchAccountService_Execute (env : Env) (ctx : Context)
    (input : SwitchAccountInput) : M SwitchAccountResult :=
  match Context_Err ctx with
  | Some err => fail (Wrap "context cancelled: " err)
  | None =>
      let* currentAccount := wrapping "failed to get current account: "
        (reading configManager mockConfigManager.GetCurrentAccount) in
      let* targetAccount := SwitchAccountService_determineTargetAccount ctx input in
      let sameAccount :=
        match currentAccount with
        | Some current => String.eqb (Account_ID current) (Account_ID targetAccount)
        | None => false
        end in
      match currentAccount, sameAccount with
      | Some current, true =>
          let currentInfo := accountToInfo current in
          ret {| SwitchAccountResult_From := Some currentInfo;
                 SwitchAccountResult_To := currentInfo |}
      | _, _ =>
          do wrapping
            ("failed to retrieve credentials for account " +:+
             Account_Alias targetAccount +:+ ": ")
            (reading credentialStore
               (mockCredentialStore.Retrieve (Account_ID targetAccount))) then
          do wrapping "failed to set current account: "
            (config_do (mockConfigManager.SetCurrentAccount (Some targetAccount))) then
          do match currentAccount with
             | Some current =>
                 do attempt (SwitchAccountService_saveToHistory env ctx
                               (Account_Email current) (Account_Email targetAccount)) then
                 ret tt
             | None => ret tt
             end then
          ret {| SwitchAccountResult_From := option_map accountToInfo currentAccount;
                 SwitchAccountResult_To := accountToInfo targetAccount |}
      end
  end.
End SwitchAccountService.

Record RemoveAccountInput : Type := { RemoveAccountInput_AccountID : string }.

Record RemoveAccountResult : Type := {
  RemovedAccount : AccountInfo;
  WasCurrentAccount : bool;
  WasLastAccount : bool
}.

Record removalMetadata : Type := {
  accountInfo : AccountInfo;
  isCurrentAccount : bool;
  isLastAccount : bool;
  backupCredentials : option Credentials
}.

Section RemoveAccountService.

Definition RemoveAccountService_validateInput (ctx : Context) (input : RemoveAccountInput)
  : M unit :=
  if String.eqb (RemoveAccountInput_AccountID input) "" then
    fail (New "account ID is required")
  else
    match Context_Err ctx with
    | Some err => fail err
    | None => ret tt
    end.

Definition RemoveAccountService_getRemovalMetadata (ctx : Context) (account : Account)
  : M removalMetadata :=
  let* current := attempt (reading configManager mockConfigManager.GetCurrentAccount) in
  let isCurrentAccount :=
    match current with
    | Ok (Some currentAccount) => String.eqb (Account_ID currentAccount) (Account_ID account)
    | _ => false
    end in
  let* allAccounts := wrapping "failed to check account count: "
    (reading accountRepo mockAccountRepository.List) in
  let isLastAccount := (length allAccounts =? 1)%nat in
  let* creds := attempt
    (reading credentialStore (mockCredentialStore.Retrieve (Account_ID account))) in
  let backupCredentials :=
    match creds with
    | Ok creds => Some creds
    | Err _ => None
    end in
  ret {| accountInfo := accountToInfo account;
         isCurrentAccount := isCurrentAccount;
         isLastAccount := isLastAccount;
         backupCredentials := backupCredentials |}.

Definition RemoveAccountService_rollbackCredentials (ctx : Context)
    (backupCredentials : option Credentials) : M unit :=
  match backupCredentials with
  | Some backup =>
      do attempt (credentials_do (mockCredentialStore.Store backup)) then ret tt
  | None => ret tt
  end.

Definition RemoveAccountService_rollbackFull (ctx : Context) (account : Account)
    (backupCredentials : option Credentials) : M unit :=
  do attempt (accounts_do (mockAccountRepository.Save account)) then
  RemoveAccountService_rollbackCredentials ctx backupCredentials.

Definition RemoveAccountService_updateHistory (ctx : Context) : M unit :=
  let* loaded := attempt (reading historyRepo mockHistoryRepository.LoadHistory) in
  match loaded with
  | Ok currentHistory =>
      do attempt (history_do (mockHistoryRepository.SaveHistory currentHistory)) then ret tt
  | Err _ => ret tt
  end.

Definition RemoveAccountService_performRemoval (ctx : Context) (account : Account)
    (metadata : removalMetadata) : M unit :=
  do wrapping "failed to delete credentials: "
    (credentials_do (mockCredentialStore.Delete (Account_ID account))) then
  let* deleted := attempt (accounts_do (mockAccountRepository.Delete (Account_ID account))) in
  match deleted with
  | Err err =>
      do RemoveAccountService_rollbackCredentials ctx (backupCredentials metadata) then
      fail (Wrap "failed to delete account: " err)
  | Ok _ =>
      if isCurrentAccount metadata then
        let* cleared := attempt (config_do (mockConfigManager.SetCurrentAccount None)) in
        match cleared with
        | Err err =>
            do RemoveAccountService_rollbackFull ctx account (backupCredentials metadata) then
            fail (Wrap "failed to clear current account configuration: " err)
        | Ok _ => RemoveAccountService_updateHistory ctx
        end
      else ret tt
  end.

Definition RemoveAccountService_Execute (ctx : Context) (input : RemoveAccountInput)
  : M RemoveAccountResult :=
  do RemoveAccountService_validateInput ctx input then
  let accountID := RemoveAccountInput_AccountID input in
  let* account := wrapping "failed to find account: "
    (reading accountRepo (mockAccountRepository.FindByID accountID)) in
  let* metadata := RemoveAccountService_getRemovalMetadata ctx account in
  do RemoveAccountService_performRemoval ctx account metadata then
  ret {| RemovedAccount := accountInfo metadata;
         WasCurrentAccount := isCurrentAccount metadata;
         WasLastAccount := isLastAccount metadata |}.
End RemoveAccountService.

Section ListAccountsService.

Definition ListAccountsService_Execute (ctx : Context) : M (list AccountInfo) :=
  match Context_Err ctx with
  | Some err => fail (Wrap "context cancelled: " err)
  | None =>
      let* accounts := wrapping "failed to list accounts: "
        (reading accountRepo mockAccountRepository.List) in
      ret (map accountToInfo accounts)
  end.
End ListAccountsService.

(** ** Specification vocabulary *)

(** A sequence of insertions into a ledger, oldest first. *)
Definition add_all (es : list SwitchEntry) (h : History) : History :=
  fold_left (fun h e => History_AddEntry (Some e) h) es h.

(** The invariant of a ledger: a positive capacity that is respected. *)
Definition History_bounded (h : History) : Prop :=
  0 < History_MaxEntries h /\
  Z.of_nat (length (History_Entries h)) <= History_MaxEntries h.

(** The errors with which [findByIndex] rejects a position. *)
Definition IndexOutOfRange (e : error) : Prop :=
  exists index len, e = errInvalidIndex index \/ e = errIndexOutOfRange index len.

(** The records of a credential store are filed under their own account
    ID, as [Store] files them. *)
Definition filed_by_id (m : mockCredentialStore.t) : Prop :=
  map_Forall (fun id creds => Credentials_AccountID creds = id)
    (mockCredentialStore.credentials m).

(** The target differs from the current account, or there is none. *)
Definition another_account (currentAccount : option Account) (target : Account) : Prop :=
  match currentAccount with
  | Some current => Account_ID current <> Account_ID target
  | None => True
  end.

(** The input of a switch by position, and nothing else. *)
Definition by_position (index : Z) : SwitchAccountInput :=
  {| SwitchAccountInput_AccountID := "";
     SwitchAccountInput_Email := "";
     SwitchAccountInput_Alias := "";
     SwitchAccountInput_Index := index;
     SwitchAccountInput_Previous := false |}.

(** The ledger that [saveToHistory] makes when it cannot load one. *)
Definition fresh_ledger (entry : SwitchEntry) : History :=
  {| entries := [entry]; History_MaxEntries := 50 |}.

(** The language of a regular expression. *)
Inductive lang : regex -> string -> Prop :=
| lang_Eps : lang Eps ""
| lang_Cls (p : ascii -> bool) (c : ascii) : p c = true -> lang (Cls p) (String c "")
| lang_Cat (r s : regex) (u v : string) :
    lang r u -> lang s v -> lang (Cat r s) (u +:+ v)
| lang_Alt_l (r s : regex) (u : string) : lang r u -> lang (Alt r s) u
| lang_Alt_r (r s : regex) (u : string) : lang s u -> lang (Alt r s) u
| lang_Star_nil (r : regex) : lang (Star r) ""
| lang_Star_cons (r : regex) (u v : string) :
    lang r u -> lang (Star r) v -> lang (Star r) (u +:+ v).

(** Every character of [s] satisfies [p]. *)
Definition all_chars (p : ascii -> bool) (s : string) : bool :=
  forallb p (list_ascii_of_string s).

(** The character classes of the two patterns. *)
Definition local_char (c : ascii) : bool := is_alnum c || one_of "._%+-" c.
Definition domain_char (c : ascii) : bool := is_alnum c || one_of ".-" c.
Definition alias_char (c : ascii) : bool := is_alnum c || one_of "_-" c.

(** What can be done to a ledger. *)
Inductive HistoryOp : Type :=
| OpAddEntry (entry : option SwitchEntry)
| OpClear.

Definition apply_op (h : History) (op : HistoryOp) : History :=
  match op with
  | OpAddEntry entry => History_AddEntry entry h
  | OpClear => History_Clear h
  end.

Definition apply_ops (ops : list HistoryOp) (h : History) : History :=
  fold_left apply_op ops h.


(** The number of ways an input names the target (the previous flag
    apart), and the error of an input that does not name it in exactly one
    way. *)
Definition selector_count (input : SwitchAccountInput) : Z :=
  (if nonempty (SwitchAccountInput_AccountID input) then 1 else 0) +
  (if nonempty (SwitchAccountInput_Email input) then 1 else 0) +
  (if nonempty (SwitchAccountInput_Alias input) then 1 else 0) +
  (if SwitchAccountInput_Index input >? 0 then 1 else 0).

Definition selector_error (input : SwitchAccountInput) : option error :=
  if SwitchAccountInput_Previous input then
    if 0 <? selector_count input
    then Some (New "previous flag cannot be combined with other input methods")
    else None
  else if selector_count input =? 0 then Some (New "no account identifier provided")
  else if 1 <? selector_count input
       then Some (New "multiple account identifiers provided; use only one")
       else None.

(** The switch back: only the previous flag. *)
Definition to_previous : SwitchAccountInput :=
  {| SwitchAccountInput_AccountID := "";
     SwitchAccountInput_Email := "";
     SwitchAccountInput_Alias := "";
     SwitchAccountInput_Index := 0;
     SwitchAccountInput_Previous := true |}.

(** The three ways a switch can end. *)
Inductive switch_outcome (w : World) : result SwitchAccountResult * World -> Prop :=
| switch_failed (e : error) : switch_outcome w (Err e, w)
| switch_noop (current : Account) :
    mockConfigManager.currentAccount (configManager w) = Some current ->
    switch_outcome w
      (Ok {| SwitchAccountResult_From := Some (accountToInfo current);
             SwitchAccountResult_To := accountToInfo current |}, w)
| switch_done (target : Account) (from : option AccountInfo)
    (g : mockConfigManager.t) (h : mockHistoryRepository.t) :
    mockConfigManager.setErr (configManager w) = None ->
    is_Ok (mockCredentialStore.Retrieve (Account_ID target) (credentialStore w)) = true ->
    from = option_map accountToInfo (mockConfigManager.currentAccount (configManager w)) ->
    g = {| mockConfigManager.currentAccount := Some target;
           mockConfigManager.getErr := mockConfigManager.getErr (configManager w);
           mockConfigManager.setErr := mockConfigManager.setErr (configManager w) |} ->
    (mockConfigManager.currentAccount (configManager w) = None -> h = historyRepo w) ->
    switch_outcome w
      (Ok {| SwitchAccountResult_From := from;
             SwitchAccountResult_To := accountToInfo target |},
       {| accountRepo := accountRepo w;
          credentialStore := credentialStore w;
          configManager := g;
          historyRepo := h |}).

(** The shape of the strings of the email pattern. *)
Definition email_shape (email : string) : Prop :=
  exists localPart domain tld,
    email = localPart +:+ "@" +:+ domain +:+ "." +:+ tld /\
    localPart <> "" /\ all_chars local_char localPart = true /\
    domain <> "" /\ all_chars domain_char domain = true /\
    (2 <= String.length tld)%nat /\ all_chars is_alpha tld = true.

(** The account is the one Config names as current (by ID). *)
Definition is_current (w : World) (account : Account) : bool :=
  match mockConfigManager.GetCurrentAccount (configManager w) with
  | Ok (Some currentAccount) => String.eqb (Account_ID currentAccount) (Account_ID account)
  | _ => false
  end.

(** The world after the two deletions. *)
Definition both_deleted (w : World) (id : AccountID) : World :=
  {| accountRepo :=
       mockAccountRepository.with_accounts (accountRepo w)
         (delete id (mockAccountRepository.accounts (accountRepo w)));
     credentialStore :=
       mockCredentialStore.with_credentials (credentialStore w)
         (delete id (mockCredentialStore.credentials (credentialStore w)));
     configManager := configManager w;
     historyRepo := historyRepo w |}.

(** What a removal leaves alone. *)
Definition removal_frame (w w' : World) (account : Account) (id : AccountID) : Prop :=
  mockHistoryRepository.history (historyRepo w') =
    mockHistoryRepository.history (historyRepo w) /\
  (mockConfigManager.currentAccount (configManager w') =
     mockConfigManager.currentAccount (configManager w) \/
   mockConfigManager.currentAccount (configManager w') = None) /\
  (id <> Account_ID account ->
   mockAccountRepository.accounts (accountRepo w') !! id =
     mockAccountRepository.accounts (accountRepo w) !! id /\
   mockCredentialStore.credentials (credentialStore w') !! id =
     mockCredentialStore.credentials (credentialStore w) !! id).

(** ** A library instance and stores to evaluate on

    Not AES-GCM: a stand-in with the shape of an AEAD (a 12-byte nonce, a
    16-byte tag that [Open] checks) that satisfies the laws above, so that
    the use cases can be run on concrete stores. *)

#[global] Instance byte_eq_dec : EqDecision byte := Byte.byte_eq_dec.

Module ToyCrypto.
Definition tag (key : list byte) : list byte := firstn 16 (key ++ repeat x00 16).

Definition toy_Seal (gcm dst nonce plaintext ad : list byte) : list byte :=
  dst ++ rev plaintext ++ tag gcm.

Definition toy_Open (gcm dst nonce ciphertext ad : list byte) : result (list byte) :=
  let n := (length ciphertext - 16)%nat in
  if (length ciphertext <? 16)%nat then Err (New "cipher: message authentication failed")
  else if bool_decide (skipn n ciphertext = tag gcm)
       then Ok (dst ++ rev (firstn n ciphertext))
       else Err (New "cipher: message authentication failed").

Definition toy_NewCipher (key : list byte) : result (list byte) :=
  if (length key =? 16)%nat || (length key =? 24)%nat || (length key =? 32)%nat
  then Ok key
  else Err (New "crypto/aes: invalid key size").

#[export] Instance lib : CryptoLib := {|
  Block := list byte;
  AEAD := list byte;
  sha256_Sum256 := fun data => firstn 32 (data ++ repeat x00 32);
  aes_NewCipher := toy_NewCipher;
  cipher_NewGCM := fun block => Ok block;
  NonceSize := fun _ => 12%nat;
  Seal := toy_Seal;
  Open := toy_Open
|}.
End ToyCrypto.

(** The stores of [setupSwitchAccountTest] and [setupRemoveAccountTest]:
    three accounts with their credentials, the first one current, an empty
    ledger of capacity 10. *)
Module Fixture.
Import ToyCrypto.

Definition env (b : byte) : Env :=
  {| time_Now := 1700000000;
     today := "20231114";
     rand_id := Some (fun _ => b);
     rand_nonce := Some (fun i => default x00 (Byte.of_nat (i + 1))) |}.

Definition account (b : byte) (email alias uuid : string) : Account :=
  {| Account_ID := GenerateAccountID (env b);
     Account_Email := email;
     Account_Alias := alias;
     Account_UUID := uuid;
     Account_CreatedAt := time_Now (env b);
     Account_LastUsed := time_Now (env b) |}.

Definition personal : Account := account x01 "personal@example.com" "personal" "uuid-personal".
Definition work : Account := account x02 "work@example.com" "work" "uuid-work".
Definition test : Account := account x03 "test@example.com" "test" "uuid-test".

Definition sessionKey (a : Account) : list byte :=
  list_byte_of_string
    ("{" +:+ quote +:+ "sessionKey" +:+ quote +:+ ": " +:+ quote +:+ "key-" +:+
     Account_Alias a +:+ quote +:+ "}").

Definition newAccountRepository : mockAccountRepository.t :=
  {| mockAccountRepository.accounts := ∅;
     mockAccountRepository.saveErr := None;
     mockAccountRepository.findErr := None;
     mockAccountRepository.deleteErr := None |}.

Definition newCredentialStore : mockCredentialStore.t :=
  {| mockCredentialStore.credentials := ∅;
     mockCredentialStore.storeErr := None;
     mockCredentialStore.retrieveErr := None;
     mockCredentialStore.deleteErr := None |}.

Definition newConfigManager : mockConfigManager.t :=
  {| mockConfigManager.currentAccount := None;
     mockConfigManager.getErr := None;
     mockConfigManager.setErr := None |}.

Definition newHistoryRepository : mockHistoryRepository.t :=
  {| mockHistoryRepository.history := NewHistory 10;
     mockHistoryRepository.saveErr := None;
     mockHistoryRepository.loadErr := None;
     mockHistoryRepository.saveCalls := 0 |}.

(** [setupTest]: nothing stored, no current account. *)
Definition empty : World :=
  {| accountRepo := newAccountRepository;
     credentialStore := newCredentialStore;
     configManager := newConfigManager;
     historyRepo := newHistoryRepository |}.

Definition storeCredentials (a : Account) (m : mockCredentialStore.t) : mockCredentialStore.t :=
  match NewCredentials (env x00) (Account_ID a) (sessionKey a) with
  | Ok creds => (mockCredentialStore.Store creds m).2
  | Err _ => m
  end.

Definition populated : World :=
  {| accountRepo :=
       foldr (fun a m => (mockAccountRepository.Save a m).2) newAccountRepository
         [test; work; personal];
     credentialStore := foldr storeCredentials newCredentialStore [test; work; personal];
     configManager :=
       {| mockConfigManager.currentAccount := Some personal;
          mockConfigManager.getErr := None;
          mockConfigManager.setErr := None |};
     historyRepo := newHistoryRepository |}.

(** Failure injection, as the tests set the error fields. *)
Definition failing_save (e : error) (w : World) : World :=
  {| accountRepo :=
       {| mockAccountRepository.accounts := mockAccountRepository.accounts (accountRepo w);
          mockAccountRepository.saveErr := Some e;
          mockAccountRepository.findErr := mockAccountRepository.findErr (accountRepo w);
          mockAccountRepository.deleteErr := mockAccountRepository.deleteErr (accountRepo w) |};
     credentialStore := credentialStore w;
     configManager := configManager w;
     historyRepo := historyRepo w |}.

Definition failing_find (e : error) (w : World) : World :=
  {| accountRepo :=
       {| mockAccountRepository.accounts := mockAccountRepository.accounts (accountRepo w);
          mockAccountRepository.saveErr := mockAccountRepository.saveErr (accountRepo w);
          mockAccountRepository.findErr := Some e;
          mockAccountRepository.deleteErr := mockAccountRepository.deleteErr (accountRepo w) |};
     credentialStore := credentialStore w;
     configManager := configManager w;
     historyRepo := historyRepo w |}.

Definition failing_account_delete (e : error) (w : World) : World :=
  {| accountRepo :=
       {| mockAccountRepository.accounts := mockAccountRepository.accounts (accountRepo w);
          mockAccountRepository.saveErr := mockAccountRepository.saveErr (accountRepo w);
          mockAccountRepository.findErr := mockAccountRepository.findErr (accountRepo w);
          mockAccountRepository.deleteErr := Some e |};
     credentialStore := credentialStore w;
     configManager := configManager w;
     historyRepo := historyRepo w |}.

Definition failing_credentials (store retrieve delete : option error) (w : World) : World :=
  {| accountRepo := accountRepo w;
     credentialStore :=
       {| mockCredentialStore.credentials := mockCredentialStore.credentials (credentialStore w);
          mockCredentialStore.storeErr := store;
          mockCredentialStore.retrieveErr := retrieve;
          mockCredentialStore.deleteErr := delete |};
     configManager := configManager w;
     historyRepo := historyRepo w |}.

Definition failing_set (e : error) (w : World) : World :=
  {| accountRepo := accountRepo w;
     credentialStore := credentialStore w;
     configManager :=
       {| mockConfigManager.currentAccount := mockConfigManager.currentAccount (configManager w);
          mockConfigManager.getErr := mockConfigManager.getErr (configManager w);
          mockConfigManager.setErr := Some e |};
     historyRepo := historyRepo w |}.

Definition failing_load (e : error) (w : World) : World :=
  {| accountRepo := accountRepo w;
     credentialStore := credentialStore w;
     configManager := configManager w;
     historyRepo :=
       {| mockHistoryRepository.history := mockHistoryRepository.history (historyRepo w);
          mockHistoryRepository.saveErr := mockHistoryRepository.saveErr (historyRepo w);
          mockHistoryRepository.loadErr := Some e;
          mockHistoryRepository.saveCalls := mockHistoryRepository.saveCalls (historyRepo w) |} |}.

Definition disk_full : error := New "disk full".
Definition keychain_locked : error := New "keychain locked".
Definition database_locked : error := New "database locked".
Definition config_locked : error := New "config file locked".
Definition history_corrupted : error := New "history file corrupted".

Definition by_alias (alias : string) : SwitchAccountInput :=
  {| SwitchAccountInput_AccountID := ""; SwitchAccountInput_Email := "";
     SwitchAccountInput_Alias := alias; SwitchAccountInput_Index := 0;
     SwitchAccountInput_Previous := false |}.

Definition remove_work : RemoveAccountInput :=
  {| RemoveAccountInput_AccountID := Account_ID work |}.

Definition personal_to_work : SwitchEntry :=
  {| SwitchEntry_From := "personal@example.com";
     SwitchEntry_To := "work@example.com";
     SwitchEntry_Timestamp := 1700000000 |}.

Definition explicit : AddAccountInput :=
  {| AddAccountInput_Email := "a@example.com";
     AddAccountInput_Alias := "";
     AddAccountInput_Credentials := [x01; x02] |}.
End Fixture.
(** * Properties *)

(** ** The switch history ledger *)

Lemma History_AddEntry_nil (h : History) : History_AddEntry None h = h.
Proof. reflexivity. Qed.

Lemma History_AddEntry_MaxEntries (entry : option SwitchEntry) (h : History) :
  History_MaxEntries (History_AddEntry entry h) = History_MaxEntries h.
Proof. destruct entry; reflexivity. Qed.

Lemma History_AddEntry_entries (e : SwitchEntry) (h : History) :
  0 < History_MaxEntries h ->
  entries (History_AddEntry (Some e) h) =
  firstn (Z.to_nat (History_MaxEntries h)) (e :: entries h).
Proof.
  intros Hmax. unfold History_AddEntry. cbn [entries].
  destruct (Z.gtb_spec (Z.of_nat (length (e :: entries h))) (History_MaxEntries h)) as [Hgt|Hle].
  - reflexivity.
  - symmetry. apply firstn_all2. lia.
Qed.

Lemma take_app_take {A} (n : nat) (a b : list A) :
  firstn n (a ++ firstn n b) = firstn n (a ++ b).
Proof.
  rewrite !take_app, take_take. f_equal. f_equal. lia.
Qed.

Lemma NewHistory_bounded (maxEntries : Z) : History_bounded (NewHistory maxEntries).
Proof.
  unfold History_bounded, NewHistory. cbn.
  destruct (Z.leb_spec maxEntries 0); lia.
Qed.

Lemma History_AddEntry_bounded (entry : option SwitchEntry) (h : History) :
  History_bounded h -> History_bounded (History_AddEntry entry h).
Proof.
  intros [Hpos Hlen]. destruct entry as [e|]; [|split; assumption].
  split; [rewrite History_AddEntry_MaxEntries; exact Hpos|].
  unfold History_Entries. rewrite History_AddEntry_entries by exact Hpos.
  rewrite History_AddEntry_MaxEntries, length_take. lia.
Qed.

Lemma History_Clear_bounded (h : History) :
  History_bounded h -> History_bounded (History_Clear h).
Proof. intros [Hpos _]. split; cbn; lia. Qed.

Lemma add_all_spec (es : list SwitchEntry) : forall h : History,
  History_bounded h ->
  History_MaxEntries (add_all es h) = History_MaxEntries h /\
  entries (add_all es h) =
  firstn (Z.to_nat (History_MaxEntries h)) (rev es ++ entries h).
Proof.
  induction es as [|e es IH]; intros h Hb.
  - cbn. split; [reflexivity|].
    destruct Hb as [_ Hlen]. unfold History_Entries in Hlen.
    symmetry. apply firstn_all2. lia.
  - cbn [add_all fold_left].
    destruct (IH (History_AddEntry (Some e) h)) as [IHmax IHent].
    { apply History_AddEntry_bounded, Hb. }
    fold (add_all es (History_AddEntry (Some e) h)).
    rewrite IHmax, IHent, !History_AddEntry_MaxEntries.
    split; [reflexivity|].
    rewrite History_AddEntry_entries by apply Hb.
    rewrite take_app_take. cbn [rev]. rewrite <- app_assoc. reflexivity.
Qed.

(** C6. Whatever capacity a ledger is created with and whatever entries are
    then added to it, it never holds more entries than its capacity, and it
    holds the most recent ones, newest first: the reversed sequence of
    insertions cut at the capacity.  Its length is therefore the smaller
    of the number of insertions and the capacity, which is the capacity
    once more entries than that were added. *)
Theorem History_bound (maxEntries : Z) (es : list SwitchEntry) :
  let h := add_all es (NewHistory maxEntries) in
  History_MaxEntries h = (if maxEntries <=? 0 then 10 else maxEntries) /\
  Z.of_nat (length (History_Entries h)) <= History_MaxEntries h /\
  History_Entries h = firstn (Z.to_nat (History_MaxEntries h)) (rev es) /\
  Z.of_nat (length (History_Entries h)) =
    Z.min (Z.of_nat (length es)) (History_MaxEntries h).
Proof.
  intros h.
  destruct (add_all_spec es (NewHistory maxEntries) (NewHistory_bounded maxEntries))
    as [Hmax Hent].
  fold h in Hmax, Hent. cbn [entries NewHistory History_MaxEntries] in Hmax, Hent.
  rewrite app_nil_r in Hent.
  assert (Hpos : 0 < History_MaxEntries h).
  { rewrite Hmax. destruct (Z.leb_spec maxEntries 0); lia. }
  unfold History_Entries. rewrite <- Hmax in Hent.
  assert (Hlen : Z.of_nat (length (entries h)) =
                 Z.min (Z.of_nat (length es)) (History_MaxEntries h)).
  { rewrite Hent at 1. rewrite length_take, length_rev. lia. }
  repeat split; [exact Hmax | lia | exact Hent | exact Hlen].
Qed.

Example History_bound_three :
  forall a b c d : SwitchEntry,
    History_Entries (add_all [a; b; c; d] (NewHistory 3)) = [d; c; b].
Proof. reflexivity. Qed.

(** ** The credential vault *)

Section Vault.
Context {C : CryptoLib} {L : CryptoLaws C}.

Lemma read_bytes_length (src : nat -> byte) (n : nat) (bs : list byte) :
  read_bytes (Some src) n = Ok bs -> length bs = n.
Proof.
  intros H. injection H as <-. rewrite length_map. apply length_seq.
Qed.

(** What [encrypt] writes, [decrypt] reads back, under any key the
    cipher accepts. *)
Lemma decrypt_encrypt (env : Env) (plaintext key sealed : list byte) :
  encrypt env plaintext key = Ok sealed ->
  decrypt sealed key = Ok plaintext.
Proof.
  unfold encrypt, decrypt.
  destruct (aes_NewCipher key) as [block|]; [|discriminate].
  destruct (cipher_NewGCM block) as [gcm|]; [|discriminate].
  destruct (rand_nonce env) as [src|]; [|discriminate].
  cbn [read_bytes]. intros H. injection H as <-.
  set (nonce := map src (seq 0 (NonceSize gcm))).
  assert (Hlen : length nonce = NonceSize gcm).
  { unfold nonce. rewrite length_map. apply length_seq. }
  rewrite Seal_appends.
  rewrite length_app, Hlen.
  replace (NonceSize gcm + _ <? NonceSize gcm)%nat with false
    by (symmetry; apply Nat.ltb_ge; lia).
  rewrite <- Hlen at 1 2.
  rewrite take_app_length, drop_app_length.
  apply Open_Seal, Hlen.
Qed.

Lemma encrypt_derived_key (env : Env) (src : nat -> byte) (id : AccountID)
    (plaintext : list byte) :
  rand_nonce env = Some src ->
  exists sealed, encrypt env plaintext (deriveKey id) = Ok sealed.
Proof.
  intros Hsrc. unfold encrypt, deriveKey.
  destruct (digest_is_key (list_byte_of_string ("ccx-encryption-" +:+ id)))
    as (block & gcm & -> & ->).
  rewrite Hsrc. cbn [read_bytes]. eexists. reflexivity.
Qed.
End Vault.

(** C5. With a working random source, creating credentials for a non-empty
    account ID and a non-empty payload succeeds, and decrypting what was
    created gives back exactly the payload.  The primitives are those of
    Go's crypto packages, taken with their documented behaviour. *)
Theorem seal_open_roundtrip {C : CryptoLib} (L : CryptoLaws C)
    (env : Env) (id : AccountID) (p : list byte) :
  id <> "" ->
  p <> [] ->
  rand_nonce env <> None ->
  exists creds,
    NewCredentials env id p = Ok creds /\
    Credentials_AccountID creds = id /\
    Credentials_Decrypt creds = Ok p.
Proof.
  intros Hid Hp Hsrc.
  destruct (rand_nonce env) as [src|] eqn:Esrc; [clear Hsrc|congruence].
  destruct (encrypt_derived_key env src id p Esrc) as [sealed Hsealed].
  unfold NewCredentials.
  destruct (String.eqb_spec id ""); [contradiction|].
  destruct p as [|b p]; [contradiction|]. cbn [length Nat.eqb].
  rewrite Hsealed. eexists. split; [reflexivity|]. split; [reflexivity|].
  unfold Credentials_Decrypt. cbn [encryptedData encryptionKey].
  eapply decrypt_encrypt, Hsealed.
Qed.

Lemma ToyCrypto_tag_length (key : list byte) : length (ToyCrypto.tag key) = 16%nat.
Proof.
  unfold ToyCrypto.tag. rewrite length_take, length_app, repeat_length. lia.
Qed.

(** The stand-in satisfies the laws. *)
Lemma ToyCrypto_laws : CryptoLaws ToyCrypto.lib.
Proof.
  split.
  - intros data.
    exists (@sha256_Sum256 ToyCrypto.lib data), (@sha256_Sum256 ToyCrypto.lib data).
    split; [|reflexivity].
    cbn [aes_NewCipher sha256_Sum256 ToyCrypto.lib]. unfold ToyCrypto.toy_NewCipher.
    replace (length (firstn 32 (data ++ repeat x00 32))) with 32%nat
      by (rewrite length_take, length_app, repeat_length; lia).
    reflexivity.
  - intros gcm dst nonce plaintext ad. reflexivity.
  - intros gcm nonce plaintext ad _.
    cbn [Open Seal ToyCrypto.lib]. unfold ToyCrypto.toy_Open, ToyCrypto.toy_Seal.
    cbn [app].
    rewrite length_app, length_rev, ToyCrypto_tag_length.
    replace (length plaintext + 16 <? 16)%nat with false
      by (symmetry; apply Nat.ltb_ge; lia).
    replace (length plaintext + 16 - 16)%nat with (length (rev plaintext))
      by (rewrite length_rev; lia).
    rewrite drop_app_length, take_app_length, bool_decide_eq_true_2 by reflexivity.
    rewrite rev_involutive. reflexivity.
Qed.

(** The round trip at an 8-character ID and a two-byte payload. *)
Lemma seal_open_roundtrip_witness :
  exists creds,
    NewCredentials (C := ToyCrypto.lib) (Fixture.env x01) "01010101" [x68; x69] = Ok creds /\
    Credentials_AccountID creds = "01010101" /\
    Credentials_Decrypt (C := ToyCrypto.lib) creds = Ok [x68; x69].
Proof.
  apply (seal_open_roundtrip ToyCrypto_laws (Fixture.env x01) "01010101" [x68; x69]).
  - discriminate.
  - discriminate.
  - discriminate.
Defined.

(** ** Running the use cases: Add *)

Ltac run :=
  unfold bind, wrapping, attempt, reading, ret, fail,
    accounts_do, credentials_do, config_do, history_do in *.

Lemma determineAccountDetails_readonly (ctx : Context) (input : AddAccountInput) (w : World) :
  (AddAccountService_determineAccountDetails ctx input w).2 = w.
Proof.
  unfold AddAccountService_determineAccountDetails. run.
  destruct (String.eqb _ _); cbn.
  - destruct (mockConfigManager.GetCurrentAccount _) as [[a|]|]; reflexivity.
  - destruct (_ =? _)%nat; reflexivity.
Qed.

Lemma checkAccountExists_eq (ctx : Context) (email : string) (w : World) :
  AddAccountService_checkAccountExists ctx email w =
  match mockAccountRepository.FindByEmail email (accountRepo w) with
  | Ok _ => (Err (errAlreadyExists email), w)
  | Err _ => (Ok tt, w)
  end.
Proof.
  unfold AddAccountService_checkAccountExists. run.
  destruct (mockAccountRepository.FindByEmail email (accountRepo w)); reflexivity.
Qed.

(** Add, step by step: resolve the details, check for a duplicate, create
    and save. *)
Lemma AddAccountService_Execute_eq {C : CryptoLib} (env : Env) (ctx : Context)
    (input : AddAccountInput) (w : World) :
  AddAccountService_Execute env ctx input w =
  match AddAccountService_determineAccountDetails ctx input w with
  | (Err e, _) => (Err e, w)
  | (Ok (email, uuid, credentialData), _) =>
      match mockAccountRepository.FindByEmail email (accountRepo w) with
      | Ok _ => (Err (errAlreadyExists email), w)
      | Err _ =>
          AddAccountService_createAndSaveAccount env ctx email
            (AddAccountService_generateAlias (AddAccountInput_Alias input) email)
            uuid credentialData w
      end
  end.
Proof.
  unfold AddAccountService_Execute. unfold bind at 1.
  pose proof (determineAccountDetails_readonly ctx input w) as Hro.
  destruct (AddAccountService_determineAccountDetails ctx input w)
    as [[[[email uuid] data]|e] w']; cbn in Hro; subst w'.
  - unfold bind at 1. rewrite checkAccountExists_eq.
    destruct (mockAccountRepository.FindByEmail email (accountRepo w)); reflexivity.
  - reflexivity.
Qed.

(** C10. The duplicate check of Add fails, with the duplicate-account
    error, exactly when the lookup by email returns an account; when the
    lookup returns an error, whatever it is (a repository that cannot be
    read included), the check passes, and Add goes on to create and save
    the account.  The check writes nothing. *)
Theorem duplicate_check_ignores_lookup_errors {C : CryptoLib}
    (env : Env) (ctx : Context) (input : AddAccountInput) (w : World) (email : string) :
  AddAccountService_checkAccountExists ctx email w =
    match mockAccountRepository.FindByEmail email (accountRepo w) with
    | Ok _ => (Err (errAlreadyExists email), w)
    | Err _ => (Ok tt, w)
    end /\
  match mockAccountRepository.findErr (accountRepo w) with
  | Some _ => AddAccountService_checkAccountExists ctx email w = (Ok tt, w)
  | None => True
  end /\
  AddAccountService_Execute env ctx input w =
    match AddAccountService_determineAccountDetails ctx input w with
    | (Err e, _) => (Err e, w)
    | (Ok (email, uuid, credentialData), _) =>
        match mockAccountRepository.FindByEmail email (accountRepo w) with
        | Ok _ => (Err (errAlreadyExists email), w)
        | Err _ =>
            AddAccountService_createAndSaveAccount env ctx email
              (AddAccountService_generateAlias (AddAccountInput_Alias input) email)
              uuid credentialData w
        end
    end.
Proof.
  split; [apply checkAccountExists_eq|]. split.
  - rewrite checkAccountExists_eq. unfold mockAccountRepository.FindByEmail.
    destruct (mockAccountRepository.findErr (accountRepo w)); [reflexivity|exact I].
  - apply AddAccountService_Execute_eq.
Qed.

Lemma NewCredentials_AccountID {C : CryptoLib} (env : Env) (id : AccountID)
    (data : list byte) (creds : Credentials) :
  NewCredentials env id data = Ok creds -> Credentials_AccountID creds = id.
Proof.
  unfold NewCredentials.
  destruct (String.eqb id ""); [discriminate|].
  destruct (_ =? _)%nat; [discriminate|].
  destruct (encrypt env data (deriveKey id)); [|discriminate].
  intros H. injection H as <-. reflexivity.
Qed.

(** The saving step of Add when the account cannot be saved: the
    credentials go in, the compensating [Delete] is called, and its own
    outcome is dropped. *)
Lemma createAndSaveAccount_save_failed {C : CryptoLib} (env : Env) (ctx : Context)
    (email alias uuid : string) (data : list byte) (w : World)
    (account : Account) (creds : Credentials) (e : error) :
  NewAccount env email alias uuid = Ok account ->
  NewCredentials env (Account_ID account) data = Ok creds ->
  mockCredentialStore.storeErr (credentialStore w) = None ->
  mockAccountRepository.saveErr (accountRepo w) = Some e ->
  AddAccountService_createAndSaveAccount env ctx email alias uuid data w =
  (Err (Wrap "failed to save account: " e),
   {| accountRepo := accountRepo w;
      credentialStore :=
        (mockCredentialStore.Delete (Account_ID account)
           (mockCredentialStore.Store creds (credentialStore w)).2).2;
      configManager := configManager w;
      historyRepo := historyRepo w |}).
Proof.
  intros Haccount Hcreds Hstore Hsave.
  unfold AddAccountService_createAndSaveAccount. rewrite Haccount, Hcreds.
  unfold bind at 1, wrapping at 1, credentials_do at 1, mockCredentialStore.Store.
  rewrite Hstore.
  unfold bind at 1, attempt at 1, accounts_do at 1, mockAccountRepository.Save.
  cbn [accountRepo]. rewrite Hsave.
  unfold bind at 1, attempt at 1, credentials_do at 1.
  cbn [credentialStore accountRepo configManager historyRepo].
  destruct (mockCredentialStore.Delete _ _) as [r s]. destruct w; reflexivity.
Qed.

(** C1, as the code has it.  An Add that stores the credentials and then
    fails to save the account returns the save error, with the account
    repository, Config and the history as they were.  Before returning it
    calls [Delete] for the new account's ID and ignores how that call
    ends: if the delete goes through, the credential store holds nothing
    under that ID; if the delete fails, the record just stored stays. *)
Theorem add_save_failure_compensates {C : CryptoLib} (env : Env) (ctx : Context)
    (input : AddAccountInput) (w : World) (email uuid : string) (data : list byte)
    (account : Account) (creds : Credentials) (e : error) :
  (AddAccountService_determineAccountDetails ctx input w).1 = Ok (email, uuid, data) ->
  is_Err (mockAccountRepository.FindByEmail email (accountRepo w)) = true ->
  NewAccount env email
    (AddAccountService_generateAlias (AddAccountInput_Alias input) email) uuid = Ok account ->
  NewCredentials env (Account_ID account) data = Ok creds ->
  mockCredentialStore.storeErr (credentialStore w) = None ->
  mockAccountRepository.saveErr (accountRepo w) = Some e ->
  exists w',
    AddAccountService_Execute env ctx input w = (Err (Wrap "failed to save account: " e), w') /\
    accountRepo w' = accountRepo w /\
    configManager w' = configManager w /\
    historyRepo w' = historyRepo w /\
    mockCredentialStore.credentials (credentialStore w') =
      match mockCredentialStore.deleteErr (credentialStore w) with
      | None => delete (Account_ID account) (mockCredentialStore.credentials (credentialStore w))
      | Some _ =>
          <[Account_ID account := creds]> (mockCredentialStore.credentials (credentialStore w))
      end /\
    mockCredentialStore.credentials (credentialStore w') !! Account_ID account =
      match mockCredentialStore.deleteErr (credentialStore w) with
      | None => None
      | Some _ => Some creds
      end.
Proof.
  intros Hdetails Hfresh Haccount Hcreds Hstore Hsave.
  rewrite AddAccountService_Execute_eq.
  destruct (AddAccountService_determineAccountDetails ctx input w) as [r w0].
  cbn in Hdetails. subst r.
  destruct (mockAccountRepository.FindByEmail email (accountRepo w)); [discriminate|].
  rewrite (createAndSaveAccount_save_failed env ctx _ _ _ _ w account creds e
             Haccount Hcreds Hstore Hsave).
  eexists. split; [reflexivity|].
  cbn [accountRepo configManager historyRepo credentialStore].
  repeat (split; [reflexivity|]).
  unfold mockCredentialStore.Store, mockCredentialStore.Delete. rewrite Hstore.
  cbn [snd mockCredentialStore.deleteErr mockCredentialStore.with_credentials
       mockCredentialStore.credentials].
  rewrite (NewCredentials_AccountID env _ data creds Hcreds).
  destruct (mockCredentialStore.deleteErr (credentialStore w));
    cbn [snd mockCredentialStore.with_credentials mockCredentialStore.credentials].
  - split; [reflexivity|apply lookup_insert_eq].
  - rewrite delete_insert_eq. split; [reflexivity|apply lookup_delete_eq].
Qed.

(** ** Switch *)

Lemma getPreviousAccount_readonly (ctx : Context) (w : World) :
  (SwitchAccountService_getPreviousAccount ctx w).2 = w.
Proof.
  unfold SwitchAccountService_getPreviousAccount. run.
  destruct (mockHistoryRepository.LoadHistory _) as [h|]; [|reflexivity].
  destruct (History_GetLastSwitch h); reflexivity.
Qed.

Lemma findByIndex_readonly (ctx : Context) (index : Z) (w : World) :
  (SwitchAccountService_findByIndex ctx index w).2 = w.
Proof.
  unfold SwitchAccountService_findByIndex. run.
  destruct (index <=? 0); [reflexivity|].
  destruct (mockAccountRepository.List _) as [l|]; [|reflexivity].
  destruct (index >? _); [reflexivity|].
  destruct (nth_error _ _); reflexivity.
Qed.

Lemma determineTargetAccount_readonly (ctx : Context) (input : SwitchAccountInput) (w : World) :
  (SwitchAccountService_determineTargetAccount ctx input w).2 = w.
Proof.
  unfold SwitchAccountService_determineTargetAccount.
  repeat match goal with
         | |- context [if ?b then _ else _] => destruct b
         end;
    try reflexivity;
    try apply getPreviousAccount_readonly;
    try apply findByIndex_readonly.
Qed.

(** The switch up to the point where the target is known. *)
Lemma Execute_resolved (env : Env) (ctx : Context) (input : SwitchAccountInput) (w : World)
    (currentAccount : option Account) (targetAccount : Account) :
  Context_Err ctx = None ->
  mockConfigManager.GetCurrentAccount (configManager w) = Ok currentAccount ->
  (SwitchAccountService_determineTargetAccount ctx input w).1 = Ok targetAccount ->
  SwitchAccountService_Execute env ctx input w =
    let sameAccount :=
      match currentAccount with
      | Some current => String.eqb (Account_ID current) (Account_ID targetAccount)
      | None => false
      end in
    match currentAccount, sameAccount with
    | Some current, true =>
        (Ok {| SwitchAccountResult_From := Some (accountToInfo current);
               SwitchAccountResult_To := accountToInfo current |}, w)
    | _, _ =>
        (do wrapping
              ("failed to retrieve credentials for account " +:+
               Account_Alias targetAccount +:+ ": ")
              (reading credentialStore
                 (mockCredentialStore.Retrieve (Account_ID targetAccount))) then
         do wrapping "failed to set current account: "
              (config_do (mockConfigManager.SetCurrentAccount (Some targetAccount))) then
         do match currentAccount with
            | Some current =>
                do attempt (SwitchAccountService_saveToHistory env ctx
                              (Account_Email current) (Account_Email targetAccount)) then
                ret tt
            | None => ret tt
            end then
         ret {| SwitchAccountResult_From := option_map accountToInfo currentAccount;
                SwitchAccountResult_To := accountToInfo targetAccount |}) w
    end.
Proof.
  intros Hctx Hcur Htarget.
  unfold SwitchAccountService_Execute. rewrite Hctx.
  unfold bind at 1, wrapping at 1, reading at 1. rewrite Hcur.
  unfold bind at 1.
  pose proof (determineTargetAccount_readonly ctx input w) as Hro.
  destruct (SwitchAccountService_determineTargetAccount ctx input w) as [r w'].
  cbn in Hro, Htarget. subst w' r.
  destruct currentAccount as [current|]; [|reflexivity].
  cbn zeta. destruct (String.eqb _ _); reflexivity.
Qed.

(** C3. When the target that the selector resolves to has the ID of the
    current account, the switch succeeds with the current account as both
    From and To, and leaves every store as it was: nothing is written to
    the history (its save count included) and Config's current account is
    the same as before. *)
Theorem switch_to_current_is_noop (env : Env) (ctx : Context) (input : SwitchAccountInput)
    (w : World) (current target : Account) :
  Context_Err ctx = None ->
  mockConfigManager.GetCurrentAccount (configManager w) = Ok (Some current) ->
  (SwitchAccountService_determineTargetAccount ctx input w).1 = Ok target ->
  Account_ID current = Account_ID target ->
  exists result w',
    SwitchAccountService_Execute env ctx input w = (Ok result, w') /\
    SwitchAccountResult_From result = Some (SwitchAccountResult_To result) /\
    SwitchAccountResult_To result = accountToInfo current /\
    mockHistoryRepository.saveCalls (historyRepo w') =
      mockHistoryRepository.saveCalls (historyRepo w) /\
    mockConfigManager.currentAccount (configManager w') =
      mockConfigManager.currentAccount (configManager w) /\
    w' = w.
Proof.
  intros Hctx Hcur Htarget Hid.
  rewrite (Execute_resolved env ctx input w (Some current) target Hctx Hcur Htarget).
  cbn zeta. rewrite Hid, String.eqb_refl.
  eexists _, w. repeat split; reflexivity.
Qed.

Lemma another_account_eqb (currentAccount : option Account) (target : Account) :
  another_account currentAccount target ->
  match currentAccount with
  | Some current => String.eqb (Account_ID current) (Account_ID target)
  | None => false
  end = false.
Proof.
  destruct currentAccount as [current|]; [|reflexivity].
  cbn. intros Hne. destruct (String.eqb_spec (Account_ID current) (Account_ID target)).
  - contradiction.
  - reflexivity.
Qed.

(** C4. A switch to another account that cannot retrieve the target's
    credentials, or that cannot write the target into Config, returns an
    error and leaves every store as it was: the history is not written
    (same ledger, same save count) and Config's current account keeps its
    value. *)
Theorem switch_failure_writes_nothing (env : Env) (ctx : Context) (input : SwitchAccountInput)
    (w : World) (currentAccount : option Account) (target : Account) :
  Context_Err ctx = None ->
  mockConfigManager.GetCurrentAccount (configManager w) = Ok currentAccount ->
  (SwitchAccountService_determineTargetAccount ctx input w).1 = Ok target ->
  another_account currentAccount target ->
  is_Err (mockCredentialStore.Retrieve (Account_ID target) (credentialStore w)) = true \/
  mockConfigManager.setErr (configManager w) <> None ->
  exists e w',
    SwitchAccountService_Execute env ctx input w = (Err e, w') /\
    mockHistoryRepository.saveCalls (historyRepo w') =
      mockHistoryRepository.saveCalls (historyRepo w) /\
    historyRepo w' = historyRepo w /\
    mockConfigManager.currentAccount (configManager w') =
      mockConfigManager.currentAccount (configManager w) /\
    w' = w.
Proof.
  intros Hctx Hcur Htarget Hother Hfail.
  rewrite (Execute_resolved env ctx input w currentAccount target Hctx Hcur Htarget).
  cbn zeta. rewrite (another_account_eqb _ _ Hother).
  assert (Hgoal : exists e,
    (do wrapping
          ("failed to retrieve credentials for account " +:+ Account_Alias target +:+ ": ")
          (reading credentialStore (mockCredentialStore.Retrieve (Account_ID target))) then
     do wrapping "failed to set current account: "
          (config_do (mockConfigManager.SetCurrentAccount (Some target))) then
     do match currentAccount with
        | Some current =>
            do attempt (SwitchAccountService_saveToHistory env ctx
                          (Account_Email current) (Account_Email target)) then
            ret tt
        | None => ret tt
        end then
     ret {| SwitchAccountResult_From := option_map accountToInfo currentAccount;
            SwitchAccountResult_To := accountToInfo target |}) w = (Err e, w)).
  { unfold bind at 1, wrapping at 1, reading at 1.
    destruct (mockCredentialStore.Retrieve (Account_ID target) (credentialStore w))
      as [creds|e] eqn:Hretrieve.
    - destruct Hfail as [Hfail|Hset]; [discriminate|].
      unfold bind at 1, wrapping at 1, config_do at 1, mockConfigManager.SetCurrentAccount.
      destruct (mockConfigManager.setErr (configManager w)) as [e|]; [|congruence].
      destruct w; eexists; reflexivity.
    - eexists; reflexivity. }
  destruct Hgoal as [e He].
  exists e, w.
  destruct currentAccount; (split; [exact He|repeat split; reflexivity]).
Qed.

(** ** Selecting by position *)

Lemma Zgtb_true (a b : Z) : b < a -> (a >? b) = true.
Proof. intros H. rewrite Z.gtb_ltb. apply Z.ltb_lt, H. Qed.

Lemma Zgtb_false (a b : Z) : a <= b -> (a >? b) = false.
Proof. intros H. rewrite Z.gtb_ltb. apply Z.ltb_ge, H. Qed.

(** C8, as the code has it.  A switch by position alone, with the current
    account and the account listing readable: a position beyond the listing
    fails with the index-out-of-range error; a position below 1 is not
    taken as a selector at all and fails with the no-selector error.  Both
    leave every store as it was. *)
Theorem switch_by_position_out_of_range (env : Env) (ctx : Context) (w : World) (index : Z) :
  Context_Err ctx = None ->
  mockConfigManager.getErr (configManager w) = None ->
  mockAccountRepository.findErr (accountRepo w) = None ->
  index < 1 \/ Z.of_nat (length (mockAccountRepository.values (accountRepo w))) < index ->
  SwitchAccountService_Execute env ctx (by_position index) w =
    (Err (if index <? 1 then New "no account identifier provided"
          else errIndexOutOfRange index
                 (Z.of_nat (length (mockAccountRepository.values (accountRepo w))))),
     w).
Proof.
  intros Hctx Hget Hfind Hrange.
  unfold SwitchAccountService_Execute. rewrite Hctx.
  unfold bind at 1, wrapping at 1, reading at 1, mockConfigManager.GetCurrentAccount.
  rewrite Hget. unfold bind at 1.
  unfold SwitchAccountService_determineTargetAccount, by_position, nonempty.
  cbn [SwitchAccountInput_AccountID SwitchAccountInput_Email SwitchAccountInput_Alias
       SwitchAccountInput_Index SwitchAccountInput_Previous String.eqb negb orb].
  destruct (Z.ltb_spec index 1) as [Hlt|Hge].
  - rewrite (Zgtb_false index 0) by lia.
    reflexivity.
  - destruct Hrange as [Hlt|Hgt]; [lia|].
    rewrite (Zgtb_true index 0) by lia.
    change (0 + 0 + 0 + 1 =? 0) with false.
    change (0 + 0 + 0 + 1 >? 1) with false.
    unfold SwitchAccountService_findByIndex.
    replace (index <=? 0) with false by (symmetry; apply Z.leb_gt; lia).
    unfold bind at 1, wrapping at 1, reading at 1, mockAccountRepository.List.
    cbv beta iota. rewrite Hfind.
    rewrite Zgtb_true by (unfold mockAccountRepository.values in *; lia).
    reflexivity.
Qed.

Lemma no_selector_is_not_out_of_range : ~ IndexOutOfRange (New "no account identifier provided").
Proof.
  intros (index & len & [H|H]); unfold errInvalidIndex, errIndexOutOfRange in H;
    cbn in H; discriminate H.
Qed.

(** Position 0 among three accounts: the switch fails, but not with an
    index error. *)
Lemma switch_by_position_zero :
  SwitchAccountService_Execute (Fixture.env x00) context_Background (by_position 0)
    Fixture.populated =
  (Err (New "no account identifier provided"), Fixture.populated) /\
  ~ IndexOutOfRange (New "no account identifier provided").
Proof.
  split; [vm_compute; reflexivity | exact no_selector_is_not_out_of_range].
Qed.

(** Position 100 among three accounts. *)
Lemma switch_by_position_out_of_range_witness :
  SwitchAccountService_Execute (Fixture.env x00) context_Background (by_position 100)
    Fixture.populated =
  (Err (New "index 100 out of range (have 3 accounts)"), Fixture.populated).
Proof.
  apply (switch_by_position_out_of_range (Fixture.env x00) context_Background
           Fixture.populated 100).
  - reflexivity.
  - reflexivity.
  - reflexivity.
  - right. vm_compute. reflexivity.
Defined.

(** ** Recording a switch *)

Lemma fresh_ledger_is_NewHistory_50 (entry : SwitchEntry) :
  History_AddEntry (Some entry) (NewHistory 50) = fresh_ledger entry.
Proof. reflexivity. Qed.

Lemma saveToHistory_load_failed (env : Env) (ctx : Context) (from to : Email) (w : World)
    (e : error) (entry : SwitchEntry) :
  mockHistoryRepository.loadErr (historyRepo w) = Some e ->
  NewSwitchEntry env from to = Ok entry ->
  SwitchAccountService_saveToHistory env ctx from to w =
  history_do (mockHistoryRepository.SaveHistory (fresh_ledger entry)) w.
Proof.
  intros Hload Hentry. unfold SwitchAccountService_saveToHistory.
  unfold bind at 1, attempt at 1, reading at 1, mockHistoryRepository.LoadHistory.
  rewrite Hload, Hentry. reflexivity.
Qed.

(** C9. A switch away from a current account that gets as far as recording
    itself, while the persisted history cannot be loaded: the ledger handed
    to [SaveHistory] is a new one of capacity 50 (a ledger created without
    a capacity has 10) holding the new entry alone, and the save, when it
    goes through, puts it in the place of the ledger persisted before.  The
    switch itself succeeds either way. *)
Theorem switch_recreates_history_when_load_fails (env : Env) (ctx : Context)
    (input : SwitchAccountInput) (w : World) (current target : Account)
    (creds : Credentials) (e : error) (entry : SwitchEntry) :
  Context_Err ctx = None ->
  mockConfigManager.GetCurrentAccount (configManager w) = Ok (Some current) ->
  (SwitchAccountService_determineTargetAccount ctx input w).1 = Ok target ->
  Account_ID current <> Account_ID target ->
  mockCredentialStore.Retrieve (Account_ID target) (credentialStore w) = Ok creds ->
  mockConfigManager.setErr (configManager w) = None ->
  mockHistoryRepository.loadErr (historyRepo w) = Some e ->
  NewSwitchEntry env (Account_Email current) (Account_Email target) = Ok entry ->
  exists result w',
    SwitchAccountService_Execute env ctx input w = (Ok result, w') /\
    historyRepo w' =
      (mockHistoryRepository.SaveHistory (fresh_ledger entry) (historyRepo w)).2 /\
    fresh_ledger entry = History_AddEntry (Some entry) (NewHistory 50) /\
    History_MaxEntries (fresh_ledger entry) = 50 /\
    History_MaxEntries (NewHistory 0) = 10 /\
    History_Entries (fresh_ledger entry) = [entry] /\
    mockHistoryRepository.saveCalls (historyRepo w') =
      mockHistoryRepository.saveCalls (historyRepo w) + 1 /\
    mockHistoryRepository.history (historyRepo w') =
      match mockHistoryRepository.saveErr (historyRepo w) with
      | None => fresh_ledger entry
      | Some _ => mockHistoryRepository.history (historyRepo w)
      end.
Proof.
  intros Hctx Hcur Htarget Hother Hretrieve Hset Hload Hentry.
  rewrite (Execute_resolved env ctx input w (Some current) target Hctx Hcur Htarget).
  cbn zeta.
  destruct (String.eqb_spec (Account_ID current) (Account_ID target)) as [|_];
    [contradiction|].
  unfold bind at 1, wrapping at 1, reading at 1. rewrite Hretrieve.
  unfold bind at 1, wrapping at 1, config_do at 1, mockConfigManager.SetCurrentAccount.
  rewrite Hset.
  unfold bind at 1. unfold bind at 1, attempt at 1.
  erewrite (saveToHistory_load_failed env ctx _ _ _ e entry); [|exact Hload|exact Hentry].
  unfold history_do, mockHistoryRepository.SaveHistory. cbn [historyRepo].
  destruct (mockHistoryRepository.saveErr (historyRepo w));
    (eexists _, _; split; [reflexivity|]; repeat split; reflexivity).
Qed.

(** ** Remove *)

Lemma filed_by_id_empty : filed_by_id Fixture.newCredentialStore.
Proof. intros id creds H. cbn in H. rewrite lookup_empty in H. discriminate. Qed.

Lemma Store_filed_by_id (creds : Credentials) (m : mockCredentialStore.t) :
  filed_by_id m -> filed_by_id (mockCredentialStore.Store creds m).2.
Proof.
  intros Hm. unfold mockCredentialStore.Store.
  destruct (mockCredentialStore.storeErr m); [exact Hm|].
  cbn. unfold filed_by_id. cbn. apply map_Forall_insert_2; [reflexivity|exact Hm].
Qed.

Lemma Delete_filed_by_id (id : AccountID) (m : mockCredentialStore.t) :
  filed_by_id m -> filed_by_id (mockCredentialStore.Delete id m).2.
Proof.
  intros Hm. unfold mockCredentialStore.Delete.
  destruct (mockCredentialStore.deleteErr m); [exact Hm|].
  cbn. unfold filed_by_id. cbn. apply map_Forall_delete, Hm.
Qed.

Lemma getRemovalMetadata_eq (ctx : Context) (account : Account) (w : World)
    (accounts : list Account) :
  mockAccountRepository.List (accountRepo w) = Ok accounts ->
  exists metadata,
    RemoveAccountService_getRemovalMetadata ctx account w = (Ok metadata, w) /\
    backupCredentials metadata =
      match mockCredentialStore.Retrieve (Account_ID account) (credentialStore w) with
      | Ok creds => Some creds
      | Err _ => None
      end.
Proof.
  intros Hlist. unfold RemoveAccountService_getRemovalMetadata.
  unfold bind at 1, attempt at 1, reading at 1.
  unfold bind at 1, wrapping at 1, reading at 1. rewrite Hlist.
  unfold bind at 1, attempt at 1, reading at 1.
  eexists. split; reflexivity.
Qed.

Lemma rollbackCredentials_eq (ctx : Context) (backup : option Credentials) (w : World) :
  RemoveAccountService_rollbackCredentials ctx backup w =
  (Ok tt,
   match backup with
   | Some creds => with_credentialStore w (mockCredentialStore.Store creds (credentialStore w)).2
   | None => w
   end).
Proof.
  unfold RemoveAccountService_rollbackCredentials. destruct backup as [creds|]; [|reflexivity].
  run. destruct (mockCredentialStore.Store creds (credentialStore w)). reflexivity.
Qed.

(** The removal when the credentials go and the account record stays. *)
Lemma performRemoval_account_delete_failed (ctx : Context) (account : Account)
    (metadata : removalMetadata) (w : World) (e : error) :
  mockCredentialStore.deleteErr (credentialStore w) = None ->
  mockAccountRepository.deleteErr (accountRepo w) = Some e ->
  RemoveAccountService_performRemoval ctx account metadata w =
  (Err (Wrap "failed to delete account: " e),
   let deleted :=
     mockCredentialStore.with_credentials (credentialStore w)
       (delete (Account_ID account) (mockCredentialStore.credentials (credentialStore w))) in
   with_credentialStore w
     match backupCredentials metadata with
     | Some creds => (mockCredentialStore.Store creds deleted).2
     | None => deleted
     end).
Proof.
  intros Hcdel Hadel. unfold RemoveAccountService_performRemoval.
  unfold bind at 1, wrapping at 1, credentials_do at 1, mockCredentialStore.Delete.
  rewrite Hcdel.
  unfold bind at 1, attempt at 1, accounts_do at 1, mockAccountRepository.Delete.
  cbn [accountRepo]. rewrite Hadel.
  unfold bind at 1. rewrite rollbackCredentials_eq. unfold fail.
  destruct (backupCredentials metadata); reflexivity.
Qed.

(** C2, as the code has it.  A Remove that deletes the credentials and
    then fails to delete the account record returns the account-deletion
    error; the account repository, Config and the history are as they
    were, so the account is still found by its ID.  The credentials are
    put back only from a backup taken before the deletion, by a [Store]
    whose own outcome is dropped: with a backup and a store that accepts
    it, every store is as before the call and the credentials are
    retrieved again; without a backup, or when the store refuses it, the
    credentials are gone. *)
Theorem remove_account_delete_failure_rolls_back (ctx : Context) (input : RemoveAccountInput)
    (w : World) (account : Account) (e : error) :
  RemoveAccountInput_AccountID input <> "" ->
  Context_Err ctx = None ->
  mockAccountRepository.FindByID (RemoveAccountInput_AccountID input) (accountRepo w) =
    Ok account ->
  filed_by_id (credentialStore w) ->
  mockCredentialStore.deleteErr (credentialStore w) = None ->
  mockAccountRepository.deleteErr (accountRepo w) = Some e ->
  exists w',
    RemoveAccountService_Execute ctx input w =
      (Err (Wrap "failed to delete account: " e), w') /\
    accountRepo w' = accountRepo w /\
    mockAccountRepository.FindByID (RemoveAccountInput_AccountID input) (accountRepo w') =
      Ok account /\
    configManager w' = configManager w /\
    historyRepo w' = historyRepo w /\
    match mockCredentialStore.Retrieve (Account_ID account) (credentialStore w),
          mockCredentialStore.storeErr (credentialStore w) with
    | Ok backup, None =>
        w' = w /\
        mockCredentialStore.Retrieve (Account_ID account) (credentialStore w') = Ok backup
    | _, _ =>
        mockCredentialStore.credentials (credentialStore w') =
          delete (Account_ID account) (mockCredentialStore.credentials (credentialStore w)) /\
        mockCredentialStore.credentials (credentialStore w') !! Account_ID account = None
    end.
Proof.
  intros Hid Hctx Hfind Hfiled Hcdel Hadel.
  assert (Hlist : mockAccountRepository.List (accountRepo w) =
                  Ok (mockAccountRepository.values (accountRepo w))).
  { unfold mockAccountRepository.FindByID in Hfind. unfold mockAccountRepository.List.
    destruct (mockAccountRepository.findErr (accountRepo w)); [discriminate|reflexivity]. }
  destruct (getRemovalMetadata_eq ctx account w _ Hlist) as (metadata & Hmeta & Hbackup).
  unfold RemoveAccountService_Execute, RemoveAccountService_validateInput.
  unfold bind at 1. destruct (String.eqb_spec (RemoveAccountInput_AccountID input) "");
    [contradiction|].
  rewrite Hctx. unfold ret at 1.
  unfold bind at 1, wrapping at 1, reading at 1. rewrite Hfind.
  unfold bind at 1. rewrite Hmeta.
  unfold bind at 1.
  rewrite (performRemoval_account_delete_failed ctx account metadata w e Hcdel Hadel).
  eexists. split; [reflexivity|]. cbv zeta. rewrite Hbackup.
  unfold with_credentialStore. cbn [accountRepo configManager historyRepo credentialStore].
  repeat (split; [first [reflexivity|exact Hfind]|]).
  unfold mockCredentialStore.Retrieve.
  destruct (mockCredentialStore.retrieveErr (credentialStore w)) as [re|] eqn:Hretrieve.
  { cbn. split; [reflexivity|apply lookup_delete_eq]. }
  destruct (mockCredentialStore.credentials (credentialStore w) !! Account_ID account)
    as [backup|] eqn:Hlookup.
  2:{ cbn. split; [reflexivity|apply lookup_delete_eq]. }
  unfold mockCredentialStore.Store.
  cbn [mockCredentialStore.storeErr mockCredentialStore.with_credentials
       mockCredentialStore.credentials].
  destruct (mockCredentialStore.storeErr (credentialStore w)) as [se|] eqn:Hstore.
  { cbn. split; [reflexivity|apply lookup_delete_eq]. }
  cbn [snd mockCredentialStore.with_credentials mockCredentialStore.credentials
       mockCredentialStore.retrieveErr].
  rewrite (Hfiled _ _ Hlookup), insert_delete_id by exact Hlookup.
  rewrite Hretrieve, Hlookup.
  split; [|reflexivity].
  destruct w as [a c g h]. destruct c as [m se re de].
  cbn in *. subst. reflexivity.
Qed.

(** ** Cancellation *)

(** Switch looks at the context first. *)
Lemma switch_cancelled (env : Env) (ctx : Context) (input : SwitchAccountInput) (w : World)
    (err : error) :
  Context_Err ctx = Some err ->
  SwitchAccountService_Execute env ctx input w = (Err (Wrap "context cancelled: " err), w).
Proof. intros H. unfold SwitchAccountService_Execute. rewrite H. reflexivity. Qed.

(** Remove looks at the context after the account ID, and before any
    store. *)
Lemma remove_cancelled (ctx : Context) (input : RemoveAccountInput) (w : World) (err : error) :
  Context_Err ctx = Some err ->
  RemoveAccountService_Execute ctx input w =
  (Err (if String.eqb (RemoveAccountInput_AccountID input) ""
        then New "account ID is required" else err), w).
Proof.
  intros H. unfold RemoveAccountService_Execute, RemoveAccountService_validateInput.
  unfold bind at 1. destruct (String.eqb _ _); [reflexivity|].
  rewrite H. reflexivity.
Qed.

(** Add never looks at the context: it runs the same under any. *)
Lemma add_context_irrelevant {C : CryptoLib} (env : Env) (ctx ctx' : Context)
    (input : AddAccountInput) (w : World) :
  AddAccountService_Execute env ctx input w = AddAccountService_Execute env ctx' input w.
Proof. reflexivity. Qed.

(** C7, at the input where it fails.  Add with explicit details, called
    with a context that is already cancelled, on stores that hold nothing:
    it returns no error, and both the credential store and the account
    repository have been written. *)
Theorem add_under_cancelled_context :
  Context_Err context_cancelled = Some Canceled /\
  (AddAccountService_Execute (C := ToyCrypto.lib) (Fixture.env x01) context_cancelled
     Fixture.explicit Fixture.empty).1 = Ok tt /\
  mockAccountRepository.List
    (accountRepo (AddAccountService_Execute (C := ToyCrypto.lib) (Fixture.env x01)
                    context_cancelled Fixture.explicit Fixture.empty).2) =
  Ok [{| Account_ID := "01010101";
         Account_Email := "a@example.com";
         Account_Alias := "a";
         Account_UUID := "explicit-a-example.com";
         Account_CreatedAt := 1700000000;
         Account_LastUsed := 1700000000 |}] /\
  is_Ok (mockCredentialStore.Retrieve "01010101"
           (credentialStore (AddAccountService_Execute (C := ToyCrypto.lib) (Fixture.env x01)
                               context_cancelled Fixture.explicit Fixture.empty).2)) = true.
Proof. repeat split; vm_compute; reflexivity. Qed.

(** ** Add at concrete stores *)

(** The credentials are stored, the account cannot be saved, and the
    credential store refuses the compensating delete: Add returns the save
    error and the credentials of the account that was never saved are
    still in the credential store. *)
Lemma add_save_failure_orphan :
  let w := Fixture.failing_credentials None None (Some Fixture.keychain_locked)
             (Fixture.failing_save Fixture.disk_full Fixture.empty) in
  let r := AddAccountService_Execute (C := ToyCrypto.lib) (Fixture.env x01)
             context_Background Fixture.explicit w in
  mockCredentialStore.storeErr (credentialStore w) = None /\
  r.1 = Err (Wrap "failed to save account: " Fixture.disk_full) /\
  accountRepo r.2 = accountRepo w /\
  is_Ok (mockCredentialStore.Retrieve "01010101" (credentialStore r.2)) = true /\
  mockCredentialStore.credentials (credentialStore r.2) !! "01010101" <> None.
Proof.
  cbv zeta. repeat split; try (vm_compute; reflexivity).
  vm_compute. discriminate.
Qed.

(** The same Add with a credential store that deletes: nothing is left
    under the new account's ID. *)
Lemma add_save_failure_compensates_witness :
  let w := Fixture.failing_save Fixture.disk_full Fixture.empty in
  exists w',
    AddAccountService_Execute (C := ToyCrypto.lib) (Fixture.env x01) context_Background
      Fixture.explicit w = (Err (Wrap "failed to save account: " Fixture.disk_full), w') /\
    accountRepo w' = accountRepo w /\
    mockCredentialStore.credentials (credentialStore w') !! "01010101" = None.
Proof.
  cbv zeta.
  destruct (NewCredentials (C := ToyCrypto.lib) (Fixture.env x01) "01010101" [x01; x02])
    as [creds|err] eqn:Hcreds; [|vm_compute in Hcreds; discriminate Hcreds].
  destruct (add_save_failure_compensates (C := ToyCrypto.lib) (Fixture.env x01)
              context_Background Fixture.explicit
              (Fixture.failing_save Fixture.disk_full Fixture.empty)
              "a@example.com" "explicit-a-example.com" [x01; x02]
              (Fixture.account x01 "a@example.com" "a" "explicit-a-example.com")
              creds Fixture.disk_full)
    as (w' & Hexec & Haccounts & _ & _ & _ & Hgone).
  - reflexivity.
  - reflexivity.
  - reflexivity.
  - exact Hcreds.
  - reflexivity.
  - reflexivity.
  - exists w'. split; [exact Hexec|]. split; [exact Haccounts|exact Hgone].
Defined.

(** ** Remove and Switch at concrete stores *)

Lemma populated_filed_by_id (w : World) :
  mockCredentialStore.credentials (credentialStore w) =
    mockCredentialStore.credentials (credentialStore Fixture.populated) ->
  filed_by_id (credentialStore w).
Proof.
  intros H. unfold filed_by_id. rewrite H.
  apply (bool_decide_unpack _). vm_compute. exact I.
Qed.

(** The credentials of work are in the store; their deletion succeeds,
    the deletion of the account record fails, and the store refuses the
    restoring [Store]: the account is still found, its credentials are
    not. *)
Lemma remove_restore_refused :
  let w := Fixture.failing_credentials (Some Fixture.keychain_locked) None None
             (Fixture.failing_account_delete Fixture.database_locked Fixture.populated) in
  let r := RemoveAccountService_Execute context_Background Fixture.remove_work w in
  mockCredentialStore.deleteErr (credentialStore w) = None /\
  is_Ok (mockCredentialStore.Retrieve (Account_ID Fixture.work) (credentialStore w)) = true /\
  r.1 = Err (Wrap "failed to delete account: " Fixture.database_locked) /\
  mockAccountRepository.FindByID (Account_ID Fixture.work) (accountRepo r.2) =
    Ok Fixture.work /\
  mockCredentialStore.Retrieve (Account_ID Fixture.work) (credentialStore r.2) =
    Err (New "credentials not found").
Proof. cbv zeta. repeat split; vm_compute; reflexivity. Qed.

(** The same Remove with a store that takes the backup back. *)
Lemma remove_account_delete_failure_rolls_back_witness :
  let w := Fixture.failing_account_delete Fixture.database_locked Fixture.populated in
  exists w',
    RemoveAccountService_Execute context_Background Fixture.remove_work w =
      (Err (Wrap "failed to delete account: " Fixture.database_locked), w') /\
    mockAccountRepository.FindByID (Account_ID Fixture.work) (accountRepo w') =
      Ok Fixture.work /\
    is_Ok (mockCredentialStore.Retrieve (Account_ID Fixture.work) (credentialStore w')) = true.
Proof.
  cbv zeta.
  destruct (remove_account_delete_failure_rolls_back context_Background Fixture.remove_work
              (Fixture.failing_account_delete Fixture.database_locked Fixture.populated)
              Fixture.work Fixture.database_locked)
    as (w' & Hexec & _ & Hfound & _ & _ & Hcreds).
  - discriminate.
  - reflexivity.
  - vm_compute. reflexivity.
  - apply populated_filed_by_id. reflexivity.
  - reflexivity.
  - reflexivity.
  - exists w'. split; [exact Hexec|]. split; [exact Hfound|].
    destruct (mockCredentialStore.Retrieve (Account_ID Fixture.work)
                (credentialStore
                   (Fixture.failing_account_delete Fixture.database_locked Fixture.populated)))
      as [backup|err] eqn:Hbackup; [|vm_compute in Hbackup; discriminate Hbackup].
    change (mockCredentialStore.storeErr
              (credentialStore
                 (Fixture.failing_account_delete Fixture.database_locked Fixture.populated)))
      with (@None error) in Hcreds.
    destruct Hcreds as [_ ->]. reflexivity.
Defined.

(** Switching to personal while personal is current. *)
Lemma switch_to_current_is_noop_witness :
  exists result w',
    SwitchAccountService_Execute (Fixture.env x00) context_Background
      (Fixture.by_alias "personal") Fixture.populated = (Ok result, w') /\
    SwitchAccountResult_From result = Some (SwitchAccountResult_To result) /\
    SwitchAccountResult_To result = accountToInfo Fixture.personal /\
    mockHistoryRepository.saveCalls (historyRepo w') = 0 /\
    mockConfigManager.currentAccount (configManager w') = Some Fixture.personal /\
    w' = Fixture.populated.
Proof.
  apply (switch_to_current_is_noop (Fixture.env x00) context_Background
           (Fixture.by_alias "personal") Fixture.populated Fixture.personal Fixture.personal).
  - reflexivity.
  - reflexivity.
  - vm_compute. reflexivity.
  - reflexivity.
Defined.

(** Switching to work while Config cannot be written. *)
Lemma switch_failure_writes_nothing_witness :
  let w := Fixture.failing_set Fixture.config_locked Fixture.populated in
  exists e w',
    SwitchAccountService_Execute (Fixture.env x00) context_Background
      (Fixture.by_alias "work") w = (Err e, w') /\
    mockHistoryRepository.saveCalls (historyRepo w') = 0 /\
    historyRepo w' = historyRepo w /\
    mockConfigManager.currentAccount (configManager w') = Some Fixture.personal /\
    w' = w.
Proof.
  apply (switch_failure_writes_nothing (Fixture.env x00) context_Background
           (Fixture.by_alias "work") (Fixture.failing_set Fixture.config_locked Fixture.populated)
           (Some Fixture.personal) Fixture.work).
  - reflexivity.
  - reflexivity.
  - vm_compute. reflexivity.
  - cbn. vm_compute. discriminate.
  - right. cbn. discriminate.
Defined.

(** Switching to work while the history cannot be loaded. *)
Lemma switch_recreates_history_when_load_fails_witness :
  let w := Fixture.failing_load Fixture.history_corrupted Fixture.populated in
  exists result w',
    SwitchAccountService_Execute (Fixture.env x00) context_Background
      (Fixture.by_alias "work") w = (Ok result, w') /\
    mockHistoryRepository.saveCalls (historyRepo w') = 1 /\
    mockHistoryRepository.history (historyRepo w') =
      {| entries := [Fixture.personal_to_work]; History_MaxEntries := 50 |}.
Proof.
  cbv zeta.
  destruct (mockCredentialStore.Retrieve (Account_ID Fixture.work)
              (credentialStore (Fixture.failing_load Fixture.history_corrupted Fixture.populated)))
    as [creds|err] eqn:Hcreds; [|vm_compute in Hcreds; discriminate Hcreds].
  destruct (switch_recreates_history_when_load_fails (Fixture.env x00) context_Background
              (Fixture.by_alias "work")
              (Fixture.failing_load Fixture.history_corrupted Fixture.populated)
              Fixture.personal Fixture.work creds Fixture.history_corrupted Fixture.personal_to_work)
    as (result & w' & Hexec & _ & _ & _ & _ & _ & Hcalls & Hledger).
  - reflexivity.
  - reflexivity.
  - vm_compute. reflexivity.
  - vm_compute. discriminate.
  - exact Hcreds.
  - reflexivity.
  - reflexivity.
  - reflexivity.
  - exists result, w'. split; [exact Hexec|]. split; [exact Hcalls|exact Hledger].
Defined.

(** ** The scenarios of the test suite *)

Example ValidateEmail_accepts : ValidateEmail "personal@example.com" = None.
Proof. reflexivity. Qed.

Example ValidateEmail_needs_dot : ValidateEmail "user@localhost" = Some (New "invalid email format").
Proof. reflexivity. Qed.

Example validateAlias_rejects_space :
  validateAlias "my alias" = Some (New "alias cannot contain spaces").
Proof. reflexivity. Qed.

Example GenerateAccountID_is_hex : GenerateAccountID (Fixture.env xb2) = "b2b2b2b2".
Proof. reflexivity. Qed.

(** Add with an explicit email and no alias: one account, named after the
    local part of the email. *)
Example scenario_add_explicit :
  let r := AddAccountService_Execute (C := ToyCrypto.lib) (Fixture.env x01)
             context_Background Fixture.explicit Fixture.empty in
  r.1 = Ok tt /\
  match mockAccountRepository.List (accountRepo r.2) with
  | Ok accounts => map Account_Alias accounts
  | Err _ => []
  end = ["a"].
Proof. cbv zeta. split; vm_compute; reflexivity. Qed.

(** Switching from personal to work by alias: Config points to work and
    the ledger has the one entry. *)
Example scenario_switch_by_alias :
  let r := SwitchAccountService_Execute (Fixture.env x00) context_Background
             (Fixture.by_alias "work") Fixture.populated in
  r.1 = Ok {| SwitchAccountResult_From := Some (accountToInfo Fixture.personal);
              SwitchAccountResult_To := accountToInfo Fixture.work |} /\
  mockConfigManager.currentAccount (configManager r.2) = Some Fixture.work /\
  History_Entries (mockHistoryRepository.history (historyRepo r.2)) =
    [Fixture.personal_to_work] /\
  mockHistoryRepository.saveCalls (historyRepo r.2) = 1.
Proof. cbv zeta. repeat split; vm_compute; reflexivity. Qed.

(** Removing an account that is not the current one. *)
Example scenario_remove_existing :
  let r := RemoveAccountService_Execute context_Background Fixture.remove_work
             Fixture.populated in
  r.1 = Ok {| RemovedAccount := accountToInfo Fixture.work;
              WasCurrentAccount := false;
              WasLastAccount := false |} /\
  mockAccountRepository.FindByID (Account_ID Fixture.work) (accountRepo r.2) =
    Err (New "account not found") /\
  mockCredentialStore.Retrieve (Account_ID Fixture.work) (credentialStore r.2) =
    Err (New "credentials not found").
Proof. cbv zeta. repeat split; vm_compute; reflexivity. Qed.

(** * Further properties of the domain *)

(** ** The two patterns *)

Lemma nullable_lang (r : regex) : nullable r = true <-> lang r "".
Proof.
  split.
  - induction r; cbn; intros H; try discriminate.
    + constructor.
    + apply andb_true_iff in H as [H1 H2].
      change "" with ("" +:+ ""). constructor; auto.
    + apply orb_true_iff in H as [H|H]; [apply lang_Alt_l|apply lang_Alt_r]; auto.
    + constructor.
  - intros H. remember "" as s eqn:Hs. induction H; cbn; try reflexivity; try discriminate.
    + destruct u; [|discriminate]. change (v = "") in Hs. subst v.
      rewrite IHlang1, IHlang2 by reflexivity. reflexivity.
    + rewrite IHlang by assumption. reflexivity.
    + rewrite IHlang by assumption. apply orb_true_r.
Qed.

Lemma lang_Void_inv (t : string) : lang Void t -> False.
Proof. inversion 1. Qed.

Lemma lang_Eps_inv (t : string) : lang Eps t -> t = "".
Proof. inversion 1. reflexivity. Qed.

Lemma lang_Cls_inv (p : ascii -> bool) (t : string) :
  lang (Cls p) t -> exists c, t = String c "" /\ p c = true.
Proof. inversion 1; subst. eauto. Qed.

Lemma lang_Cat_inv (r s : regex) (t : string) :
  lang (Cat r s) t -> exists u v, t = u +:+ v /\ lang r u /\ lang s v.
Proof. inversion 1; subst. eauto. Qed.

Lemma lang_Alt_inv (r s : regex) (t : string) : lang (Alt r s) t -> lang r t \/ lang s t.
Proof. inversion 1; subst; auto. Qed.

Lemma lang_deriv_1 (r : regex) : forall c s, lang (deriv c r) s -> lang r (String c s).
Proof.
  induction r as [| |p|r1 IH1 r2 IH2|r1 IH1 r2 IH2|r IH]; cbn; intros c s H.
  - destruct (lang_Void_inv _ H).
  - destruct (lang_Void_inv _ H).
  - destruct (p c) eqn:Hp.
    + apply lang_Eps_inv in H. subst s. constructor. exact Hp.
    + destruct (lang_Void_inv _ H).
  - assert (Hcat : forall t, lang (Cat (deriv c r1) r2) t -> lang (Cat r1 r2) (String c t)).
    { intros t Ht. apply lang_Cat_inv in Ht as (u & v & -> & Hu & Hv).
      change (String c (u +:+ v)) with (String c u +:+ v). constructor; auto. }
    destruct (nullable r1) eqn:Hn; [|auto].
    apply lang_Alt_inv in H as [H|H]; [auto|].
    change (String c s) with ("" +:+ String c s). constructor; [|auto].
    apply nullable_lang, Hn.
  - apply lang_Alt_inv in H as [H|H]; [apply lang_Alt_l|apply lang_Alt_r]; auto.
  - apply lang_Cat_inv in H as (u & v & -> & Hu & Hv).
    change (String c (u +:+ v)) with (String c u +:+ v). constructor; auto.
Qed.

Lemma lang_deriv_2 (r : regex) (t : string) :
  lang r t -> forall c s, t = String c s -> lang (deriv c r) s.
Proof.
  induction 1; intros c' s' Heq; cbn.
  - discriminate.
  - injection Heq as <- <-. rewrite H. constructor.
  - destruct u as [|a u].
    + change (v = String c' s') in Heq. subst v.
      assert (Hn : nullable r = true) by (apply nullable_lang; assumption).
      rewrite Hn. apply lang_Alt_r. apply IHlang2. reflexivity.
    + change (String a (u +:+ v) = String c' s') in Heq. injection Heq as <- <-.
      assert (Hd : lang (Cat (deriv a r) s) (u +:+ v)).
      { constructor; [apply IHlang1; reflexivity|assumption]. }
      destruct (nullable r); [apply lang_Alt_l|]; exact Hd.
  - apply lang_Alt_l. auto.
  - apply lang_Alt_r. auto.
  - discriminate.
  - destruct u as [|a u].
    + apply IHlang2. exact Heq.
    + change (String a (u +:+ v) = String c' s') in Heq. injection Heq as <- <-.
      constructor; [apply IHlang1; reflexivity|assumption].
Qed.

(** The matcher decides the language. *)
Lemma MatchString_lang (s : string) : forall r, MatchString r s = true <-> lang r s.
Proof.
  induction s as [|c s IH]; intros r; cbn.
  - apply nullable_lang.
  - rewrite IH. split.
    + apply lang_deriv_1.
    + intros H. eapply lang_deriv_2; [exact H|reflexivity].
Qed.

Lemma all_chars_cons (p : ascii -> bool) (c : ascii) (s : string) :
  all_chars p (String c s) = p c && all_chars p s.
Proof. reflexivity. Qed.

Lemma all_chars_append (p : ascii -> bool) (u v : string) :
  all_chars p (u +:+ v) = all_chars p u && all_chars p v.
Proof.
  induction u as [|c u IH]; [reflexivity|].
  change (String c u +:+ v) with (String c (u +:+ v)).
  rewrite !all_chars_cons, IH. apply andb_assoc.
Qed.

Lemma lang_Star_Cls (p : ascii -> bool) (s : string) :
  lang (Star (Cls p)) s <-> all_chars p s = true.
Proof.
  split.
  - intros H. remember (Star (Cls p)) as r eqn:Hr.
    induction H; try discriminate; [reflexivity|].
    injection Hr as ->. apply lang_Cls_inv in H as (c & -> & Hc).
    change (String c "" +:+ v) with (String c v).
    rewrite all_chars_cons, Hc. apply IHlang2. reflexivity.
  - induction s as [|c s IH]; intros H; [constructor|].
    rewrite all_chars_cons in H. apply andb_true_iff in H as [Hc Hs].
    change (String c s) with (String c "" +:+ s).
    constructor; [constructor; exact Hc|auto].
Qed.

Lemma lang_Plus_Cls (p : ascii -> bool) (s : string) :
  lang (Plus (Cls p)) s <-> s <> "" /\ all_chars p s = true.
Proof.
  unfold Plus. split.
  - intros H. apply lang_Cat_inv in H as (u & v & -> & Hu & Hv).
    apply lang_Cls_inv in Hu as (c & -> & Hc). apply lang_Star_Cls in Hv.
    change (String c "" +:+ v) with (String c v).
    split; [discriminate|]. rewrite all_chars_cons, Hc. exact Hv.
  - intros [Hne H]. destruct s as [|c s]; [contradiction|].
    rewrite all_chars_cons in H. apply andb_true_iff in H as [Hc Hs].
    change (String c s) with (String c "" +:+ s).
    constructor; [constructor; exact Hc|apply lang_Star_Cls, Hs].
Qed.

Lemma lang_Chr (c : ascii) (s : string) : lang (Chr c) s <-> s = String c "".
Proof.
  unfold Chr. split.
  - intros H. apply lang_Cls_inv in H as (c' & -> & Hc).
    apply Ascii.eqb_eq in Hc. subst. reflexivity.
  - intros ->. constructor. apply Ascii.eqb_refl.
Qed.

(** Two or more characters of a class. *)
Lemma lang_two_or_more (p : ascii -> bool) (s : string) :
  lang (Cat (Cls p) (Cat (Cls p) (Star (Cls p)))) s <->
  (2 <= String.length s)%nat /\ all_chars p s = true.
Proof.
  split.
  - intros H. apply lang_Cat_inv in H as (u & v & -> & Hu & Hv).
    apply lang_Cls_inv in Hu as (a & -> & Ha).
    apply lang_Cat_inv in Hv as (u & w & -> & Hu & Hw).
    apply lang_Cls_inv in Hu as (b & -> & Hb). apply lang_Star_Cls in Hw.
    change (String a "" +:+ String b "" +:+ w) with (String a (String b w)).
    split; [cbn; lia|]. rewrite !all_chars_cons, Ha, Hb. exact Hw.
  - intros [Hlen H]. destruct s as [|a [|b w]]; cbn in Hlen; try lia.
    rewrite !all_chars_cons in H.
    apply andb_true_iff in H as [Ha H]. apply andb_true_iff in H as [Hb Hw].
    change (String a (String b w)) with (String a "" +:+ String b "" +:+ w).
    repeat constructor; try assumption. apply lang_Star_Cls, Hw.
Qed.

Lemma contains_space_not_all (p : ascii -> bool) (s : string) :
  p " "%char = false -> strings_Contains s " " = true -> all_chars p s = false.
Proof.
  intros Hp. induction s as [|c s IH]; cbn [strings_Contains]; intros H.
  - discriminate.
  - rewrite all_chars_cons. apply orb_true_iff in H as [H|H].
    + change (String.prefix " " (String c s))
        with (if ascii_dec " " c then String.prefix "" s else false) in H.
      destruct (ascii_dec " " c) as [<-|]; [|discriminate].
      rewrite Hp. reflexivity.
    + rewrite (IH H). apply andb_false_r.
Qed.

Lemma contains_space_In (s : string) :
  strings_Contains s " " = true <-> In " "%char (list_ascii_of_string s).
Proof.
  induction s as [|c s IH]; cbn [strings_Contains list_ascii_of_string In].
  - split; [discriminate|tauto].
  - change (String.prefix " " (String c s))
      with (if ascii_dec " " c then String.prefix "" s else false).
    rewrite orb_true_iff, IH. split.
    + intros [H|H]; [|auto]. destruct (ascii_dec " " c) as [<-|]; [auto|discriminate].
    + intros [Heq|H]; [|auto]. left.
      destruct (ascii_dec " " c) as [_|Hne]; [|congruence].
      destruct s; reflexivity.
Qed.

Lemma aliasRegex_matches (alias : string) :
  MatchString aliasRegex alias = true <->
  alias <> "" /\ all_chars alias_char alias = true.
Proof. rewrite MatchString_lang. apply (lang_Plus_Cls alias_char). Qed.

Lemma validateAlias_accepted (alias : string) :
  validateAlias alias = None -> alias <> "" /\ all_chars alias_char alias = true.
Proof.
  unfold validateAlias. destruct (strings_Contains alias " "); [discriminate|].
  destruct (MatchString aliasRegex alias) eqn:Hm; [|discriminate].
  intros _. apply aliasRegex_matches, Hm.
Qed.

(** X1. An alias passes validation exactly when it is non-empty and made
    of letters, digits, hyphens and underscores only; the error is the one
    about spaces exactly when the alias contains a space, and the one
    about the allowed characters in every other rejected case. *)
Theorem validateAlias_spec (alias : string) :
  (validateAlias alias = None <->
   alias <> "" /\ all_chars alias_char alias = true) /\
  (validateAlias alias = Some (New "alias cannot contain spaces") <->
   In " "%char (list_ascii_of_string alias)) /\
  (validateAlias alias =
     Some (New "alias can only contain letters, numbers, hyphens, and underscores") <->
   ~ In " "%char (list_ascii_of_string alias) /\
   (alias = "" \/ all_chars alias_char alias = false)).
Proof.
  pose proof (aliasRegex_matches alias) as Hmatch.
  pose proof (contains_space_In alias) as Hspace.
  unfold validateAlias.
  destruct (strings_Contains alias " ") eqn:Hc.
  - assert (Hin : In " "%char (list_ascii_of_string alias)) by (apply Hspace; reflexivity).
    split; [|split].
    + split; [discriminate|]. intros [_ Hall].
      rewrite (contains_space_not_all alias_char alias eq_refl Hc) in Hall. discriminate.
    + tauto.
    + split; [discriminate|]. intros [Hno _]. contradiction.
  - assert (Hin : ~ In " "%char (list_ascii_of_string alias)).
    { intros H. apply Hspace in H. discriminate. }
    destruct (MatchString aliasRegex alias) eqn:Hm; cbn [negb].
    + destruct Hmatch as [Hmatch _]. specialize (Hmatch eq_refl).
      split; [tauto|]. split; [split; [discriminate|tauto]|].
      split; [discriminate|]. intros [_ [->|Hall]]; [tauto|].
      destruct Hmatch as [_ Hall']. congruence.
    + split; [|split].
      * split; [discriminate|]. intros H. apply Hmatch in H. discriminate.
      * split; [discriminate|tauto].
      * split; [|reflexivity]. intros _. split; [exact Hin|].
        destruct alias as [|c alias]; [left; reflexivity|right].
        destruct (all_chars alias_char (String c alias)) eqn:Hall; [|reflexivity].
        destruct Hmatch as [_ Hmatch]. discriminate Hmatch. split; [discriminate|reflexivity].
Qed.

Lemma emailRegex_lang (email : string) : lang emailRegex email <-> email_shape email.
Proof.
  unfold emailRegex, email_shape. split.
  - intros H.
    apply lang_Cat_inv in H as (l & r1 & -> & Hl & H).
    apply lang_Cat_inv in H as (a & r2 & -> & Ha & H).
    apply lang_Cat_inv in H as (d & r3 & -> & Hd & H).
    apply lang_Cat_inv in H as (dot & t & -> & Hdot & Ht).
    apply (lang_Plus_Cls local_char) in Hl as [Hl1 Hl2].
    apply lang_Chr in Ha as ->. apply (lang_Plus_Cls domain_char) in Hd as [Hd1 Hd2].
    apply lang_Chr in Hdot as ->. apply lang_two_or_more in Ht as [Ht1 Ht2].
    exists l, d, t. repeat split; assumption.
  - intros (l & d & t & -> & Hl1 & Hl2 & Hd1 & Hd2 & Ht1 & Ht2).
    constructor; [apply (lang_Plus_Cls local_char); auto|].
    constructor; [apply lang_Chr; reflexivity|].
    constructor; [apply (lang_Plus_Cls domain_char); auto|].
    constructor; [apply lang_Chr; reflexivity|].
    apply lang_two_or_more. auto.
Qed.

Lemma ValidateEmail_accepted (email : string) :
  ValidateEmail email = None -> email_shape email.
Proof.
  unfold ValidateEmail. destruct (String.eqb email ""); [discriminate|].
  destruct (MatchString emailRegex email) eqn:Hm; [|discriminate].
  intros _. apply emailRegex_lang, MatchString_lang, Hm.
Qed.

(** X2. An email passes validation exactly when it is a non-empty local
    part of letters, digits and [._%+-], an [@], a non-empty domain of
    letters, digits, dots and hyphens, a dot, and a final label of two or
    more letters. *)
Theorem ValidateEmail_spec (email : string) :
  ValidateEmail email = None <->
  exists localPart domain tld,
    email = localPart +:+ "@" +:+ domain +:+ "." +:+ tld /\
    localPart <> "" /\ all_chars local_char localPart = true /\
    domain <> "" /\ all_chars domain_char domain = true /\
    (2 <= String.length tld)%nat /\ all_chars is_alpha tld = true.
Proof.
  fold (email_shape email).
  rewrite <- emailRegex_lang, <- MatchString_lang. unfold ValidateEmail.
  destruct (String.eqb_spec email "") as [->|Hne].
  - split; [discriminate|]. intros H. discriminate H.
  - destruct (MatchString emailRegex email); cbn [negb]; split; congruence.
Qed.

(** ** Account IDs and accounts *)




(** X4. Changing the alias never touches the ID, the email, the UUID or
    the timestamps; a rejected alias leaves the account as it was; the
    empty alias is always accepted, and any other alias is accepted exactly
    when [validateAlias] accepts it.  Marking an account as used changes
    its last-use time and nothing else. *)
Theorem Account_UpdateAlias_spec (env : Env) (newAlias : string) (a : Account) :
  let r := Account_UpdateAlias newAlias a in
  let used := Account_MarkUsed env a in
  (Account_ID used, Account_Email used, Account_Alias used, Account_UUID used,
   Account_CreatedAt used, Account_LastUsed used) =
  (Account_ID a, Account_Email a, Account_Alias a, Account_UUID a,
   Account_CreatedAt a, time_Now env) /\
  Account_ID r.2 = Account_ID a /\
  Account_Email r.2 = Account_Email a /\
  Account_UUID r.2 = Account_UUID a /\
  Account_CreatedAt r.2 = Account_CreatedAt a /\
  Account_LastUsed r.2 = Account_LastUsed a /\
  match r.1 with
  | None =>
      Account_Alias r.2 = newAlias /\
      (newAlias = "" \/ (newAlias <> "" /\ all_chars alias_char newAlias = true))
  | Some err =>
      r.2 = a /\ newAlias <> "" /\ validateAlias newAlias = Some err
  end.
Proof.
  cbv zeta. split; [reflexivity|]. unfold Account_UpdateAlias.
  destruct (String.eqb_spec newAlias "") as [->|Hne]; cbn [negb].
  - cbn. repeat split; auto.
  - destruct (validateAlias newAlias) as [err|] eqn:Hv; cbn.
    + repeat split; auto.
    + repeat split; auto. right. apply validateAlias_accepted, Hv.
Qed.

(** ** Switch entries and the ledger *)

(** X5. A switch entry is created exactly when both emails are non-empty
    and differ; it then carries the two emails and the current time.  So
    no entry ever has an empty end or the same account at both ends. *)
Theorem NewSwitchEntry_spec (env : Env) (from to : Email) :
  match NewSwitchEntry env from to with
  | Ok entry =>
      from <> "" /\ to <> "" /\ from <> to /\
      entry = {| SwitchEntry_From := from; SwitchEntry_To := to;
                 SwitchEntry_Timestamp := time_Now env |} /\
      SwitchEntry_From entry <> SwitchEntry_To entry
  | Err err =>
      (from = "" /\ err = New "from email cannot be empty") \/
      (from <> "" /\ to = "" /\ err = New "to email cannot be empty") \/
      (from <> "" /\ to <> "" /\ from = to /\ err = New "cannot switch to the same account")
  end.
Proof.
  unfold NewSwitchEntry.
  destruct (String.eqb_spec from "") as [->|Hfrom]; [left; auto|].
  destruct (String.eqb_spec to "") as [->|Hto]; [right; left; auto|].
  destruct (String.eqb_spec from to) as [->|Hne]; [right; right; auto|].
  cbn. auto.
Qed.

Lemma apply_op_bounded (h : History) (op : HistoryOp) :
  History_bounded h ->
  History_bounded (apply_op h op) /\
  History_MaxEntries (apply_op h op) = History_MaxEntries h.
Proof.
  intros Hb. destruct op as [entry|]; cbn [apply_op].
  - split; [apply History_AddEntry_bounded, Hb|apply History_AddEntry_MaxEntries].
  - split; [apply History_Clear_bounded, Hb|reflexivity].
Qed.

(** X6. Whatever is done to a ledger after its creation (entries added,
    nil entries added, the ledger cleared, in any order) its capacity stays
    the one it was created with and it never holds more entries than
    that. *)
Theorem History_ops_bounded (maxEntries : Z) (ops : list HistoryOp) :
  let h := apply_ops ops (NewHistory maxEntries) in
  History_MaxEntries h = (if maxEntries <=? 0 then 10 else maxEntries) /\
  0 < History_MaxEntries h /\
  Z.of_nat (length (History_Entries h)) <= History_MaxEntries h.
Proof.
  cbv zeta.
  assert (Hgen : forall ops h, History_bounded h ->
            History_bounded (apply_ops ops h) /\
            History_MaxEntries (apply_ops ops h) = History_MaxEntries h).
  { clear. induction ops as [|op ops IH]; intros h Hb; [split; [exact Hb|reflexivity]|].
    cbn [apply_ops fold_left]. fold (apply_ops ops (apply_op h op)).
    destruct (apply_op_bounded h op Hb) as [Hb' Hmax'].
    destruct (IH _ Hb') as [Hb'' Hmax'']. split; [exact Hb''|congruence]. }
  destruct (Hgen ops _ (NewHistory_bounded maxEntries)) as [[Hpos Hlen] Hmax].
  repeat split; [rewrite Hmax; reflexivity|exact Hpos|exact Hlen].
Qed.

(** X7. The entry just added to a ledger is the one [GetLastSwitch]
    returns, and the first one that the searches by its source and by its
    destination return; a new or a cleared ledger has no last switch. *)
Theorem History_newest_first (h : History) (entry : SwitchEntry) :
  History_bounded h ->
  let h' := History_AddEntry (Some entry) h in
  History_GetLastSwitch h' = Some entry /\
  head (History_Entries h') = Some entry /\
  head (History_FindSwitchesFrom (SwitchEntry_From entry) h') = Some entry /\
  head (History_FindSwitchesTo (SwitchEntry_To entry) h') = Some entry /\
  History_GetLastSwitch (History_Clear h') = None /\
  History_GetLastSwitch (NewHistory (History_MaxEntries h)) = None.
Proof.
  intros [Hpos Hlen]. cbv zeta.
  assert (Hent : exists rest, entries (History_AddEntry (Some entry) h) = entry :: rest).
  { rewrite History_AddEntry_entries by exact Hpos.
    destruct (Z.to_nat (History_MaxEntries h)) as [|n] eqn:Hn; [lia|].
    cbn [firstn]. eauto. }
  destruct Hent as [rest Hent].
  unfold History_GetLastSwitch, History_Entries, History_FindSwitchesFrom,
    History_FindSwitchesTo. rewrite Hent.
  repeat split; try reflexivity.
  - rewrite filter_cons_True by reflexivity. reflexivity.
  - rewrite filter_cons_True by reflexivity. reflexivity.
Qed.

Lemma History_newest_first_witness :
  History_GetLastSwitch
    (History_AddEntry (Some Fixture.personal_to_work) (NewHistory 3)) =
  Some Fixture.personal_to_work.
Proof.
  apply (History_newest_first (NewHistory 3) Fixture.personal_to_work).
  apply NewHistory_bounded.
Defined.

(** ** Credentials *)

(** X8. With the library behaving as documented, creating credentials
    fails in exactly three cases: an empty account ID, an empty payload, a
    random source that does not deliver.  When it succeeds the credentials
    carry the account ID and the key derived from it. *)
Theorem NewCredentials_spec {C : CryptoLib} (L : CryptoLaws C)
    (env : Env) (id : AccountID) (data : list byte) :
  match NewCredentials env id data with
  | Ok creds =>
      id <> "" /\ data <> [] /\ rand_nonce env <> None /\
      Credentials_AccountID creds = id /\ encryptionKey creds = deriveKey id
  | Err err =>
      (id = "" /\ err = New "account ID cannot be empty") \/
      (id <> "" /\ data = [] /\ err = New "credentials data cannot be empty") \/
      (id <> "" /\ data <> [] /\ rand_nonce env = None)
  end.
Proof.
  unfold NewCredentials.
  destruct (String.eqb_spec id "") as [->|Hid]; [left; auto|].
  destruct data as [|b data]; [right; left; auto|]. cbn [length Nat.eqb].
  destruct (rand_nonce env) as [src|] eqn:Hsrc.
  - destruct (encrypt_derived_key env src id (b :: data) Hsrc) as [sealed ->].
    cbn. repeat split; auto; discriminate.
  - unfold encrypt, deriveKey.
    destruct (digest_is_key (list_byte_of_string ("ccx-encryption-" +:+ id)))
      as (block & gcm & -> & ->).
    rewrite Hsrc. cbn [read_bytes]. right; right. repeat split; auto; discriminate.
Qed.

Lemma NewCredentials_spec_witness :
  match NewCredentials (C := ToyCrypto.lib) (Fixture.env x01) "" [x01] with
  | Ok _ => False
  | Err err => err = New "account ID cannot be empty"
  end.
Proof.
  pose proof (NewCredentials_spec ToyCrypto_laws (Fixture.env x01) "" [x01]) as H.
  destruct (NewCredentials (C := ToyCrypto.lib) (Fixture.env x01) "" [x01]) as [creds|err].
  - destruct H as [H _]. apply H. reflexivity.
  - destruct H as [[_ H]|[[H _]|[H _]]]; [exact H|destruct H; reflexivity..].
Defined.

(** X9. Replacing the payload of credentials that carry the key of their
    account: an empty payload is refused and nothing changes; any other
    payload is sealed under the same key, the account ID and the key stay,
    and decrypting afterwards gives the new payload. *)
Theorem Credentials_UpdateData_spec {C : CryptoLib} (L : CryptoLaws C)
    (env : Env) (newData : list byte) (c : Credentials) :
  encryptionKey c = deriveKey (Credentials_AccountID c) ->
  rand_nonce env <> None ->
  let r := Credentials_UpdateData env newData c in
  Credentials_AccountID r.2 = Credentials_AccountID c /\
  encryptionKey r.2 = encryptionKey c /\
  match newData with
  | [] => r = (Some (New "credentials data cannot be empty"), c)
  | _ :: _ => r.1 = None /\ Credentials_Decrypt r.2 = Ok newData
  end.
Proof.
  intros Hkey Hsrc. cbv zeta. unfold Credentials_UpdateData.
  destruct newData as [|b newData]; [cbn; auto|]. cbn [length Nat.eqb].
  destruct (rand_nonce env) as [src|] eqn:Esrc; [clear Hsrc|congruence].
  destruct (encrypt_derived_key env src (Credentials_AccountID c) (b :: newData) Esrc)
    as [sealed Hsealed].
  rewrite <- Hkey in Hsealed.
  rewrite Hsealed. cbn [fst snd Credentials_AccountID encryptionKey].
  repeat split; try reflexivity.
  unfold Credentials_Decrypt. cbn [encryptedData encryptionKey].
  eapply decrypt_encrypt, Hsealed.
Qed.

Lemma Credentials_UpdateData_spec_witness :
  let c := {| Credentials_AccountID := "01010101"; encryptedData := [];
              encryptionKey := deriveKey (C := ToyCrypto.lib) "01010101" |} in
  Credentials_Decrypt (C := ToyCrypto.lib)
    (Credentials_UpdateData (C := ToyCrypto.lib) (Fixture.env x01) [x68; x69] c).2 =
  Ok [x68; x69].
Proof.
  cbv zeta.
  apply (Credentials_UpdateData_spec ToyCrypto_laws (Fixture.env x01) [x68; x69]
           {| Credentials_AccountID := "01010101"; encryptedData := [];
              encryptionKey := deriveKey (C := ToyCrypto.lib) "01010101" |}).
  - reflexivity.
  - discriminate.
Defined.

(** * Further properties of the use cases *)

(** ** Add *)

Lemma NewAccount_ID (env : Env) (email alias uuid : string) (account : Account) :
  NewAccount env email alias uuid = Ok account ->
  Account_ID account = GenerateAccountID env /\
  Account_Email account = email /\ Account_Alias account = alias /\
  Account_UUID account = uuid.
Proof.
  unfold NewAccount. destruct (ValidateEmail email); [discriminate|].
  destruct (String.eqb uuid ""); [discriminate|].
  destruct (if negb (String.eqb alias "") then validateAlias alias else None);
    [discriminate|].
  intros H. injection H as <-. auto.
Qed.

Lemma values_lookup (m : mockAccountRepository.t) (id : AccountID) (account : Account) :
  mockAccountRepository.accounts m !! id = Some account ->
  In account (mockAccountRepository.values m).
Proof.
  intros H. apply list_elem_of_In. unfold mockAccountRepository.values.
  apply (list_elem_of_fmap_2 snd _ (id, account)). apply elem_of_map_to_list, H.
Qed.

(** What the saving step does in each of its outcomes. *)
Lemma createAndSaveAccount_stored {C : CryptoLib} (env : Env) (ctx : Context)
    (email alias uuid : string) (data : list byte) (w : World)
    (account : Account) (creds : Credentials) :
  NewAccount env email alias uuid = Ok account ->
  NewCredentials env (Account_ID account) data = Ok creds ->
  mockCredentialStore.storeErr (credentialStore w) = None ->
  mockAccountRepository.saveErr (accountRepo w) = None ->
  AddAccountService_createAndSaveAccount env ctx email alias uuid data w =
  (Ok tt,
   {| accountRepo := (mockAccountRepository.Save account (accountRepo w)).2;
      credentialStore := (mockCredentialStore.Store creds (credentialStore w)).2;
      configManager := configManager w;
      historyRepo := historyRepo w |}).
Proof.
  intros Haccount Hcreds Hstore Hsave.
  unfold AddAccountService_createAndSaveAccount. rewrite Haccount, Hcreds.
  unfold bind at 1, wrapping at 1, credentials_do at 1, mockCredentialStore.Store.
  rewrite Hstore.
  unfold bind at 1, attempt at 1, accounts_do at 1, mockAccountRepository.Save.
  cbn [accountRepo]. rewrite Hsave. reflexivity.
Qed.

Lemma createAndSaveAccount_store_failed {C : CryptoLib} (env : Env) (ctx : Context)
    (email alias uuid : string) (data : list byte) (w : World)
    (account : Account) (creds : Credentials) (e : error) :
  NewAccount env email alias uuid = Ok account ->
  NewCredentials env (Account_ID account) data = Ok creds ->
  mockCredentialStore.storeErr (credentialStore w) = Some e ->
  AddAccountService_createAndSaveAccount env ctx email alias uuid data w =
  (Err (Wrap "failed to store credentials: " e), w).
Proof.
  intros Haccount Hcreds Hstore.
  unfold AddAccountService_createAndSaveAccount. rewrite Haccount, Hcreds.
  unfold bind at 1, wrapping at 1, credentials_do at 1, mockCredentialStore.Store.
  rewrite Hstore. destruct w; reflexivity.
Qed.

Lemma createAndSaveAccount_frame {C : CryptoLib} (env : Env) (ctx : Context)
    (email alias uuid : string) (data : list byte) (w : World) :
  let r := AddAccountService_createAndSaveAccount env ctx email alias uuid data w in
  configManager r.2 = configManager w /\
  historyRepo r.2 = historyRepo w /\
  (is_Err r.1 = true -> accountRepo r.2 = accountRepo w) /\
  (forall id, id <> GenerateAccountID env ->
     mockAccountRepository.accounts (accountRepo r.2) !! id =
       mockAccountRepository.accounts (accountRepo w) !! id /\
     mockCredentialStore.credentials (credentialStore r.2) !! id =
       mockCredentialStore.credentials (credentialStore w) !! id).
Proof.
  cbv zeta.
  destruct (NewAccount env email alias uuid) as [account|e] eqn:Haccount.
  2:{ unfold AddAccountService_createAndSaveAccount. rewrite Haccount. cbn. auto. }
  destruct (NewAccount_ID _ _ _ _ _ Haccount) as (Hid & _).
  destruct (NewCredentials env (Account_ID account) data) as [creds|e] eqn:Hcreds.
  2:{ unfold AddAccountService_createAndSaveAccount. rewrite Haccount, Hcreds. cbn. auto. }
  pose proof (NewCredentials_AccountID env _ data creds Hcreds) as Hcid.
  destruct (mockCredentialStore.storeErr (credentialStore w)) as [e|] eqn:Hstore.
  { rewrite (createAndSaveAccount_store_failed env ctx _ _ _ _ w account creds e
               Haccount Hcreds Hstore). cbn. auto. }
  destruct (mockAccountRepository.saveErr (accountRepo w)) as [e|] eqn:Hsave.
  - rewrite (createAndSaveAccount_save_failed env ctx _ _ _ _ w account creds e
               Haccount Hcreds Hstore Hsave).
    unfold mockCredentialStore.Store, mockCredentialStore.Delete. rewrite Hstore.
    cbn [fst snd accountRepo credentialStore configManager historyRepo
         mockCredentialStore.deleteErr mockCredentialStore.with_credentials].
    (split; [reflexivity|]); (split; [reflexivity|]); (split; [reflexivity|]).
    intros id Hne. rewrite Hcid, Hid. split; [reflexivity|].
    destruct (mockCredentialStore.deleteErr (credentialStore w)); cbn.
    + apply lookup_insert_ne; congruence.
    + rewrite lookup_delete_ne, lookup_insert_ne by congruence. reflexivity.
  - rewrite (createAndSaveAccount_stored env ctx _ _ _ _ w account creds
               Haccount Hcreds Hstore Hsave).
    unfold mockCredentialStore.Store, mockAccountRepository.Save. rewrite Hstore, Hsave.
    cbn. (split; [reflexivity|]); (split; [reflexivity|]).
    split; [discriminate|]. intros id Hne. rewrite Hcid, Hid.
    split; apply lookup_insert_ne; congruence.
Qed.

(** X10. Add never writes to Config or to the history, and never touches
    a record filed under another ID than the one generated for the new
    account; whenever it returns an error, the account repository is
    exactly as before (no account without a successful add). *)
Theorem add_frame {C : CryptoLib} (env : Env) (ctx : Context) (input : AddAccountInput)
    (w : World) (id : AccountID) :
  let r := AddAccountService_Execute env ctx input w in
  configManager r.2 = configManager w /\
  historyRepo r.2 = historyRepo w /\
  (if is_Err r.1 then accountRepo r.2 = accountRepo w else True) /\
  (if String.eqb id (GenerateAccountID env) then True
   else mockAccountRepository.accounts (accountRepo r.2) !! id =
          mockAccountRepository.accounts (accountRepo w) !! id /\
        mockCredentialStore.credentials (credentialStore r.2) !! id =
          mockCredentialStore.credentials (credentialStore w) !! id).
Proof.
  cbv zeta. rewrite AddAccountService_Execute_eq.
  destruct (AddAccountService_determineAccountDetails ctx input w)
    as [[[[email uuid] data]|e] w0].
  2:{ cbn. destruct (String.eqb _ _); auto. }
  destruct (mockAccountRepository.FindByEmail email (accountRepo w)).
  { cbn. destruct (String.eqb _ _); auto. }
  destruct (createAndSaveAccount_frame env ctx email
              (AddAccountService_generateAlias (AddAccountInput_Alias input) email)
              uuid data w) as (Hc & Hh & Herr & Hother).
  repeat split; [exact Hc|exact Hh| |].
  - destruct (is_Err _) eqn:E; [apply Herr; reflexivity|exact I].
  - destruct (String.eqb_spec id (GenerateAccountID env)); [exact I|]. apply Hother. assumption.
Qed.

(** X11. An Add whose details resolve, whose email is not taken, and whose
    stores accept the writes: it returns no error; the account is in the
    repository and its credentials in the store, both under the new ID
    (replacing whatever was filed under that ID: the ID is not checked
    for freshness); the stored credentials decrypt to the payload; the
    account is in the listing. *)
Theorem add_success {C : CryptoLib} (L : CryptoLaws C) (env : Env) (ctx : Context)
    (input : AddAccountInput) (w : World) (email uuid : string) (data : list byte)
    (account : Account) (creds : Credentials) :
  (AddAccountService_determineAccountDetails ctx input w).1 = Ok (email, uuid, data) ->
  is_Err (mockAccountRepository.FindByEmail email (accountRepo w)) = true ->
  NewAccount env email
    (AddAccountService_generateAlias (AddAccountInput_Alias input) email) uuid = Ok account ->
  NewCredentials env (Account_ID account) data = Ok creds ->
  mockCredentialStore.storeErr (credentialStore w) = None ->
  mockAccountRepository.saveErr (accountRepo w) = None ->
  exists w',
    AddAccountService_Execute env ctx input w = (Ok tt, w') /\
    mockAccountRepository.accounts (accountRepo w') =
      <[Account_ID account := account]> (mockAccountRepository.accounts (accountRepo w)) /\
    mockCredentialStore.credentials (credentialStore w') =
      <[Account_ID account := creds]> (mockCredentialStore.credentials (credentialStore w)) /\
    mockAccountRepository.accounts (accountRepo w') !! Account_ID account = Some account /\
    mockCredentialStore.credentials (credentialStore w') !! Account_ID account = Some creds /\
    Credentials_Decrypt creds = Ok data /\
    In account (mockAccountRepository.values (accountRepo w')).
Proof.
  intros Hdetails Hfresh Haccount Hcreds Hstore Hsave.
  rewrite AddAccountService_Execute_eq.
  destruct (AddAccountService_determineAccountDetails ctx input w) as [r w0].
  cbn in Hdetails. subst r.
  destruct (mockAccountRepository.FindByEmail email (accountRepo w)); [discriminate|].
  rewrite (createAndSaveAccount_stored env ctx _ _ _ _ w account creds
             Haccount Hcreds Hstore Hsave).
  eexists. split; [reflexivity|].
  unfold mockAccountRepository.Save, mockCredentialStore.Store. rewrite Hstore, Hsave.
  cbn [accountRepo credentialStore snd mockAccountRepository.with_accounts
       mockAccountRepository.accounts mockCredentialStore.with_credentials
       mockCredentialStore.credentials].
  rewrite (NewCredentials_AccountID env _ data creds Hcreds).
  split; [reflexivity|]. split; [reflexivity|].
  split; [apply lookup_insert_eq|]. split; [apply lookup_insert_eq|].
  split.
  - unfold NewCredentials in Hcreds.
    destruct (String.eqb (Account_ID account) ""); [discriminate|].
    destruct (_ =? _)%nat; [discriminate|].
    destruct (encrypt env data (deriveKey (Account_ID account))) as [sealed|] eqn:Hsealed;
      [|discriminate].
    injection Hcreds as <-. unfold Credentials_Decrypt. cbn.
    eapply decrypt_encrypt, Hsealed.
  - apply (values_lookup _ (Account_ID account)). cbn. apply lookup_insert_eq.
Qed.

(** X12. An Add whose credentials the store refuses: the error is the
    store's, wrapped, and every store is as it was. *)
Theorem add_store_failure {C : CryptoLib} (env : Env) (ctx : Context)
    (input : AddAccountInput) (w : World) (email uuid : string) (data : list byte)
    (account : Account) (creds : Credentials) (e : error) :
  (AddAccountService_determineAccountDetails ctx input w).1 = Ok (email, uuid, data) ->
  is_Err (mockAccountRepository.FindByEmail email (accountRepo w)) = true ->
  NewAccount env email
    (AddAccountService_generateAlias (AddAccountInput_Alias input) email) uuid = Ok account ->
  NewCredentials env (Account_ID account) data = Ok creds ->
  mockCredentialStore.storeErr (credentialStore w) = Some e ->
  AddAccountService_Execute env ctx input w =
    (Err (Wrap "failed to store credentials: " e), w).
Proof.
  intros Hdetails Hfresh Haccount Hcreds Hstore.
  rewrite AddAccountService_Execute_eq.
  destruct (AddAccountService_determineAccountDetails ctx input w) as [r w0].
  cbn in Hdetails. subst r.
  destruct (mockAccountRepository.FindByEmail email (accountRepo w)); [discriminate|].
  apply (createAndSaveAccount_store_failed env ctx _ _ _ _ w account creds e
           Haccount Hcreds Hstore).
Qed.

Lemma add_success_witness :
  exists w',
    AddAccountService_Execute (C := ToyCrypto.lib) (Fixture.env x01) context_Background
      Fixture.explicit Fixture.empty = (Ok tt, w') /\
    mockAccountRepository.accounts (accountRepo w') !! "01010101" =
      Some (Fixture.account x01 "a@example.com" "a" "explicit-a-example.com") /\
    is_Ok (mockCredentialStore.Retrieve "01010101" (credentialStore w')) = true.
Proof.
  destruct (NewCredentials (C := ToyCrypto.lib) (Fixture.env x01) "01010101" [x01; x02])
    as [creds|err] eqn:Hcreds; [|vm_compute in Hcreds; discriminate Hcreds].
  destruct (add_success ToyCrypto_laws (Fixture.env x01) context_Background
              Fixture.explicit Fixture.empty
              "a@example.com" "explicit-a-example.com" [x01; x02]
              (Fixture.account x01 "a@example.com" "a" "explicit-a-example.com") creds)
    as (w' & Hexec & _ & _ & Haccount & Hstored & _ & _).
  - reflexivity.
  - reflexivity.
  - reflexivity.
  - exact Hcreds.
  - reflexivity.
  - reflexivity.
  - exists w'. split; [exact Hexec|]. split; [exact Haccount|].
    unfold mockCredentialStore.Retrieve.
    replace (mockCredentialStore.retrieveErr (credentialStore w')) with (@None error).
    + change (Account_ID (Fixture.account x01 "a@example.com" "a" "explicit-a-example.com"))
        with "01010101" in Hstored.
      rewrite Hstored. reflexivity.
    + injection Hexec as <-. reflexivity.
Defined.

Lemma add_store_failure_witness :
  let w := Fixture.failing_credentials (Some Fixture.keychain_locked) None None
             Fixture.empty in
  AddAccountService_Execute (C := ToyCrypto.lib) (Fixture.env x01) context_Background
    Fixture.explicit w =
  (Err (Wrap "failed to store credentials: " Fixture.keychain_locked), w).
Proof.
  cbv zeta.
  destruct (NewCredentials (C := ToyCrypto.lib) (Fixture.env x01) "01010101" [x01; x02])
    as [creds|err] eqn:Hcreds; [|vm_compute in Hcreds; discriminate Hcreds].
  apply (add_store_failure (C := ToyCrypto.lib) (Fixture.env x01) context_Background
           Fixture.explicit
           (Fixture.failing_credentials (Some Fixture.keychain_locked) None None Fixture.empty)
           "a@example.com" "explicit-a-example.com" [x01; x02]
           (Fixture.account x01 "a@example.com" "a" "explicit-a-example.com") creds).
  - reflexivity.
  - reflexivity.
  - reflexivity.
  - exact Hcreds.
  - reflexivity.
Defined.

(** The first part of a split at [@] is the text before the first [@]. *)
Lemma strings_Split_head (l rest : string) :
  all_chars (fun c => negb (Ascii.eqb c "@")) l = true ->
  exists parts, strings_Split (l +:+ "@" +:+ rest) "@" = l :: parts.
Proof.
  induction l as [|c l IH]; intros H.
  - change ("" +:+ "@" +:+ rest) with (String "@" rest). cbn. eauto.
  - rewrite all_chars_cons in H. apply andb_true_iff in H as [Hc Hl].
    change (String c l +:+ "@" +:+ rest) with (String c (l +:+ "@" +:+ rest)).
    cbn [strings_Split]. apply negb_true_iff in Hc. rewrite Hc.
    destruct (IH Hl) as [parts ->]. eauto.
Qed.

Lemma all_chars_impl (p q : ascii -> bool) (s : string) :
  (forall c, p c = true -> q c = true) ->
  all_chars p s = true -> all_chars q s = true.
Proof.
  intros Hpq. induction s as [|c s IH]; [reflexivity|].
  rewrite !all_chars_cons. intros H. apply andb_true_iff in H as [Hc Hs].
  rewrite (Hpq c Hc), (IH Hs). reflexivity.
Qed.

Lemma local_char_not_at (c : ascii) : local_char c = true -> negb (Ascii.eqb c "@") = true.
Proof.
  destruct (Ascii.eqb_spec c "@") as [->|]; [|reflexivity]. vm_compute. discriminate.
Qed.

(** The alias that Add derives from a valid email is its local part. *)
Lemma generateAlias_local_part (email : string) :
  ValidateEmail email = None ->
  exists localPart rest,
    email = localPart +:+ "@" +:+ rest /\
    localPart <> "" /\ all_chars local_char localPart = true /\
    AddAccountService_generateAlias "" email = localPart.
Proof.
  intros H. apply ValidateEmail_accepted in H
    as (l & d & t & -> & Hl1 & Hl2 & _).
  exists l, (d +:+ "." +:+ t). repeat split; try assumption.
  unfold AddAccountService_generateAlias. cbn [String.eqb negb].
  destruct (strings_Split_head l (d +:+ "." +:+ t)) as [parts ->]; [|reflexivity].
  eapply all_chars_impl; [exact local_char_not_at|exact Hl2].
Qed.

(** X13. Add with an explicit, valid email and no alias derives the alias
    from the local part of the email and validates it as an alias: when
    the local part has a character that an alias may not have (a dot, a
    plus, a percent sign) the add fails at account creation with the alias
    error, and nothing is written. *)
Theorem add_derived_alias_rejected {C : CryptoLib} (env : Env) (ctx : Context)
    (input : AddAccountInput) (w : World) :
  AddAccountInput_Email input <> "" ->
  AddAccountInput_Alias input = "" ->
  AddAccountInput_Credentials input <> [] ->
  ValidateEmail (AddAccountInput_Email input) = None ->
  is_Err (mockAccountRepository.FindByEmail (AddAccountInput_Email input) (accountRepo w))
    = true ->
  all_chars alias_char
    (AddAccountService_generateAlias "" (AddAccountInput_Email input)) = false ->
  AddAccountService_Execute env ctx input w =
    (Err (Wrap "failed to create account: "
            (New "alias can only contain letters, numbers, hyphens, and underscores")), w).
Proof.
  intros Hemail Halias Hcreds Hvalid Hfresh Hbad.
  destruct (generateAlias_local_part _ Hvalid) as (l & rest & Heq & Hl1 & Hl2 & Hgen).
  rewrite AddAccountService_Execute_eq.
  unfold AddAccountService_determineAccountDetails.
  destruct (String.eqb_spec (AddAccountInput_Email input) ""); [contradiction|].
  cbn [negb]. destruct (AddAccountInput_Credentials input) as [|b data]; [contradiction|].
  cbn [length Nat.eqb ret].
  destruct (mockAccountRepository.FindByEmail _ _); [discriminate|].
  rewrite Halias. unfold AddAccountService_createAndSaveAccount, NewAccount.
  rewrite Hvalid. cbn [String.eqb].
  rewrite Hgen in *.
  destruct (String.eqb_spec l ""); [contradiction|]. cbn [negb].
  assert (Hv : validateAlias l =
               Some (New "alias can only contain letters, numbers, hyphens, and underscores")).
  { unfold validateAlias.
    destruct (strings_Contains l " ") eqn:Hsp.
    - rewrite (contains_space_not_all local_char l eq_refl Hsp) in Hl2. discriminate.
    - destruct (MatchString aliasRegex l) eqn:Hm; [|reflexivity].
      apply aliasRegex_matches in Hm as [_ Hm]. congruence. }
  rewrite Hv. reflexivity.
Qed.

Lemma add_derived_alias_rejected_witness :
  AddAccountService_Execute (C := ToyCrypto.lib) (Fixture.env x01) context_Background
    {| AddAccountInput_Email := "first.last@example.com";
       AddAccountInput_Alias := "";
       AddAccountInput_Credentials := [x01] |} Fixture.empty =
    (Err (Wrap "failed to create account: "
            (New "alias can only contain letters, numbers, hyphens, and underscores")),
     Fixture.empty).
Proof.
  apply (add_derived_alias_rejected (C := ToyCrypto.lib)).
  - discriminate.
  - reflexivity.
  - discriminate.
  - reflexivity.
  - reflexivity.
  - reflexivity.
Defined.

(** ** Switch *)

Lemma saveToHistory_frame (env : Env) (ctx : Context) (from to : Email) (w : World) :
  let r := SwitchAccountService_saveToHistory env ctx from to w in
  accountRepo r.2 = accountRepo w /\
  credentialStore r.2 = credentialStore w /\
  configManager r.2 = configManager w.
Proof.
  cbv zeta. unfold SwitchAccountService_saveToHistory. run.
  destruct (mockHistoryRepository.LoadHistory (historyRepo w));
    destruct (NewSwitchEntry env from to); cbn; auto;
    unfold mockHistoryRepository.SaveHistory; cbn;
    destruct (mockHistoryRepository.saveErr (historyRepo w)); cbn; auto.
Qed.

Lemma Execute_outcome (env : Env) (ctx : Context) (input : SwitchAccountInput) (w : World) :
  switch_outcome w (SwitchAccountService_Execute env ctx input w).
Proof.
  destruct (Context_Err ctx) as [err|] eqn:Hctx.
  { rewrite (switch_cancelled env ctx input w err Hctx). constructor. }
  destruct (mockConfigManager.GetCurrentAccount (configManager w)) as [currentAccount|e]
    eqn:Hcur.
  2:{ unfold SwitchAccountService_Execute. rewrite Hctx.
      unfold bind at 1, wrapping at 1, reading at 1. rewrite Hcur. constructor. }
  destruct (SwitchAccountService_determineTargetAccount ctx input w).1 as [target|e]
    eqn:Htarget.
  2:{ unfold SwitchAccountService_Execute. rewrite Hctx.
      unfold bind at 1, wrapping at 1, reading at 1. rewrite Hcur. unfold bind at 1.
      pose proof (determineTargetAccount_readonly ctx input w) as Hro.
      destruct (SwitchAccountService_determineTargetAccount ctx input w) as [r w0].
      cbn in Hro, Htarget. subst. constructor. }
  rewrite (Execute_resolved env ctx input w currentAccount target Hctx Hcur Htarget).
  assert (Hcurrent : mockConfigManager.currentAccount (configManager w) = currentAccount).
  { unfold mockConfigManager.GetCurrentAccount in Hcur.
    destruct (mockConfigManager.getErr (configManager w)); congruence. }
  cbv zeta.
  assert (Hproceed : switch_outcome w
    ((do wrapping
          ("failed to retrieve credentials for account " +:+ Account_Alias target +:+ ": ")
          (reading credentialStore (mockCredentialStore.Retrieve (Account_ID target))) then
      do wrapping "failed to set current account: "
          (config_do (mockConfigManager.SetCurrentAccount (Some target))) then
      do match currentAccount with
         | Some current =>
             do attempt (SwitchAccountService_saveToHistory env ctx
                           (Account_Email current) (Account_Email target)) then
             ret tt
         | None => ret tt
         end then
      ret {| SwitchAccountResult_From := option_map accountToInfo currentAccount;
             SwitchAccountResult_To := accountToInfo target |}) w)).
  { unfold bind at 1, wrapping at 1, reading at 1.
    destruct (mockCredentialStore.Retrieve (Account_ID target) (credentialStore w))
      as [creds|e] eqn:Hretrieve; [|constructor].
    unfold bind at 1, wrapping at 1, config_do at 1, mockConfigManager.SetCurrentAccount.
    destruct (mockConfigManager.setErr (configManager w)) as [e|] eqn:Hset.
    { destruct w; constructor. }
    unfold bind at 1. rewrite <- Hcurrent.
    destruct (mockConfigManager.currentAccount (configManager w)) as [current|] eqn:Hc.
    - unfold bind at 1, attempt at 1.
      match goal with
      | |- context [SwitchAccountService_saveToHistory ?e ?c ?f ?t ?w0] =>
          destruct (saveToHistory_frame e c f t w0) as (Ha & Hs & Hg);
          destruct (SwitchAccountService_saveToHistory e c f t w0) as [r [a s g h]]
      end.
      cbn in Ha, Hs, Hg. subst a s g. unfold ret.
      apply switch_done; rewrite ?Hset, ?Hretrieve, ?Hc; first [reflexivity|discriminate].
    - unfold ret.
      apply switch_done; rewrite ?Hset, ?Hretrieve, ?Hc; reflexivity. }
  destruct currentAccount as [current|]; [|exact Hproceed].
  destruct (String.eqb (Account_ID current) (Account_ID target)); [|exact Hproceed].
  constructor. exact Hcurrent.
Qed.

(** X14. Whatever its input and whatever the stores do, a switch never
    writes to the account repository or to the credential store, and a
    switch that returns an error leaves every store as it was (Config and
    history included). *)
Theorem switch_frame (env : Env) (ctx : Context) (input : SwitchAccountInput) (w : World) :
  let r := SwitchAccountService_Execute env ctx input w in
  accountRepo r.2 = accountRepo w /\
  credentialStore r.2 = credentialStore w /\
  (if is_Err r.1 then r.2 = w else True).
Proof.
  cbv zeta. destruct (Execute_outcome env ctx input w); cbn; auto.
Qed.

(** X15. A switch to another account whose credentials are retrievable
    and whose Config write goes through succeeds whatever the history
    store does (failing loads and failing saves included): the result
    carries the previous and the new account, and Config's current account
    is the target. *)
Theorem switch_success_despite_history (env : Env) (ctx : Context)
    (input : SwitchAccountInput) (w : World) (currentAccount : option Account)
    (target : Account) (creds : Credentials) :
  Context_Err ctx = None ->
  mockConfigManager.GetCurrentAccount (configManager w) = Ok currentAccount ->
  (SwitchAccountService_determineTargetAccount ctx input w).1 = Ok target ->
  another_account currentAccount target ->
  mockCredentialStore.Retrieve (Account_ID target) (credentialStore w) = Ok creds ->
  mockConfigManager.setErr (configManager w) = None ->
  exists w',
    SwitchAccountService_Execute env ctx input w =
      (Ok {| SwitchAccountResult_From := option_map accountToInfo currentAccount;
             SwitchAccountResult_To := accountToInfo target |}, w') /\
    mockConfigManager.currentAccount (configManager w') = Some target /\
    mockConfigManager.GetCurrentAccount (configManager w') = Ok (Some target) /\
    accountRepo w' = accountRepo w /\
    credentialStore w' = credentialStore w.
Proof.
  intros Hctx Hcur Htarget Hother Hretrieve Hset.
  assert (Hget : mockConfigManager.getErr (configManager w) = None).
  { unfold mockConfigManager.GetCurrentAccount in Hcur.
    destruct (mockConfigManager.getErr (configManager w)); [discriminate|reflexivity]. }
  rewrite (Execute_resolved env ctx input w currentAccount target Hctx Hcur Htarget).
  cbv zeta. rewrite (another_account_eqb _ _ Hother).
  assert (Hgoal : exists w',
    (do wrapping
          ("failed to retrieve credentials for account " +:+ Account_Alias target +:+ ": ")
          (reading credentialStore (mockCredentialStore.Retrieve (Account_ID target))) then
     do wrapping "failed to set current account: "
          (config_do (mockConfigManager.SetCurrentAccount (Some target))) then
     do match currentAccount with
        | Some current =>
            do attempt (SwitchAccountService_saveToHistory env ctx
                          (Account_Email current) (Account_Email target)) then
            ret tt
        | None => ret tt
        end then
     ret {| SwitchAccountResult_From := option_map accountToInfo currentAccount;
            SwitchAccountResult_To := accountToInfo target |}) w =
      (Ok {| SwitchAccountResult_From := option_map accountToInfo currentAccount;
             SwitchAccountResult_To := accountToInfo target |}, w') /\
    mockConfigManager.currentAccount (configManager w') = Some target /\
    mockConfigManager.GetCurrentAccount (configManager w') = Ok (Some target) /\
    accountRepo w' = accountRepo w /\
    credentialStore w' = credentialStore w).
  { unfold bind at 1, wrapping at 1, reading at 1. rewrite Hretrieve.
    unfold bind at 1, wrapping at 1, config_do at 1, mockConfigManager.SetCurrentAccount.
    rewrite Hset. unfold bind at 1.
    destruct currentAccount as [current|].
    - unfold bind at 1, attempt at 1.
      match goal with
      | |- context [SwitchAccountService_saveToHistory ?e ?c ?f ?t ?w0] =>
          destruct (saveToHistory_frame e c f t w0) as (Ha & Hs & Hg);
          destruct (SwitchAccountService_saveToHistory e c f t w0) as [r w1]
      end.
      cbn in Ha, Hs, Hg. unfold ret. eexists. split; [reflexivity|].
      unfold mockConfigManager.GetCurrentAccount. rewrite Ha, Hs, Hg. cbn.
      rewrite Hget. auto.
    - unfold ret. eexists. split; [reflexivity|].
      unfold mockConfigManager.GetCurrentAccount. cbn. rewrite Hget. auto. }
  destruct Hgoal as [w' Hw']. exists w'.
  destruct currentAccount; exact Hw'.
Qed.

Lemma switch_success_despite_history_witness :
  let w := Fixture.failing_load Fixture.history_corrupted Fixture.populated in
  exists w',
    SwitchAccountService_Execute (Fixture.env x00) context_Background
      (Fixture.by_alias "work") w =
      (Ok {| SwitchAccountResult_From := Some (accountToInfo Fixture.personal);
             SwitchAccountResult_To := accountToInfo Fixture.work |}, w') /\
    mockConfigManager.currentAccount (configManager w') = Some Fixture.work.
Proof.
  cbv zeta.
  destruct (mockCredentialStore.Retrieve (Account_ID Fixture.work)
              (credentialStore
                 (Fixture.failing_load Fixture.history_corrupted Fixture.populated)))
    as [creds|err] eqn:Hcreds; [|vm_compute in Hcreds; discriminate Hcreds].
  destruct (switch_success_despite_history (Fixture.env x00) context_Background
              (Fixture.by_alias "work")
              (Fixture.failing_load Fixture.history_corrupted Fixture.populated)
              (Some Fixture.personal) Fixture.work creds)
    as (w' & Hexec & Hconfig & _).
  - reflexivity.
  - reflexivity.
  - vm_compute. reflexivity.
  - cbn. vm_compute. discriminate.
  - exact Hcreds.
  - reflexivity.
  - exists w'. split; [exact Hexec|exact Hconfig].
Defined.

Lemma saveToHistory_recorded (env : Env) (ctx : Context) (from to : Email) (w : World)
    (entry : SwitchEntry) :
  mockHistoryRepository.loadErr (historyRepo w) = None ->
  mockHistoryRepository.saveErr (historyRepo w) = None ->
  NewSwitchEntry env from to = Ok entry ->
  SwitchAccountService_saveToHistory env ctx from to w =
  (Ok tt,
   {| accountRepo := accountRepo w;
      credentialStore := credentialStore w;
      configManager := configManager w;
      historyRepo :=
        {| mockHistoryRepository.history :=
             History_AddEntry (Some entry) (mockHistoryRepository.history (historyRepo w));
           mockHistoryRepository.saveErr := None;
           mockHistoryRepository.loadErr := None;
           mockHistoryRepository.saveCalls :=
             mockHistoryRepository.saveCalls (historyRepo w) + 1 |} |}).
Proof.
  intros Hload Hsave Hentry. unfold SwitchAccountService_saveToHistory.
  unfold bind at 1, attempt at 1, reading at 1, mockHistoryRepository.LoadHistory.
  rewrite Hload, Hentry.
  unfold bind at 1, history_do at 1, mockHistoryRepository.update_loaded.
  unfold bind at 1, reading at 1.
  unfold history_do, mockHistoryRepository.SaveHistory.
  cbn [historyRepo accountRepo credentialStore configManager
       mockHistoryRepository.saveErr mockHistoryRepository.history
       mockHistoryRepository.loadErr mockHistoryRepository.saveCalls].
  rewrite Hsave, Hload. reflexivity.
Qed.

(** X16. A switch away from a current account, with a history store that
    loads and saves: the ledger gets the new entry in front (one save), and
    a switch by the previous flag then looks for the account that was
    current before, by its email. *)
Theorem switch_then_previous (env : Env) (ctx : Context)
    (input : SwitchAccountInput) (w : World) (current target : Account)
    (creds : Credentials) (entry : SwitchEntry) :
  Context_Err ctx = None ->
  mockConfigManager.GetCurrentAccount (configManager w) = Ok (Some current) ->
  (SwitchAccountService_determineTargetAccount ctx input w).1 = Ok target ->
  Account_ID current <> Account_ID target ->
  mockCredentialStore.Retrieve (Account_ID target) (credentialStore w) = Ok creds ->
  mockConfigManager.setErr (configManager w) = None ->
  mockHistoryRepository.loadErr (historyRepo w) = None ->
  mockHistoryRepository.saveErr (historyRepo w) = None ->
  NewSwitchEntry env (Account_Email current) (Account_Email target) = Ok entry ->
  History_bounded (mockHistoryRepository.history (historyRepo w)) ->
  exists result w',
    SwitchAccountService_Execute env ctx input w = (Ok result, w') /\
    mockHistoryRepository.history (historyRepo w') =
      History_AddEntry (Some entry) (mockHistoryRepository.history (historyRepo w)) /\
    head (History_Entries (mockHistoryRepository.history (historyRepo w'))) = Some entry /\
    mockHistoryRepository.saveCalls (historyRepo w') =
      mockHistoryRepository.saveCalls (historyRepo w) + 1 /\
    (SwitchAccountService_determineTargetAccount ctx to_previous w').1 =
      mockAccountRepository.FindByEmail (Account_Email current) (accountRepo w).
Proof.
  intros Hctx Hcur Htarget Hother Hretrieve Hset Hload Hsave Hentry Hbounded.
  rewrite (Execute_resolved env ctx input w (Some current) target Hctx Hcur Htarget).
  cbv zeta.
  destruct (String.eqb_spec (Account_ID current) (Account_ID target)) as [|_];
    [contradiction|].
  unfold bind at 1, wrapping at 1, reading at 1. rewrite Hretrieve.
  unfold bind at 1, wrapping at 1, config_do at 1, mockConfigManager.SetCurrentAccount.
  rewrite Hset.
  unfold bind at 1. unfold bind at 1, attempt at 1.
  erewrite (saveToHistory_recorded env ctx _ _ _ entry);
    [|exact Hload|exact Hsave|exact Hentry].
  unfold ret. eexists _, _. split; [reflexivity|].
  cbn [historyRepo accountRepo mockHistoryRepository.history
       mockHistoryRepository.saveCalls].
  assert (Hhead : exists rest,
    entries (History_AddEntry (Some entry) (mockHistoryRepository.history (historyRepo w))) =
    entry :: rest).
  { destruct Hbounded as [Hpos _]. rewrite History_AddEntry_entries by exact Hpos.
    destruct (Z.to_nat _) as [|n] eqn:Hn; [lia|]. cbn [firstn]. eauto. }
  destruct Hhead as [rest Hhead].
  split; [reflexivity|]. split; [unfold History_Entries; rewrite Hhead; reflexivity|].
  split; [reflexivity|].
  unfold SwitchAccountService_determineTargetAccount, to_previous, nonempty.
  cbn [SwitchAccountInput_AccountID SwitchAccountInput_Email SwitchAccountInput_Alias
       SwitchAccountInput_Index SwitchAccountInput_Previous String.eqb negb orb].
  change (0 >? 0) with false. cbv iota.
  unfold SwitchAccountService_getPreviousAccount.
  unfold bind at 1, wrapping at 1, reading at 1, mockHistoryRepository.LoadHistory.
  cbn [historyRepo mockHistoryRepository.loadErr mockHistoryRepository.history].
  unfold History_GetLastSwitch. rewrite Hhead.
  unfold reading. cbn [fst accountRepo].
  assert (Hfrom : SwitchEntry_From entry = Account_Email current).
  { unfold NewSwitchEntry in Hentry.
    destruct (String.eqb (Account_Email current) ""); [discriminate|].
    destruct (String.eqb (Account_Email target) ""); [discriminate|].
    destruct (String.eqb (Account_Email current) (Account_Email target)); [discriminate|].
    injection Hentry as <-. reflexivity. }
  rewrite Hfrom. reflexivity.
Qed.

Lemma switch_then_previous_witness :
  exists result w',
    SwitchAccountService_Execute (Fixture.env x00) context_Background
      (Fixture.by_alias "work") Fixture.populated = (Ok result, w') /\
    History_Entries (mockHistoryRepository.history (historyRepo w')) =
      [Fixture.personal_to_work] /\
    (SwitchAccountService_determineTargetAccount context_Background to_previous w').1 =
      Ok Fixture.personal.
Proof.
  destruct (mockCredentialStore.Retrieve (Account_ID Fixture.work)
              (credentialStore Fixture.populated))
    as [creds|err] eqn:Hcreds; [|vm_compute in Hcreds; discriminate Hcreds].
  destruct (switch_then_previous (Fixture.env x00) context_Background
              (Fixture.by_alias "work") Fixture.populated
              Fixture.personal Fixture.work creds Fixture.personal_to_work)
    as (result & w' & Hexec & Hledger & _ & _ & Hprevious).
  - reflexivity.
  - reflexivity.
  - vm_compute. reflexivity.
  - vm_compute. discriminate.
  - exact Hcreds.
  - reflexivity.
  - reflexivity.
  - reflexivity.
  - reflexivity.
  - apply NewHistory_bounded.
  - exists result, w'. split; [exact Hexec|]. split.
    + rewrite Hledger. reflexivity.
    + rewrite Hprevious. vm_compute. reflexivity.
Defined.

(** X17. Switch wants exactly one way of naming the target, and checks
    this after reading the current account and before any lookup.  An
    index counts as given only when it is positive.  With the previous
    flag and anything else the error is the previous-flag conflict; with
    no flag and nothing given, the missing-identifier error; with no flag
    and two or more given, the multiple-identifiers error.  No store is
    changed. *)
Theorem switch_selector_errors (env : Env) (ctx : Context) (input : SwitchAccountInput)
    (w : World) (err : error) :
  Context_Err ctx = None ->
  mockConfigManager.getErr (configManager w) = None ->
  selector_error input = Some err ->
  SwitchAccountService_Execute env ctx input w = (Err err, w).
Proof.
  intros Hctx Hget Hsel.
  unfold SwitchAccountService_Execute. rewrite Hctx.
  unfold bind at 1, wrapping at 1, reading at 1, mockConfigManager.GetCurrentAccount.
  rewrite Hget. unfold bind at 1.
  assert (Htarget : SwitchAccountService_determineTargetAccount ctx input w = (Err err, w)).
  { unfold SwitchAccountService_determineTargetAccount.
    unfold selector_error, selector_count in Hsel.
    destruct (SwitchAccountInput_Previous input).
    - destruct (nonempty (SwitchAccountInput_AccountID input));
        destruct (nonempty (SwitchAccountInput_Email input));
        destruct (nonempty (SwitchAccountInput_Alias input));
        destruct (SwitchAccountInput_Index input >? 0);
        vm_compute in Hsel; try discriminate Hsel; injection Hsel as <-; reflexivity.
    - destruct (nonempty (SwitchAccountInput_AccountID input));
        destruct (nonempty (SwitchAccountInput_Email input));
        destruct (nonempty (SwitchAccountInput_Alias input));
        destruct (SwitchAccountInput_Index input >? 0);
        vm_compute in Hsel; try discriminate Hsel; injection Hsel as <-; reflexivity. }
  rewrite Htarget. reflexivity.
Qed.

Lemma switch_selector_errors_witness :
  SwitchAccountService_Execute (Fixture.env x00) context_Background
    {| SwitchAccountInput_AccountID := ""; SwitchAccountInput_Email := "";
       SwitchAccountInput_Alias := "work"; SwitchAccountInput_Index := 0;
       SwitchAccountInput_Previous := true |} Fixture.populated =
  (Err (New "previous flag cannot be combined with other input methods"), Fixture.populated).
Proof.
  apply switch_selector_errors; reflexivity.
Defined.

(** ** Remove *)

(** Remove up to the removal itself. *)
Lemma RemoveAccountService_Execute_found (ctx : Context) (input : RemoveAccountInput)
    (w : World) (account : Account) :
  RemoveAccountInput_AccountID input <> "" ->
  Context_Err ctx = None ->
  mockAccountRepository.FindByID (RemoveAccountInput_AccountID input) (accountRepo w) =
    Ok account ->
  exists metadata,
    accountInfo metadata = accountToInfo account /\
    isCurrentAccount metadata = is_current w account /\
    isLastAccount metadata =
      (length (mockAccountRepository.values (accountRepo w)) =? 1)%nat /\
    backupCredentials metadata =
      match mockCredentialStore.Retrieve (Account_ID account) (credentialStore w) with
      | Ok creds => Some creds
      | Err _ => None
      end /\
    RemoveAccountService_Execute ctx input w =
      match RemoveAccountService_performRemoval ctx account metadata w with
      | (Ok _, w') =>
          (Ok {| RemovedAccount := accountInfo metadata;
                 WasCurrentAccount := isCurrentAccount metadata;
                 WasLastAccount := isLastAccount metadata |}, w')
      | (Err e, w') => (Err e, w')
      end.
Proof.
  intros Hid Hctx Hfind.
  assert (Hfe : mockAccountRepository.findErr (accountRepo w) = None).
  { unfold mockAccountRepository.FindByID in Hfind.
    destruct (mockAccountRepository.findErr (accountRepo w)); [discriminate|reflexivity]. }
  eexists {| accountInfo := accountToInfo account;
             isCurrentAccount := is_current w account;
             isLastAccount := _; backupCredentials := _ |}.
  cbn [accountInfo isCurrentAccount isLastAccount backupCredentials].
  split; [reflexivity|]. split; [reflexivity|]. split; [reflexivity|].
  split; [reflexivity|].
  unfold RemoveAccountService_Execute, RemoveAccountService_validateInput.
  unfold bind at 1. destruct (String.eqb_spec (RemoveAccountInput_AccountID input) "");
    [contradiction|].
  rewrite Hctx. unfold ret at 1.
  unfold bind at 1, wrapping at 1, reading at 1. rewrite Hfind.
  unfold bind at 1. unfold RemoveAccountService_getRemovalMetadata.
  unfold bind at 1, attempt at 1, reading at 1.
  unfold bind at 1, wrapping at 1, reading at 1, mockAccountRepository.List.
  rewrite Hfe.
  unfold bind at 1, attempt at 1, reading at 1. unfold ret at 1.
  unfold bind at 1. unfold is_current.
  destruct (RemoveAccountService_performRemoval ctx account _ w) as [[[]|e] w'];
    reflexivity.
Qed.

(** X18. A Remove whose credential deletion fails stops there: the error
    is the store's, wrapped, and every store is as it was (the account
    and its credentials are still there). *)
Theorem remove_credential_delete_failure (ctx : Context) (input : RemoveAccountInput)
    (w : World) (account : Account) (e : error) :
  RemoveAccountInput_AccountID input <> "" ->
  Context_Err ctx = None ->
  mockAccountRepository.FindByID (RemoveAccountInput_AccountID input) (accountRepo w) =
    Ok account ->
  mockCredentialStore.deleteErr (credentialStore w) = Some e ->
  RemoveAccountService_Execute ctx input w =
    (Err (Wrap "failed to delete credentials: " e), w).
Proof.
  intros Hid Hctx Hfind Hdel.
  destruct (RemoveAccountService_Execute_found ctx input w account Hid Hctx Hfind)
    as (metadata & _ & _ & _ & _ & ->).
  unfold RemoveAccountService_performRemoval.
  unfold bind at 1, wrapping at 1, credentials_do at 1, mockCredentialStore.Delete.
  rewrite Hdel. destruct w; reflexivity.
Qed.

Lemma remove_credential_delete_failure_witness :
  let w := Fixture.failing_credentials None None (Some Fixture.keychain_locked)
             Fixture.populated in
  RemoveAccountService_Execute context_Background Fixture.remove_work w =
    (Err (Wrap "failed to delete credentials: " Fixture.keychain_locked), w).
Proof.
  cbv zeta.
  apply (remove_credential_delete_failure context_Background Fixture.remove_work _
           Fixture.work).
  - discriminate.
  - reflexivity.
  - vm_compute. reflexivity.
  - reflexivity.
Defined.

Lemma updateHistory_eq (ctx : Context) (w : World) :
  RemoveAccountService_updateHistory ctx w =
  (Ok tt,
   {| accountRepo := accountRepo w;
      credentialStore := credentialStore w;
      configManager := configManager w;
      historyRepo :=
        match mockHistoryRepository.loadErr (historyRepo w) with
        | None =>
            {| mockHistoryRepository.history := mockHistoryRepository.history (historyRepo w);
               mockHistoryRepository.saveErr := mockHistoryRepository.saveErr (historyRepo w);
               mockHistoryRepository.loadErr := mockHistoryRepository.loadErr (historyRepo w);
               mockHistoryRepository.saveCalls :=
                 mockHistoryRepository.saveCalls (historyRepo w) + 1 |}
        | Some _ => historyRepo w
        end |}).
Proof.
  unfold RemoveAccountService_updateHistory. run.
  unfold mockHistoryRepository.LoadHistory, mockHistoryRepository.SaveHistory.
  destruct (mockHistoryRepository.loadErr (historyRepo w)) eqn:Hload.
  - destruct w; reflexivity.
  - destruct (mockHistoryRepository.saveErr (historyRepo w)) eqn:Hsave;
      cbn; rewrite ?Hload, ?Hsave; reflexivity.
Qed.

Lemma rollbackFull_eq (ctx : Context) (account : Account) (backup : option Credentials)
    (w : World) :
  RemoveAccountService_rollbackFull ctx account backup w =
  (Ok tt,
   let w1 := {| accountRepo := (mockAccountRepository.Save account (accountRepo w)).2;
                credentialStore := credentialStore w;
                configManager := configManager w;
                historyRepo := historyRepo w |} in
   match backup with
   | Some creds =>
       with_credentialStore w1 (mockCredentialStore.Store creds (credentialStore w1)).2
   | None => w1
   end).
Proof.
  unfold RemoveAccountService_rollbackFull.
  unfold bind at 1, attempt at 1, accounts_do at 1.
  destruct (mockAccountRepository.Save account (accountRepo w)) as [r s].
  rewrite rollbackCredentials_eq. reflexivity.
Qed.

Lemma performRemoval_deleted (ctx : Context) (account : Account)
    (metadata : removalMetadata) (w : World) :
  mockCredentialStore.deleteErr (credentialStore w) = None ->
  mockAccountRepository.deleteErr (accountRepo w) = None ->
  RemoveAccountService_performRemoval ctx account metadata w =
  let w1 := both_deleted w (Account_ID account) in
  if isCurrentAccount metadata then
    match mockConfigManager.setErr (configManager w) with
    | Some e =>
        (Err (Wrap "failed to clear current account configuration: " e),
         (RemoveAccountService_rollbackFull ctx account (backupCredentials metadata) w1).2)
    | None =>
        RemoveAccountService_updateHistory ctx
          {| accountRepo := accountRepo w1;
             credentialStore := credentialStore w1;
             configManager :=
               {| mockConfigManager.currentAccount := None;
                  mockConfigManager.getErr := mockConfigManager.getErr (configManager w);
                  mockConfigManager.setErr := mockConfigManager.setErr (configManager w) |};
             historyRepo := historyRepo w |}
    end
  else (Ok tt, w1).
Proof.
  intros Hcdel Hadel. unfold RemoveAccountService_performRemoval.
  unfold bind at 1, wrapping at 1, credentials_do at 1, mockCredentialStore.Delete.
  rewrite Hcdel.
  unfold bind at 1, attempt at 1, accounts_do at 1, mockAccountRepository.Delete.
  cbn [accountRepo]. rewrite Hadel. cbv zeta.
  destruct (isCurrentAccount metadata); [|reflexivity].
  unfold bind at 1, attempt at 1, config_do at 1, mockConfigManager.SetCurrentAccount.
  cbn [configManager accountRepo credentialStore historyRepo].
  destruct (mockConfigManager.setErr (configManager w)) eqn:Hset.
  - unfold bind at 1.
    match goal with
    | |- context [RemoveAccountService_rollbackFull ?c ?a ?b ?w0] =>
        change w0 with (both_deleted w (Account_ID account))
    end.
    rewrite rollbackFull_eq. reflexivity.
  - reflexivity.
Qed.

(** X19. A Remove whose deletions go through and which, when the account
    is the current one, can clear Config: it reports the removed account,
    whether it was the current one (by ID) and whether it was the only one
    listed; the account and its credentials are gone; Config's current
    account is cleared if it was this account and untouched otherwise; the
    ledger is never changed (when the account was current it is loaded and
    saved back as it is). *)
Theorem remove_success (ctx : Context) (input : RemoveAccountInput) (w : World)
    (account : Account) :
  RemoveAccountInput_AccountID input <> "" ->
  Context_Err ctx = None ->
  mockAccountRepository.FindByID (RemoveAccountInput_AccountID input) (accountRepo w) =
    Ok account ->
  mockCredentialStore.deleteErr (credentialStore w) = None ->
  mockAccountRepository.deleteErr (accountRepo w) = None ->
  is_current w account = false \/ mockConfigManager.setErr (configManager w) = None ->
  exists w',
    RemoveAccountService_Execute ctx input w =
      (Ok {| RemovedAccount := accountToInfo account;
             WasCurrentAccount := is_current w account;
             WasLastAccount :=
               (length (mockAccountRepository.values (accountRepo w)) =? 1)%nat |}, w') /\
    mockAccountRepository.accounts (accountRepo w') =
      delete (Account_ID account) (mockAccountRepository.accounts (accountRepo w)) /\
    mockCredentialStore.credentials (credentialStore w') =
      delete (Account_ID account) (mockCredentialStore.credentials (credentialStore w)) /\
    mockConfigManager.currentAccount (configManager w') =
      (if is_current w account then None
       else mockConfigManager.currentAccount (configManager w)) /\
    mockHistoryRepository.history (historyRepo w') =
      mockHistoryRepository.history (historyRepo w) /\
    mockHistoryRepository.saveCalls (historyRepo w') =
      mockHistoryRepository.saveCalls (historyRepo w) +
      (if is_current w account
       then match mockHistoryRepository.loadErr (historyRepo w) with
            | None => 1
            | Some _ => 0
            end
       else 0).
Proof.
  intros Hid Hctx Hfind Hcdel Hadel Hclear.
  destruct (RemoveAccountService_Execute_found ctx input w account Hid Hctx Hfind)
    as (metadata & Hinfo & Hcurrent & Hlast & _ & ->).
  rewrite (performRemoval_deleted ctx account metadata w Hcdel Hadel).
  cbv zeta. rewrite Hinfo, Hcurrent, Hlast.
  destruct (is_current w account) eqn:Hc.
  - destruct Hclear as [Hclear|Hset]; [discriminate|]. rewrite Hset.
    rewrite updateHistory_eq. eexists. split; [reflexivity|].
    cbn [accountRepo credentialStore configManager historyRepo both_deleted
         mockAccountRepository.with_accounts mockAccountRepository.accounts
         mockCredentialStore.with_credentials mockCredentialStore.credentials
         mockConfigManager.currentAccount].
    repeat (split; [reflexivity|]).
    destruct (mockHistoryRepository.loadErr (historyRepo w)); cbn; split; (reflexivity || lia).
  - eexists. split; [reflexivity|]. cbn. repeat (split; [reflexivity|]). lia.
Qed.

Lemma remove_success_witness :
  exists w',
    RemoveAccountService_Execute context_Background
      {| RemoveAccountInput_AccountID := Account_ID Fixture.personal |} Fixture.populated =
      (Ok {| RemovedAccount := accountToInfo Fixture.personal;
             WasCurrentAccount := true;
             WasLastAccount := false |}, w') /\
    mockConfigManager.currentAccount (configManager w') = None /\
    mockHistoryRepository.saveCalls (historyRepo w') = 1.
Proof.
  destruct (remove_success context_Background
              {| RemoveAccountInput_AccountID := Account_ID Fixture.personal |}
              Fixture.populated Fixture.personal)
    as (w' & Hexec & _ & _ & Hconfig & _ & Hcalls).
  - discriminate.
  - reflexivity.
  - vm_compute. reflexivity.
  - reflexivity.
  - reflexivity.
  - right. reflexivity.
  - exists w'. split; [exact Hexec|]. split; [exact Hconfig|exact Hcalls].
Defined.

(** X20. A Remove of the current account whose deletions go through and
    whose Config clear fails returns the clear error, with Config and the
    history as they were, after putting back what it deleted as far as the
    stores let it: the account record by a [Save], the credentials from
    the backup by a [Store], both outcomes ignored.  The account is back
    when the save is accepted, and gone when it is refused; the
    credentials are back when a backup was retrievable and the store
    accepts it, and gone otherwise. *)
Theorem remove_config_clear_failure (ctx : Context) (input : RemoveAccountInput)
    (w : World) (account : Account) (e : error) :
  RemoveAccountInput_AccountID input <> "" ->
  Context_Err ctx = None ->
  mockAccountRepository.FindByID (RemoveAccountInput_AccountID input) (accountRepo w) =
    Ok account ->
  mockAccountRepository.accounts (accountRepo w) !! Account_ID account = Some account ->
  filed_by_id (credentialStore w) ->
  is_current w account = true ->
  mockCredentialStore.deleteErr (credentialStore w) = None ->
  mockAccountRepository.deleteErr (accountRepo w) = None ->
  mockConfigManager.setErr (configManager w) = Some e ->
  exists w',
    RemoveAccountService_Execute ctx input w =
      (Err (Wrap "failed to clear current account configuration: " e), w') /\
    configManager w' = configManager w /\
    historyRepo w' = historyRepo w /\
    mockAccountRepository.accounts (accountRepo w') =
      match mockAccountRepository.saveErr (accountRepo w) with
      | None => mockAccountRepository.accounts (accountRepo w)
      | Some _ =>
          delete (Account_ID account) (mockAccountRepository.accounts (accountRepo w))
      end /\
    mockCredentialStore.credentials (credentialStore w') =
      match mockCredentialStore.Retrieve (Account_ID account) (credentialStore w),
            mockCredentialStore.storeErr (credentialStore w) with
      | Ok _, None => mockCredentialStore.credentials (credentialStore w)
      | _, _ =>
          delete (Account_ID account) (mockCredentialStore.credentials (credentialStore w))
      end.
Proof.
  intros Hid Hctx Hfind Hfiled Hcfiled Hcurrent Hcdel Hadel Hset.
  destruct (RemoveAccountService_Execute_found ctx input w account Hid Hctx Hfind)
    as (metadata & _ & Hcur & _ & Hbackup & ->).
  rewrite (performRemoval_deleted ctx account metadata w Hcdel Hadel).
  cbv zeta. rewrite Hcur, Hcurrent, Hset, rollbackFull_eq, Hbackup.
  eexists. split; [reflexivity|]. cbv zeta.
  unfold mockAccountRepository.Save, both_deleted.
  cbn [accountRepo credentialStore configManager historyRepo
       mockAccountRepository.saveErr mockAccountRepository.with_accounts
       mockAccountRepository.accounts].
  assert (Haccounts :
    mockAccountRepository.accounts
      (match mockAccountRepository.saveErr (accountRepo w) with
       | Some err =>
           (Err err,
            mockAccountRepository.with_accounts (accountRepo w)
              (delete (Account_ID account) (mockAccountRepository.accounts (accountRepo w))))
       | None =>
           (Ok tt,
            mockAccountRepository.with_accounts
              (mockAccountRepository.with_accounts (accountRepo w)
                 (delete (Account_ID account)
                    (mockAccountRepository.accounts (accountRepo w))))
              (<[Account_ID account := account]>
                 (delete (Account_ID account)
                    (mockAccountRepository.accounts (accountRepo w)))))
       end).2 =
    match mockAccountRepository.saveErr (accountRepo w) with
    | None => mockAccountRepository.accounts (accountRepo w)
    | Some _ =>
        delete (Account_ID account) (mockAccountRepository.accounts (accountRepo w))
    end).
  { destruct (mockAccountRepository.saveErr (accountRepo w)); cbn; [reflexivity|].
    apply insert_delete_id, Hfiled. }
  unfold mockCredentialStore.Retrieve.
  destruct (mockCredentialStore.retrieveErr (credentialStore w)).
  { cbn [with_credentialStore accountRepo credentialStore configManager historyRepo
         mockCredentialStore.with_credentials mockCredentialStore.credentials].
    repeat (split; [first [reflexivity|exact Haccounts]|]). reflexivity. }
  destruct (mockCredentialStore.credentials (credentialStore w) !! Account_ID account)
    as [backup|] eqn:Hlookup.
  2:{ cbn [with_credentialStore accountRepo credentialStore configManager historyRepo
           mockCredentialStore.with_credentials mockCredentialStore.credentials].
      repeat (split; [first [reflexivity|exact Haccounts]|]). reflexivity. }
  unfold with_credentialStore, mockCredentialStore.Store.
  cbn [accountRepo credentialStore configManager historyRepo
       mockCredentialStore.storeErr mockCredentialStore.with_credentials].
  split; [reflexivity|]. split; [reflexivity|]. split; [exact Haccounts|].
  destruct (mockCredentialStore.storeErr (credentialStore w)); cbn; [reflexivity|].
  rewrite (Hcfiled _ _ Hlookup). apply insert_delete_id, Hlookup.
Qed.

Lemma remove_config_clear_failure_witness :
  let w := Fixture.failing_set Fixture.config_locked Fixture.populated in
  exists w',
    RemoveAccountService_Execute context_Background
      {| RemoveAccountInput_AccountID := Account_ID Fixture.personal |} w =
      (Err (Wrap "failed to clear current account configuration: " Fixture.config_locked),
       w') /\
    mockAccountRepository.accounts (accountRepo w') =
      mockAccountRepository.accounts (accountRepo w) /\
    mockCredentialStore.credentials (credentialStore w') =
      mockCredentialStore.credentials (credentialStore w).
Proof.
  cbv zeta.
  destruct (remove_config_clear_failure context_Background
              {| RemoveAccountInput_AccountID := Account_ID Fixture.personal |}
              (Fixture.failing_set Fixture.config_locked Fixture.populated)
              Fixture.personal Fixture.config_locked)
    as (w' & Hexec & _ & _ & Haccounts & Hcreds).
  - discriminate.
  - reflexivity.
  - vm_compute. reflexivity.
  - vm_compute. reflexivity.
  - apply populated_filed_by_id. reflexivity.
  - vm_compute. reflexivity.
  - reflexivity.
  - reflexivity.
  - reflexivity.
  - exists w'. split; [exact Hexec|]. split; [exact Haccounts|].
    rewrite Hcreds.
    destruct (mockCredentialStore.Retrieve (Account_ID Fixture.personal)
                (credentialStore (Fixture.failing_set Fixture.config_locked Fixture.populated)))
      as [backup|err] eqn:Hbackup; [reflexivity|vm_compute in Hbackup; discriminate Hbackup].
Defined.

Lemma performRemoval_credential_delete_failed (ctx : Context) (account : Account)
    (metadata : removalMetadata) (w : World) (e : error) :
  mockCredentialStore.deleteErr (credentialStore w) = Some e ->
  RemoveAccountService_performRemoval ctx account metadata w =
  (Err (Wrap "failed to delete credentials: " e), w).
Proof.
  intros Hdel. unfold RemoveAccountService_performRemoval.
  unfold bind at 1, wrapping at 1, credentials_do at 1, mockCredentialStore.Delete.
  rewrite Hdel. destruct w; reflexivity.
Qed.

Lemma performRemoval_frame (ctx : Context) (account : Account)
    (metadata : removalMetadata) (w : World) (id : AccountID) :
  match backupCredentials metadata with
  | Some backup => Credentials_AccountID backup = Account_ID account
  | None => True
  end ->
  removal_frame w (RemoveAccountService_performRemoval ctx account metadata w).2 account id.
Proof.
  intros Hbackup. unfold removal_frame.
  destruct (mockCredentialStore.deleteErr (credentialStore w)) as [e|] eqn:Hcdel.
  { rewrite (performRemoval_credential_delete_failed ctx account metadata w e Hcdel).
    cbn. auto. }
  destruct (mockAccountRepository.deleteErr (accountRepo w)) as [e|] eqn:Hadel.
  { rewrite (performRemoval_account_delete_failed ctx account metadata w e Hcdel Hadel).
    cbv zeta. unfold with_credentialStore.
    cbn [snd accountRepo credentialStore configManager historyRepo].
    split; [reflexivity|]. split; [left; reflexivity|]. intros Hne. split; [reflexivity|].
    destruct (backupCredentials metadata) as [backup|].
    - unfold mockCredentialStore.Store. cbn [mockCredentialStore.storeErr
        mockCredentialStore.with_credentials].
      destruct (mockCredentialStore.storeErr (credentialStore w)); cbn.
      + apply lookup_delete_ne. congruence.
      + rewrite Hbackup, lookup_insert_ne, lookup_delete_ne by congruence. reflexivity.
    - cbn. apply lookup_delete_ne. congruence. }
  rewrite (performRemoval_deleted ctx account metadata w Hcdel Hadel). cbv zeta.
  destruct (isCurrentAccount metadata).
  2:{ cbn. split; [reflexivity|]. split; [left; reflexivity|]. intros Hne.
      split; apply lookup_delete_ne; congruence. }
  destruct (mockConfigManager.setErr (configManager w)) as [e|].
  - rewrite rollbackFull_eq. cbv zeta.
    unfold with_credentialStore, both_deleted, mockAccountRepository.Save.
    cbn [snd accountRepo credentialStore configManager historyRepo
         mockAccountRepository.saveErr mockAccountRepository.with_accounts
         mockAccountRepository.accounts].
    assert (Hacc : id <> Account_ID account ->
      mockAccountRepository.accounts
        (match mockAccountRepository.saveErr (accountRepo w) with
         | Some err =>
             (Err err,
              mockAccountRepository.with_accounts (accountRepo w)
                (delete (Account_ID account)
                   (mockAccountRepository.accounts (accountRepo w))))
         | None =>
             (Ok tt,
              mockAccountRepository.with_accounts
                (mockAccountRepository.with_accounts (accountRepo w)
                   (delete (Account_ID account)
                      (mockAccountRepository.accounts (accountRepo w))))
                (<[Account_ID account := account]>
                   (delete (Account_ID account)
                      (mockAccountRepository.accounts (accountRepo w)))))
         end).2 !! id = mockAccountRepository.accounts (accountRepo w) !! id).
    { intros Hne. destruct (mockAccountRepository.saveErr (accountRepo w)); cbn.
      - apply lookup_delete_ne. congruence.
      - rewrite lookup_insert_ne, lookup_delete_ne by congruence. reflexivity. }
    destruct (backupCredentials metadata) as [backup|];
      cbn [accountRepo credentialStore configManager historyRepo].
    + split; [reflexivity|]. split; [left; reflexivity|]. intros Hne.
      split; [exact (Hacc Hne)|].
      unfold mockCredentialStore.Store.
      cbn [mockCredentialStore.storeErr mockCredentialStore.with_credentials].
      destruct (mockCredentialStore.storeErr (credentialStore w)); cbn.
      * apply lookup_delete_ne. congruence.
      * rewrite Hbackup, lookup_insert_ne, lookup_delete_ne by congruence. reflexivity.
    + split; [reflexivity|]. split; [left; reflexivity|]. intros Hne.
      split; [exact (Hacc Hne)|]. cbn. apply lookup_delete_ne. congruence.
  - rewrite updateHistory_eq.
    cbn [snd accountRepo credentialStore configManager historyRepo both_deleted
         mockConfigManager.currentAccount].
    split; [destruct (mockHistoryRepository.loadErr (historyRepo w)); reflexivity|].
    split; [right; reflexivity|]. intros Hne.
    split; cbn; apply lookup_delete_ne; congruence.
Qed.

(** X21. Whatever its input and whatever the stores do, a Remove never
    changes the ledger, changes Config's current account at most to none,
    and (in a credential store that files records under their own account
    ID) never touches the account record or the credentials filed under
    any other ID than that of the account it removes; when the account is
    not found, or the ID is empty, or the context is cancelled, it changes
    nothing at all. *)
Theorem remove_frame (ctx : Context) (input : RemoveAccountInput) (w : World)
    (id : AccountID) :
  filed_by_id (credentialStore w) ->
  let r := RemoveAccountService_Execute ctx input w in
  mockHistoryRepository.history (historyRepo r.2) =
    mockHistoryRepository.history (historyRepo w) /\
  (mockConfigManager.currentAccount (configManager r.2) =
     mockConfigManager.currentAccount (configManager w) \/
   mockConfigManager.currentAccount (configManager r.2) = None) /\
  match mockAccountRepository.FindByID (RemoveAccountInput_AccountID input) (accountRepo w),
        String.eqb (RemoveAccountInput_AccountID input) "", Context_Err ctx with
  | Ok account, false, None =>
      if String.eqb id (Account_ID account) then True
      else mockAccountRepository.accounts (accountRepo r.2) !! id =
             mockAccountRepository.accounts (accountRepo w) !! id /\
           mockCredentialStore.credentials (credentialStore r.2) !! id =
             mockCredentialStore.credentials (credentialStore w) !! id
  | _, _, _ => r.2 = w
  end.
Proof.
  intros Hfiled. cbv zeta.
  destruct (String.eqb_spec (RemoveAccountInput_AccountID input) "") as [Hempty|Hid].
  { assert (Hr : RemoveAccountService_Execute ctx input w =
                 (Err (New "account ID is required"), w)).
    { unfold RemoveAccountService_Execute, RemoveAccountService_validateInput.
      unfold bind at 1. rewrite Hempty. reflexivity. }
    rewrite Hr. cbn. repeat split; auto.
    destruct (mockAccountRepository.FindByID _ _); reflexivity. }
  destruct (Context_Err ctx) as [err|] eqn:Hctx.
  { rewrite (remove_cancelled ctx input w err Hctx). cbn. repeat split; auto.
    destruct (mockAccountRepository.FindByID _ _); reflexivity. }
  destruct (mockAccountRepository.FindByID (RemoveAccountInput_AccountID input)
              (accountRepo w)) as [account|e] eqn:Hfind.
  2:{ assert (Hr : RemoveAccountService_Execute ctx input w =
                   (Err (Wrap "failed to find account: " e), w)).
      { unfold RemoveAccountService_Execute, RemoveAccountService_validateInput.
        unfold bind at 1.
        destruct (String.eqb_spec (RemoveAccountInput_AccountID input) "");
          [contradiction|].
        rewrite Hctx. unfold ret at 1.
        unfold bind at 1, wrapping at 1, reading at 1. rewrite Hfind. reflexivity. }
      rewrite Hr. cbn. auto. }
  destruct (RemoveAccountService_Execute_found ctx input w account Hid Hctx Hfind)
    as (metadata & _ & _ & _ & Hbackup & ->).
  destruct (performRemoval_frame ctx account metadata w id) as (Hledger & Hconfig & Hother).
  { rewrite Hbackup. unfold mockCredentialStore.Retrieve.
    destruct (mockCredentialStore.retrieveErr (credentialStore w)); [exact I|].
    destruct (mockCredentialStore.credentials (credentialStore w) !! Account_ID account)
      as [backup|] eqn:Hlookup; [|exact I].
    apply (Hfiled _ _ Hlookup). }
  destruct (RemoveAccountService_performRemoval ctx account metadata w) as [[[]|e] w'];
    cbn [fst snd] in *;
    (split; [exact Hledger|]); (split; [exact Hconfig|]);
    (destruct (String.eqb_spec id (Account_ID account)); [exact I|apply Hother; assumption]).
Qed.

Lemma remove_frame_witness :
  let r := RemoveAccountService_Execute context_Background Fixture.remove_work
             Fixture.populated in
  mockAccountRepository.accounts (accountRepo r.2) !! Account_ID Fixture.personal =
    Some Fixture.personal.
Proof.
  cbv zeta.
  destruct (remove_frame context_Background Fixture.remove_work Fixture.populated
              (Account_ID Fixture.personal)) as (_ & _ & Hother).
  - apply populated_filed_by_id. reflexivity.
  - cbv zeta in Hother.
    change (mockAccountRepository.FindByID (RemoveAccountInput_AccountID Fixture.remove_work)
              (accountRepo Fixture.populated)) with (Ok Fixture.work) in Hother.
    cbn [RemoveAccountInput_AccountID Fixture.remove_work] in Hother.
    change (String.eqb (Account_ID Fixture.work) "") with false in Hother.
    change (Context_Err context_Background) with (@None error) in Hother.
    change (String.eqb (Account_ID Fixture.personal) (Account_ID Fixture.work))
      with false in Hother.
    cbv iota in Hother. destruct Hother as [Hacc _]. rewrite Hacc. reflexivity.
Defined.

(** ** List *)

(** X22. Listing never writes.  Under a cancelled context it returns the
    context's error, wrapped, without reading; when the repository cannot
    be read, that error, wrapped; otherwise one entry per stored account,
    among them the entry of every account the repository holds. *)
Theorem list_accounts_spec (ctx : Context) (w : World) :
  let r := ListAccountsService_Execute ctx w in
  r.2 = w /\
  match Context_Err ctx, mockAccountRepository.findErr (accountRepo w) with
  | Some err, _ => r.1 = Err (Wrap "context cancelled: " err)
  | None, Some e => r.1 = Err (Wrap "failed to list accounts: " e)
  | None, None =>
      exists infos,
        r.1 = Ok infos /\
        length infos = size (mockAccountRepository.accounts (accountRepo w)) /\
        forall id account,
          mockAccountRepository.accounts (accountRepo w) !! id = Some account ->
          In (accountToInfo account) infos
  end.
Proof.
  cbv zeta. unfold ListAccountsService_Execute.
  destruct (Context_Err ctx) as [err|]; [split; reflexivity|].
  unfold bind, wrapping, reading, ret, mockAccountRepository.List.
  destruct (mockAccountRepository.findErr (accountRepo w)); [split; reflexivity|].
  split; [reflexivity|]. eexists. split; [reflexivity|]. split.
  - rewrite length_map. unfold mockAccountRepository.values.
    rewrite length_fmap. apply length_map_to_list.
  - intros id account Hlookup. apply in_map. eapply values_lookup, Hlookup.
Qed.

(** * Creation of accounts, resolution of inputs, rejections *)

Lemma ValidateEmail_shaped (email : string) :
  email_shape email -> ValidateEmail email = None.
Proof.
  intros H. pose proof H as (l & d & t & -> & Hl & _).
  apply emailRegex_lang, MatchString_lang in H.
  unfold ValidateEmail. rewrite H.
  destruct l as [|c l]; [contradiction|]. reflexivity.
Qed.

Lemma validateAlias_valid (alias : string) :
  all_chars alias_char alias = true -> alias <> "" -> validateAlias alias = None.
Proof.
  intros Hall Hne. unfold validateAlias.
  destruct (strings_Contains alias " ") eqn:Hc.
  - rewrite (contains_space_not_all alias_char alias eq_refl Hc) in Hall. discriminate.
  - replace (MatchString aliasRegex alias) with true; [reflexivity|].
    symmetry. apply aliasRegex_matches. auto.
Qed.

(** X23. An account is created exactly when the email has the shape of an
    email, the UUID is not empty, and the alias is made of letters, digits,
    hyphens and underscores (the empty alias included).  The email is looked
    at first, then the UUID, then the alias.  The new account has the
    generated ID, the given email, alias and UUID, and the current time as
    both its creation and its last-use time. *)
Theorem NewAccount_spec (env : Env) (email alias uuid : string) :
  (is_Ok (NewAccount env email alias uuid) = true <->
   email_shape email /\ uuid <> "" /\ all_chars alias_char alias = true) /\
  match NewAccount env email alias uuid with
  | Ok account =>
      account = {| Account_ID := GenerateAccountID env;
                   Account_Email := email;
                   Account_Alias := alias;
                   Account_UUID := uuid;
                   Account_CreatedAt := time_Now env;
                   Account_LastUsed := time_Now env |}
  | Err err =>
      ValidateEmail email = Some err \/
      (ValidateEmail email = None /\ uuid = "" /\ err = New "uuid cannot be empty") \/
      (ValidateEmail email = None /\ uuid <> "" /\ alias <> "" /\
       validateAlias alias = Some err)
  end.
Proof.
  unfold NewAccount.
  destruct (ValidateEmail email) as [e|] eqn:Hemail.
  { split; [|left; reflexivity]. split; [discriminate|].
    intros (Hshape & _). apply ValidateEmail_shaped in Hshape. congruence. }
  apply ValidateEmail_accepted in Hemail as Hshape.
  destruct (String.eqb_spec uuid "") as [->|Huuid].
  { split; [|right; left; auto]. split; [discriminate|]. intros (_ & H & _). contradiction. }
  destruct (String.eqb_spec alias "") as [->|Halias]; cbn [negb].
  { split; [|reflexivity]. split; auto. }
  destruct (validateAlias alias) as [e|] eqn:Hv.
  - split; [|right; right; auto]. split; [discriminate|].
    intros (_ & _ & Hall). rewrite (validateAlias_valid alias Hall Halias) in Hv. discriminate.
  - split; [|reflexivity]. split; [|reflexivity]. intros _.
    apply validateAlias_accepted in Hv as [_ Hall]. auto.
Qed.

Lemma ReplaceAll_at_free (s : string) :
  ~ In "@"%char (list_ascii_of_string (strings_ReplaceAll s "@" "-")).
Proof.
  induction s as [|c s IH]; [intros []|].
  cbn [strings_ReplaceAll]. destruct (Ascii.eqb_spec c "@") as [->|Hne].
  - change ("-" +:+ strings_ReplaceAll s "@" "-")
      with (String "-" (strings_ReplaceAll s "@" "-")).
    cbn [list_ascii_of_string In]. intros [H|H]; [discriminate|auto].
  - cbn [list_ascii_of_string In]. intros [H|H]; [congruence|auto].
Qed.

(** X24. The details Add works with.  With an email in the input they are
    the input's email and credentials and a UUID made of [explicit-] and
    the email with every [@] replaced, so a UUID that is not empty and has
    no [@]; without an email they are the email and the UUID of Config's
    current account, with the input's credentials or, when there are none,
    the placeholder payload.  In both cases the payload is not empty, and
    no store is written. *)
Theorem add_details_resolved {C : CryptoLib} (ctx : Context) (input : AddAccountInput)
    (w : World) (email uuid : string) (data : list byte) :
  (AddAccountService_determineAccountDetails ctx input w).1 = Ok (email, uuid, data) ->
  data <> [] /\
  (AddAccountService_determineAccountDetails ctx input w).2 = w /\
  if String.eqb (AddAccountInput_Email input) "" then
    exists currentAccount,
      mockConfigManager.GetCurrentAccount (configManager w) = Ok (Some currentAccount) /\
      email = Account_Email currentAccount /\
      uuid = Account_UUID currentAccount /\
      data = match AddAccountInput_Credentials input with
             | [] => list_byte_of_string (placeholderCredentials uuid)
             | _ :: _ => AddAccountInput_Credentials input
             end
  else
    email = AddAccountInput_Email input /\
    data = AddAccountInput_Credentials input /\
    uuid = "explicit-" +:+ strings_ReplaceAll (AddAccountInput_Email input) "@" "-" /\
    uuid <> "" /\
    ~ In "@"%char (list_ascii_of_string uuid).
Proof.
  intros H. split; [|split; [apply determineAccountDetails_readonly|]];
    unfold AddAccountService_determineAccountDetails in *;
    destruct (String.eqb (AddAccountInput_Email input) ""); cbn [negb] in *.
  - unfold bind, wrapping, reading in H.
    destruct (mockConfigManager.GetCurrentAccount (configManager w)) as [[current|]|e];
      try discriminate H.
    destruct (AddAccountInput_Credentials input) as [|b l]; cbn in H; injection H as <- <- <-.
    + unfold placeholderCredentials.
      change ("{" +:+ quote +:+ "account_id" +:+ quote +:+ ": " +:+ quote +:+
              Account_UUID current +:+ quote +:+ ", " +:+ quote +:+ "session_key" +:+
              quote +:+ ": " +:+ quote +:+ "placeholder" +:+ quote +:+ "}")
        with (String "{" (quote +:+ "account_id" +:+ quote +:+ ": " +:+ quote +:+
              Account_UUID current +:+ quote +:+ ", " +:+ quote +:+ "session_key" +:+
              quote +:+ ": " +:+ quote +:+ "placeholder" +:+ quote +:+ "}")).
      discriminate.
    + discriminate.
  - destruct (AddAccountInput_Credentials input) as [|b l]; cbn in H; [discriminate|].
    injection H as <- <- <-. discriminate.
  - unfold bind, wrapping, reading in H.
    destruct (mockConfigManager.GetCurrentAccount (configManager w)) as [[current|]|e];
      try discriminate H.
    exists current. split; [reflexivity|].
    destruct (AddAccountInput_Credentials input) as [|b l]; cbn in H; injection H as <- <- <-;
      auto.
  - destruct (AddAccountInput_Credentials input) as [|b l] eqn:Hcreds; cbn in H;
      [discriminate|].
    injection H as <- <- <-. repeat split; try reflexivity.
    + discriminate.
    + change ("explicit-" +:+ strings_ReplaceAll (AddAccountInput_Email input) "@" "-")
        with (String "e" (String "x" (String "p" (String "l" (String "i" (String "c"
              (String "i" (String "t" (String "-"
                 (strings_ReplaceAll (AddAccountInput_Email input) "@" "-")))))))))).
      cbn [list_ascii_of_string In].
      intros [H|[H|[H|[H|[H|[H|[H|[H|[H|H]]]]]]]]]; try discriminate H.
      exact (ReplaceAll_at_free _ H).
Qed.

Lemma add_details_resolved_witness :
  ~ In "@"%char (list_ascii_of_string "explicit-a-example.com").
Proof.
  apply (add_details_resolved (C := ToyCrypto.lib) context_Background Fixture.explicit
           Fixture.empty "a@example.com" "explicit-a-example.com" [x01; x02] eq_refl).
Defined.

(** X25. Add stops before any lookup when it cannot get its details: an
    email without credentials, no email and a Config that cannot be read,
    no email and no current account.  It returns the error of that step and
    writes nothing. *)
Theorem add_details_failure {C : CryptoLib} (env : Env) (ctx : Context)
    (input : AddAccountInput) (w : World) :
  let r := AddAccountService_Execute env ctx input w in
  match String.eqb (AddAccountInput_Email input) "",
        AddAccountInput_Credentials input,
        mockConfigManager.GetCurrentAccount (configManager w) with
  | false, [], _ =>
      r = (Err (New "credentials must be provided when email is specified explicitly"), w)
  | false, _ :: _, _ => True
  | true, _, Err e => r = (Err (Wrap "failed to get current Claude account: " e), w)
  | true, _, Ok None =>
      r = (Err (New "no current Claude account found - please configure Claude or provide explicit email"), w)
  | true, _, Ok (Some _) => True
  end.
Proof.
  cbv zeta. rewrite AddAccountService_Execute_eq.
  unfold AddAccountService_determineAccountDetails.
  destruct (String.eqb (AddAccountInput_Email input) ""); cbn [negb].
  - unfold bind, wrapping, reading.
    destruct (mockConfigManager.GetCurrentAccount (configManager w)) as [[current|]|e];
      destruct (AddAccountInput_Credentials input); try exact I; reflexivity.
  - destruct (AddAccountInput_Credentials input); [reflexivity|exact I].
Qed.

(** ** Switch: resolution of the target and rejections *)

(** X26. A switch by a position from 1 to the number of listed accounts
    resolves to the account at that position of the listing (counted from
    1), which is one of the stored accounts; nothing is written. *)
Theorem switch_by_position_resolves (ctx : Context) (w : World) (index : Z) :
  mockAccountRepository.findErr (accountRepo w) = None ->
  1 <= index <= Z.of_nat (length (mockAccountRepository.values (accountRepo w))) ->
  exists account,
    nth_error (mockAccountRepository.values (accountRepo w)) (Z.to_nat (index - 1)) =
      Some account /\
    In account (mockAccountRepository.values (accountRepo w)) /\
    SwitchAccountService_determineTargetAccount ctx (by_position index) w = (Ok account, w).
Proof.
  intros Hfind [Hlo Hhi].
  destruct (nth_error (mockAccountRepository.values (accountRepo w)) (Z.to_nat (index - 1)))
    as [account|] eqn:Hnth.
  2:{ apply nth_error_None in Hnth. lia. }
  exists account. split; [reflexivity|]. split; [eapply nth_error_In, Hnth|].
  unfold SwitchAccountService_determineTargetAccount, by_position, nonempty.
  cbn [SwitchAccountInput_AccountID SwitchAccountInput_Email SwitchAccountInput_Alias
       SwitchAccountInput_Index SwitchAccountInput_Previous String.eqb negb orb].
  rewrite (Zgtb_true index 0) by lia.
  change (0 + 0 + 0 + 1 =? 0) with false.
  change (0 + 0 + 0 + 1 >? 1) with false.
  unfold SwitchAccountService_findByIndex.
  replace (index <=? 0) with false by (symmetry; apply Z.leb_gt; lia).
  unfold bind at 1, wrapping at 1, reading at 1, mockAccountRepository.List.
  cbv beta iota. rewrite Hfind.
  rewrite Zgtb_false by lia. rewrite Hnth. reflexivity.
Qed.

Lemma switch_by_position_resolves_witness :
  exists account,
    In account [Fixture.personal; Fixture.work; Fixture.test] /\
    SwitchAccountService_determineTargetAccount context_Background (by_position 2)
      Fixture.populated = (Ok account, Fixture.populated).
Proof.
  destruct (switch_by_position_resolves context_Background Fixture.populated 2)
    as (account & Hnth & _ & Hexec).
  - reflexivity.
  - vm_compute. split; discriminate.
  - exists account. split; [|exact Hexec].
    vm_compute in Hnth. injection Hnth as <-. vm_compute. tauto.
Defined.

(** X27. A switch by the previous flag alone goes back to the source of
    the newest entry of the ledger, looked up by email.  When the ledger
    cannot be loaded the switch fails with the load error, wrapped; when
    the ledger is empty it fails with the no-previous-account error; in
    both cases nothing is written. *)
Theorem switch_previous_resolution (env : Env) (ctx : Context) (w : World) :
  Context_Err ctx = None ->
  mockConfigManager.getErr (configManager w) = None ->
  match mockHistoryRepository.LoadHistory (historyRepo w) with
  | Err e =>
      SwitchAccountService_Execute env ctx to_previous w =
        (Err (Wrap "failed to load history: " e), w)
  | Ok history =>
      match head (History_Entries history) with
      | None =>
          SwitchAccountService_Execute env ctx to_previous w =
            (Err (New "no previous account in history"), w)
      | Some lastSwitch =>
          SwitchAccountService_determineTargetAccount ctx to_previous w =
            (mockAccountRepository.FindByEmail (SwitchEntry_From lastSwitch) (accountRepo w),
             w)
      end
  end.
Proof.
  intros Hctx Hget.
  assert (Hexec : forall e,
            SwitchAccountService_determineTargetAccount ctx to_previous w = (Err e, w) ->
            SwitchAccountService_Execute env ctx to_previous w = (Err e, w)).
  { intros e He. unfold SwitchAccountService_Execute. rewrite Hctx.
    unfold bind at 1, wrapping at 1, reading at 1, mockConfigManager.GetCurrentAccount.
    rewrite Hget. unfold bind at 1. rewrite He. reflexivity. }
  assert (Htarget : SwitchAccountService_determineTargetAccount ctx to_previous w =
                    SwitchAccountService_getPreviousAccount ctx w) by reflexivity.
  unfold SwitchAccountService_getPreviousAccount in Htarget.
  unfold bind at 1, wrapping at 1, reading at 1 in Htarget.
  destruct (mockHistoryRepository.LoadHistory (historyRepo w)) as [history|e].
  - unfold History_GetLastSwitch, History_Entries in *.
    destruct (entries history) as [|lastSwitch rest]; cbn [head].
    + apply Hexec. exact Htarget.
    + exact Htarget.
  - apply Hexec. exact Htarget.
Qed.

Lemma switch_previous_resolution_witness :
  SwitchAccountService_Execute (Fixture.env x00) context_Background to_previous
    Fixture.populated =
  (Err (New "no previous account in history"), Fixture.populated).
Proof.
  apply (switch_previous_resolution (Fixture.env x00) context_Background Fixture.populated);
    reflexivity.
Defined.

(** X28. The errors of a switch, in the order of its steps: a cancelled
    context, a Config that cannot be read, a target that cannot be
    resolved (that error is passed on as it is), credentials of the target
    that cannot be retrieved (the message names the target's alias), a
    Config that cannot be written.  Each is returned with every store as it
    was.  The last two are not looked at when the target is the current
    account. *)
Theorem switch_rejections (env : Env) (ctx : Context) (input : SwitchAccountInput)
    (w : World) :
  let r := SwitchAccountService_Execute env ctx input w in
  match Context_Err ctx, mockConfigManager.GetCurrentAccount (configManager w),
        (SwitchAccountService_determineTargetAccount ctx input w).1 with
  | Some err, _, _ => r = (Err (Wrap "context cancelled: " err), w)
  | None, Err e, _ => r = (Err (Wrap "failed to get current account: " e), w)
  | None, Ok _, Err e => r = (Err e, w)
  | None, Ok currentAccount, Ok target =>
      if match currentAccount with
         | Some current => String.eqb (Account_ID current) (Account_ID target)
         | None => false
         end
      then is_Ok r.1 = true /\ r.2 = w
      else
        match mockCredentialStore.Retrieve (Account_ID target) (credentialStore w),
              mockConfigManager.setErr (configManager w) with
        | Err e, _ =>
            r = (Err (Wrap ("failed to retrieve credentials for account " +:+
                            Account_Alias target +:+ ": ") e), w)
        | Ok _, Some e => r = (Err (Wrap "failed to set current account: " e), w)
        | Ok _, None => is_Ok r.1 = true
        end
  end.
Proof.
  cbv zeta.
  destruct (Context_Err ctx) as [err|] eqn:Hctx.
  { destruct (mockConfigManager.GetCurrentAccount (configManager w)) as [?|?];
      destruct (SwitchAccountService_determineTargetAccount ctx input w).1;
      apply switch_cancelled, Hctx. }
  destruct (mockConfigManager.GetCurrentAccount (configManager w)) as [currentAccount|e]
    eqn:Hcur.
  2:{ unfold SwitchAccountService_Execute. rewrite Hctx.
      unfold bind at 1, wrapping at 1, reading at 1. rewrite Hcur. reflexivity. }
  destruct (SwitchAccountService_determineTargetAccount ctx input w).1 as [target|e]
    eqn:Htarget.
  2:{ unfold SwitchAccountService_Execute. rewrite Hctx.
      unfold bind at 1, wrapping at 1, reading at 1. rewrite Hcur. unfold bind at 1.
      pose proof (determineTargetAccount_readonly ctx input w) as Hro.
      destruct (SwitchAccountService_determineTargetAccount ctx input w) as [r w'].
      cbn in Hro, Htarget. subst. reflexivity. }
  rewrite (Execute_resolved env ctx input w currentAccount target Hctx Hcur Htarget).
  cbv zeta.
  assert (Hsteps : forall from : option Account,
    match mockCredentialStore.Retrieve (Account_ID target) (credentialStore w),
          mockConfigManager.setErr (configManager w) with
    | Err e, _ =>
        (do wrapping
              ("failed to retrieve credentials for account " +:+ Account_Alias target +:+ ": ")
              (reading credentialStore (mockCredentialStore.Retrieve (Account_ID target))) then
         do wrapping "failed to set current account: "
              (config_do (mockConfigManager.SetCurrentAccount (Some target))) then
         do match from with
            | Some current =>
                do attempt (SwitchAccountService_saveToHistory env ctx
                              (Account_Email current) (Account_Email target)) then
                ret tt
            | None => ret tt
            end then
         ret {| SwitchAccountResult_From := option_map accountToInfo from;
                SwitchAccountResult_To := accountToInfo target |}) w =
        (Err (Wrap ("failed to retrieve credentials for account " +:+
                    Account_Alias target +:+ ": ") e), w)
    | Ok _, Some e =>
        (do wrapping
              ("failed to retrieve credentials for account " +:+ Account_Alias target +:+ ": ")
              (reading credentialStore (mockCredentialStore.Retrieve (Account_ID target))) then
         do wrapping "failed to set current account: "
              (config_do (mockConfigManager.SetCurrentAccount (Some target))) then
         do match from with
            | Some current =>
                do attempt (SwitchAccountService_saveToHistory env ctx
                              (Account_Email current) (Account_Email target)) then
                ret tt
            | None => ret tt
            end then
         ret {| SwitchAccountResult_From := option_map accountToInfo from;
                SwitchAccountResult_To := accountToInfo target |}) w =
        (Err (Wrap "failed to set current account: " e), w)
    | Ok _, None =>
        is_Ok
          ((do wrapping
                ("failed to retrieve credentials for account " +:+ Account_Alias target +:+ ": ")
                (reading credentialStore (mockCredentialStore.Retrieve (Account_ID target))) then
           do wrapping "failed to set current account: "
                (config_do (mockConfigManager.SetCurrentAccount (Some target))) then
           do match from with
              | Some current =>
                  do attempt (SwitchAccountService_saveToHistory env ctx
                                (Account_Email current) (Account_Email target)) then
                  ret tt
              | None => ret tt
              end then
           ret {| SwitchAccountResult_From := option_map accountToInfo from;
                  SwitchAccountResult_To := accountToInfo target |}) w).1 = true
    end).
  { intros from.
    destruct (mockCredentialStore.Retrieve (Account_ID target) (credentialStore w))
      as [creds|e] eqn:Hretrieve.
    2:{ unfold bind at 1, wrapping at 1, reading at 1. rewrite Hretrieve. reflexivity. }
    destruct (mockConfigManager.setErr (configManager w)) as [e|] eqn:Hset.
    { unfold bind at 1, wrapping at 1, reading at 1. rewrite Hretrieve.
      unfold bind at 1, wrapping at 1, config_do at 1, mockConfigManager.SetCurrentAccount.
      rewrite Hset. destruct w; reflexivity. }
    unfold bind at 1, wrapping at 1, reading at 1. rewrite Hretrieve.
    unfold bind at 1, wrapping at 1, config_do at 1, mockConfigManager.SetCurrentAccount.
    rewrite Hset. unfold bind at 1.
    destruct from as [current|]; [|reflexivity].
    unfold bind at 1, attempt at 1.
    match goal with
    | |- context [SwitchAccountService_saveToHistory ?a ?b ?c ?d ?s] =>
        destruct (SwitchAccountService_saveToHistory a b c d s) as [? ?]
    end.
    reflexivity. }
  destruct currentAccount as [current|].
  - destruct (String.eqb (Account_ID current) (Account_ID target)); [split; reflexivity|].
    exact (Hsteps (Some current)).
  - exact (Hsteps None).
Qed.

(** ** Remove: rejections *)

(** X29. Remove looks at the account ID first, then at the context, then
    for the account: an empty ID gives the ID-required error even under a
    cancelled context; a cancelled context gives the context's own error,
    not wrapped; an account that cannot be found gives the lookup error,
    wrapped.  Each is returned with every store as it was. *)
Theorem remove_rejections (ctx : Context) (input : RemoveAccountInput) (w : World) :
  let r := RemoveAccountService_Execute ctx input w in
  match String.eqb (RemoveAccountInput_AccountID input) "", Context_Err ctx,
        mockAccountRepository.FindByID (RemoveAccountInput_AccountID input) (accountRepo w)
  with
  | true, _, _ => r = (Err (New "account ID is required"), w)
  | false, Some err, _ => r = (Err err, w)
  | false, None, Err e => r = (Err (Wrap "failed to find account: " e), w)
  | false, None, Ok account => True
  end.
Proof.
  cbv zeta.
  destruct (String.eqb (RemoveAccountInput_AccountID input) "") eqn:Hid.
  { unfold RemoveAccountService_Execute, RemoveAccountService_validateInput.
    unfold bind at 1. rewrite Hid. reflexivity. }
  destruct (Context_Err ctx) as [err|] eqn:Hctx.
  { rewrite (remove_cancelled ctx input w err Hctx), Hid. reflexivity. }
  destruct (mockAccountRepository.FindByID (RemoveAccountInput_AccountID input)
              (accountRepo w)) as [account|e] eqn:Hfind; [exact I|].
  unfold RemoveAccountService_Execute, RemoveAccountService_validateInput.
  unfold bind at 1. rewrite Hid, Hctx. unfold ret at 1.
  unfold bind at 1, wrapping at 1, reading at 1. rewrite Hfind. reflexivity.
Qed.
